(** * RAGIFY: a shallow embedding of the chat and upload handlers, and of the
      retrieval contracts they talk to.

    The React components keep their state in hooks and reach the backend
    through [fetch].  Each handler is embedded as a function on an explicit
    state record; what the backend answers is an input of the handler, and
    a thrown JavaScript value is an explicit [Throws] outcome, so that
    [try]/[catch]/[finally] are ordinary combinators. *)

From Stdlib Require Import String Ascii List Bool Arith NArith ZArith QArith Qminmax.
From Stdlib Require Import DecimalString Lia.
From Stdlib Require PrimFloat.
Import ListNotations.

Close Scope Q_scope.
Open Scope nat_scope.
Open Scope list_scope.

(* ------------------------------------------------------------------------- *)
(** ** JavaScript strings and thrown values *)
(* ------------------------------------------------------------------------- *)

Module JS.

(** A JavaScript string is a sequence of UTF-16 code units. *)
Definition code_unit := N.
Definition jsstring := list code_unit.

(** ASCII literals of the source. *)
Definition lit (s : string) : jsstring :=
  map N_of_ascii (list_ascii_of_string s).

(** [a === b] on strings. *)
Fixpoint eqb (a b : jsstring) : bool :=
  match a, b with
  | [], [] => true
  | x :: a', y :: b' => N.eqb x y && eqb a' b'
  | _, _ => false
  end.

(** WhiteSpace and LineTerminator code points of ECMAScript, the ones
    [String.prototype.trim] strips: TAB, LF, VT, FF, CR, SP, NBSP,
    U+1680, U+2000..U+200A, U+2028, U+2029, U+202F, U+205F, U+3000 and
    U+FEFF. *)
Definition isWhiteSpace (c : code_unit) : bool :=
  ((9 <=? c) && (c <=? 13) || (c =? 32) || (c =? 160) || (c =? 5760)
   || (8192 <=? c) && (c <=? 8202) || (c =? 8232) || (c =? 8233)
   || (c =? 8239) || (c =? 8287) || (c =? 12288) || (c =? 65279))%N.

Fixpoint trimStart (s : jsstring) : jsstring :=
  match s with
  | c :: s' => if isWhiteSpace c then trimStart s' else s
  | [] => []
  end.

Definition trimEnd (s : jsstring) : jsstring := rev (trimStart (rev s)).

(** [s.trim()] *)
Definition trim (s : jsstring) : jsstring := trimEnd (trimStart s).

(** Truthiness of a string: only the empty string is falsy. *)
Definition truthy (s : jsstring) : bool :=
  match s with [] => false | _ :: _ => true end.

Fixpoint startsWith (s p : jsstring) : bool :=
  match p, s with
  | [], _ => true
  | _ :: _, [] => false
  | y :: p', x :: s' => N.eqb x y && startsWith s' p'
  end.

(** [s.includes(p)] *)
Fixpoint includes (s p : jsstring) : bool :=
  startsWith s p ||
  match s with
  | [] => false
  | _ :: s' => includes s' p
  end.

(** Template-literal rendering of a non-negative integer. *)
Definition ofNumber (n : N) : jsstring :=
  lit (NilEmpty.string_of_uint (N.to_uint n)).

(** What a [throw] or a rejected promise carries: an [Error] object with
    its message, or some other value with its [String(...)] rendering. *)
Inductive thrown :=
| ErrorObject (message : jsstring)
| OtherValue (rendering : jsstring).

(** The result of running a handler body: it returns, or it throws. *)
Inductive outcome (A : Type) :=
| Returns (a : A)
| Throws (e : thrown).
Arguments Returns {A} a.
Arguments Throws {A} e.

(** Handlers thread a state [S] and may throw. *)
Definition eff (S A : Type) := S -> S * outcome A.

Definition ret {S A} (a : A) : eff S A := fun s => (s, Returns a).

Definition throw {S A} (e : thrown) : eff S A := fun s => (s, Throws e).

Definition bind {S A B} (m : eff S A) (k : A -> eff S B) : eff S B :=
  fun s =>
    match m s with
    | (s', Returns a) => k a s'
    | (s', Throws e) => (s', Throws e)
    end.

(** A state update that cannot throw ([setState] calls, logging). *)
Definition modify {S} (f : S -> S) : eff S unit := fun s => (f s, Returns tt).

Definition gets {S A} (f : S -> A) : eff S A := fun s => (s, Returns (f s)).

(** [try { body } catch (error) { handler(error) }] *)
Definition tryCatch {S A} (body : eff S A) (handler : thrown -> eff S A)
  : eff S A :=
  fun s =>
    match body s with
    | (s', Returns a) => (s', Returns a)
    | (s', Throws e) => handler e s'
    end.

(** [try { body } finally { final }]: [final] runs either way, and a
    throw of [final] replaces the outcome of [body]. *)
Definition tryFinally {S A} (body : eff S A) (final : eff S unit) : eff S A :=
  fun s =>
    match body s with
    | (s', r) =>
        match final s' with
        | (s'', Returns _) => (s'', r)
        | (s'', Throws e) => (s'', Throws e)
        end
    end.

End JS.

Import JS.

Declare Scope eff_scope.
Delimit Scope eff_scope with eff.
Notation "x <- m ;; k" := (bind m (fun x => k))
  (at level 61, m at next level, right associativity) : eff_scope.
Notation "m ;;; k" := (bind m (fun _ => k))
  (at level 61, right associativity) : eff_scope.

(* ------------------------------------------------------------------------- *)
(** ** src/types/index.ts *)
(* ------------------------------------------------------------------------- *)

Module Types.

Inductive FileType := pdf | image | text | audio | video.

(** [FileData['status']] *)
Inductive FileStatus := uploading | processing | ready | error.

Record FileData := mkFileData {
  id : jsstring;
  name : jsstring;
  type : FileType;
  size : N;
  uploadedAt : N;                (* a Date, as epoch milliseconds *)
  preview : option jsstring;
  status : FileStatus;
  progress : option Q;
  tags : option (list jsstring)
}.

(** [Partial<FileData>]: the fields an update object carries. *)
Record PartialFileData := mkPartial {
  p_id : option jsstring;
  p_name : option jsstring;
  p_type : option FileType;
  p_size : option N;
  p_uploadedAt : option N;
  p_preview : option jsstring;
  p_status : option FileStatus;
  p_progress : option Q;
  p_tags : option (list jsstring)
}.

Definition noUpdates : PartialFileData :=
  mkPartial None None None None None None None None None.

Definition override {A} (old : A) (new : option A) : A :=
  match new with Some v => v | None => old end.

Definition overrideOpt {A} (old : option A) (new : option A) : option A :=
  match new with Some v => Some v | None => old end.

(** [{ ...file, ...updates }] *)
Definition spread (file : FileData) (updates : PartialFileData) : FileData :=
  {| id := override (id file) (p_id updates);
     name := override (name file) (p_name updates);
     type := override (type file) (p_type updates);
     size := override (size file) (p_size updates);
     uploadedAt := override (uploadedAt file) (p_uploadedAt updates);
     preview := overrideOpt (preview file) (p_preview updates);
     status := override (status file) (p_status updates);
     progress := overrideOpt (progress file) (p_progress updates);
     tags := overrideOpt (tags file) (p_tags updates) |}.

Inductive Role := user | assistant.

Record Source := mkSource {
  source_name : jsstring;
  page_number : Z;
  display : jsstring
}.

Inductive Scope := all | selected.

Record Metadata := mkMetadata {
  scope : option Scope;
  selectedFilesCount : option nat      (* [metadata.selectedFiles] *)
}.

Record Timing := mkTiming {
  document_analysis : Q;
  response_generation : Q;
  total_time : Q
}.

Record ChatMessage := mkChatMessage {
  msg_id : jsstring;
  msg_type : Role;
  content : jsstring;
  timestamp : N;
  sources : option (list Source);
  isTyping : option bool;
  metadata : option Metadata;
  timing : option Timing
}.

End Types.

Import Types.

(* ------------------------------------------------------------------------- *)
(** ** src/components/ChatInterface.tsx *)
(* ------------------------------------------------------------------------- *)

Module ChatInterface.

(** The body of [POST /api/chat/]; [JSON.stringify] drops a
    [document_ids] that is [undefined]. *)
Record ChatRequest := mkChatRequest {
  req_message : jsstring;
  req_document_ids : option (list jsstring)
}.

(** The parsed JSON reply of the chat endpoint. *)
Record ChatResult := mkChatResult {
  res_message : jsstring;
  res_sources : option (list Source);
  res_timing : option Timing;
  res_session_id : option N
}.

(** What the [fetch] of one chat request does. *)
Inductive FetchOutcome :=
| FetchRejects (e : thrown)            (* the promise of [fetch] rejects *)
| HttpError (http_status : N)          (* [response.ok] is false *)
| BodyRejects (e : thrown)             (* reading the body throws *)
| HttpOk (result : ChatResult).

(** Hook state of the component, the props it can change through its
    callbacks, and the requests it has issued. *)
Record State := mkState {
  messages : list ChatMessage;
  inputValue : jsstring;
  isLoading : bool;
  selectedFiles : list jsstring;
  searchScope : Scope;
  activeSessionId : option N;
  sessionUpdates : nat;                (* calls of [onSessionUpdate] *)
  requests : list ChatRequest
}.

(** [Math.random()] ids and [new Date()] stamps drawn by one send. *)
Record Entropy := mkEntropy {
  userId : jsstring;  userTime : N;
  typingId : jsstring; typingTime : N;
  replyId : jsstring; replyTime : N
}.

Definition setMessages (f : list ChatMessage -> list ChatMessage) (s : State) : State :=
  mkState (f (messages s)) (inputValue s) (isLoading s) (selectedFiles s)
          (searchScope s) (activeSessionId s) (sessionUpdates s) (requests s).

Definition setInputValue (v : jsstring) (s : State) : State :=
  mkState (messages s) v (isLoading s) (selectedFiles s)
          (searchScope s) (activeSessionId s) (sessionUpdates s) (requests s).

Definition setIsLoading (b : bool) (s : State) : State :=
  mkState (messages s) (inputValue s) b (selectedFiles s)
          (searchScope s) (activeSessionId s) (sessionUpdates s) (requests s).

Definition setSelectedFiles (f : list jsstring -> list jsstring) (s : State) : State :=
  mkState (messages s) (inputValue s) (isLoading s) (f (selectedFiles s))
          (searchScope s) (activeSessionId s) (sessionUpdates s) (requests s).

Definition setSearchScope (sc : Scope) (s : State) : State :=
  mkState (messages s) (inputValue s) (isLoading s) (selectedFiles s)
          sc (activeSessionId s) (sessionUpdates s) (requests s).

Definition setActiveSessionId (i : option N) (s : State) : State :=
  mkState (messages s) (inputValue s) (isLoading s) (selectedFiles s)
          (searchScope s) i (sessionUpdates s) (requests s).

Definition onSessionUpdate (s : State) : State :=
  mkState (messages s) (inputValue s) (isLoading s) (selectedFiles s)
          (searchScope s) (activeSessionId s) (S (sessionUpdates s)) (requests s).

Definition logRequest (r : ChatRequest) (s : State) : State :=
  mkState (messages s) (inputValue s) (isLoading s) (selectedFiles s)
          (searchScope s) (activeSessionId s) (sessionUpdates s) (requests s ++ [r]).

Definition isSelectedScope (sc : Scope) : bool :=
  match sc with selected => true | all => false end.

(** [prev.includes(fileId)] *)
Definition includesId (l : list jsstring) (fileId : jsstring) : bool :=
  existsb (fun x => JS.eqb x fileId) l.

Definition toggleFileSelection (fileId : jsstring) : State -> State :=
  setSelectedFiles (fun prev =>
    if includesId prev fileId
    then filter (fun x => negb (JS.eqb x fileId)) prev
    else prev ++ [fileId]).

Definition clearFileSelection (s : State) : State :=
  setSearchScope all (setSelectedFiles (fun _ => []) s).

(** Lines 188-194: the document filter of a request.  File ids are turned
    into file names; without the 'selected' scope or without a selection
    it stays [undefined]. *)
Definition documentIds (files : list FileData) (s : State) : option (list jsstring) :=
  if isSelectedScope (searchScope s) && (0 <? length (selectedFiles s))
  then Some (map (fun fileId =>
                    match find (fun f => JS.eqb (id f) fileId) files with
                    | Some file => name file
                    | None => fileId
                    end) (selectedFiles s))
  else None.

(** [!m.isTyping] *)
Definition notTyping (m : ChatMessage) : bool :=
  match isTyping m with Some true => false | _ => true end.

Definition typingMessage (e : Entropy) : ChatMessage :=
  mkChatMessage (typingId e) assistant [] (typingTime e) None (Some true) None None.

Definition nonEmptySources (l : option (list Source)) : option (list Source) :=
  match l with
  | Some (x :: l') => Some (x :: l')
  | _ => None
  end.

Definition assistantMessage (e : Entropy) (result : ChatResult) : ChatMessage :=
  mkChatMessage (replyId e) assistant (res_message result) (replyTime e)
                (nonEmptySources (res_sources result)) None None
                (res_timing result).

Definition hnswMarker1 : jsstring :=
  lit "Cannot return the results in a contigious 2D array".
Definition hnswMarker2 : jsstring :=
  lit "insufficient data in the index".

Definition genericNotice : jsstring :=
  lit "Sorry, I encountered an error while processing your request. Please try again.".
Definition indexNotice : jsstring :=
  lit "The search index needs to be rebuilt. This can happen when there are too few documents or the index becomes corrupted. You can try uploading more documents or contact support to reset the index.".

(** [error instanceof Error ? error.message : String(error)] *)
Definition errorMessage (e : thrown) : jsstring :=
  match e with
  | ErrorObject m => m
  | OtherValue r => r
  end.

(** Lines 258-264. *)
Definition isHnswError (e : thrown) : bool :=
  includes (errorMessage e) hnswMarker1 || includes (errorMessage e) hnswMarker2.

Definition displayMessage (e : thrown) : jsstring :=
  if isHnswError e then indexNotice else genericNotice.

Definition errorMessageObj (en : Entropy) (e : thrown) : ChatMessage :=
  mkChatMessage (replyId en) assistant (displayMessage e) (replyTime en)
                None None None None.

Definition httpErrorMessage (http_status : N) : jsstring :=
  lit "HTTP error! status: " ++ ofNumber http_status.

(** [result.session_id && result.session_id !== activeSessionId] *)
Definition isNewSession (sid : option N) (active : option N) : bool :=
  match sid with
  | None => false
  | Some n =>
      negb (n =? 0)%N &&
      match active with
      | Some a => negb (n =? a)%N
      | None => true
      end
  end.

Local Open Scope eff_scope.

(** The [try] block of [sendMessageToBackend], lines 185-249. *)
Definition sendBody (files : list FileData) (en : Entropy)
           (userMessage : jsstring) (reply : FetchOutcome) : eff State unit :=
  ids <- gets (documentIds files) ;;
  modify (logRequest (mkChatRequest userMessage ids)) ;;;
  result <- (match reply with
             | FetchRejects e => throw e
             | HttpError st => throw (ErrorObject (httpErrorMessage st))
             | BodyRejects e => throw e
             | HttpOk result => ret result
             end) ;;
  modify (setMessages (filter notTyping)) ;;;
  modify (setMessages (fun prev => prev ++ [assistantMessage en result])) ;;;
  active <- gets activeSessionId ;;
  if isNewSession (res_session_id result) active
  then modify (setActiveSessionId (res_session_id result)) ;;;
       modify onSessionUpdate
  else ret tt.

(** The [catch] block, lines 251-274. *)
Definition sendCatch (en : Entropy) (e : thrown) : eff State unit :=
  modify (setMessages (filter notTyping)) ;;;
  modify (setMessages (fun prev => prev ++ [errorMessageObj en e])).

Definition sendMessageToBackend (files : list FileData) (en : Entropy)
           (userMessage : jsstring) (reply : FetchOutcome) : eff State unit :=
  modify (setIsLoading true) ;;;
  modify (setMessages (fun prev => prev ++ [typingMessage en])) ;;;
  tryFinally
    (tryCatch (sendBody files en userMessage reply) (sendCatch en))
    (modify (setIsLoading false)).

Definition userMessageOf (en : Entropy) (s : State) : ChatMessage :=
  mkChatMessage (userId en) user (inputValue s) (userTime en) None None
    (Some (if isSelectedScope (searchScope s) && (0 <? length (selectedFiles s))
           then mkMetadata (Some selected) (Some (length (selectedFiles s)))
           else mkMetadata (Some all) None))
    None.

(** Line 281: [!inputValue.trim() || isLoading || files.length === 0] *)
Definition sendBlocked (files : list FileData) (s : State) : bool :=
  negb (truthy (trim (inputValue s))) || isLoading s || (length files =? 0).

Definition handleSendMessage (files : list FileData) (en : Entropy)
           (reply : FetchOutcome) : eff State unit :=
  fun s =>
    if sendBlocked files s then (s, Returns tt)
    else
      (modify (setMessages (fun prev => prev ++ [userMessageOf en s])) ;;;
       modify (setInputValue []) ;;;
       sendMessageToBackend files en (inputValue s) reply) s.

End ChatInterface.

(* ------------------------------------------------------------------------- *)
(** ** src/App.tsx: the main file list *)
(* ------------------------------------------------------------------------- *)

Module App.

(** [handleFileUpload]: [setFiles(prev => [...prev, ...newFiles])]. *)
Definition handleFileUpload (newFiles : list FileData) (prev : list FileData)
  : list FileData := prev ++ newFiles.

(** [handleFileUpdate]: the update is spread over every file with the id. *)
Definition handleFileUpdate (fileId : jsstring) (updates : PartialFileData)
           (prev : list FileData) : list FileData :=
  map (fun file => if JS.eqb (id file) fileId then spread file updates else file) prev.

Definition handleFileDelete (fileId : jsstring) (prev : list FileData)
  : list FileData :=
  filter (fun file => negb (JS.eqb (id file) fileId)) prev.

(** [loadFilesFromDatabase] on an OK response: the list is replaced by the
    records of the database. *)
Definition loadFilesFromDatabase (records : list FileData) (prev : list FileData)
  : list FileData := records.

End App.

(* ------------------------------------------------------------------------- *)
(** ** The upload component (src/unnamed/part_003, [FileUpload]) *)
(* ------------------------------------------------------------------------- *)

Module FileUpload.

(** Everything the handler does to the outside, in the order it does it. *)
Inductive Call :=
| Wait (ms : N)                                  (* an awaited [setTimeout] *)
| PostUpload (fileName : jsstring)               (* POST upload-to-public *)
| PutStatus (fileId : jsstring) (st : FileStatus) (prog : Q)
            (error_message : option jsstring)    (* PUT /api/files/{id}/status *)
| GetFile (fileId : jsstring)                    (* GET /api/files/{id} *)
| OnFileUpdate (fileId : jsstring) (updates : PartialFileData)
| SetUploadingFiles (fileId : jsstring) (updates : PartialFileData)
| OnFileUpload (newFiles : list FileData)
| LoadFilesFromDatabase
| ConsoleError (e : thrown)
| ScheduleRemoval (fileId : jsstring) (ms : N).

Record World := mkWorld {
  files : list FileData;             (* [files] of App *)
  uploadingFiles : list FileData;    (* [uploadingFiles] of FileUpload *)
  calls : list Call
}.

Inductive UploadOutcome :=
| UploadRejects (e : thrown)
| UploadHttpError (http_status : N)
| UploadBodyRejects (e : thrown)
| UploadOk (resultId : jsstring).

Inductive PollOutcome :=
| PollRejects (e : thrown)
| PollHttpError (http_status : N)
| PollBodyRejects (e : thrown)
| PollOk (record_status : jsstring) (error_message : jsstring).

(** The backend as the handler meets it: the reply to the upload, whether
    the n-th PUT of the run rejects, and the reply to the poll made when
    [attempts] is n. *)
Record Backend := mkBackend {
  upload : UploadOutcome;
  putRejects : nat -> option thrown;
  poll : nat -> PollOutcome
}.

Definition log (c : Call) (w : World) : World :=
  mkWorld (files w) (uploadingFiles w) (calls w ++ [c]).

Definition setFiles (f : list FileData -> list FileData) (w : World) : World :=
  mkWorld (f (files w)) (uploadingFiles w) (calls w).

Definition setUploadingFiles (f : list FileData -> list FileData) (w : World) : World :=
  mkWorld (files w) (f (uploadingFiles w)) (calls w).

Local Open Scope eff_scope.

Definition wait (ms : N) : eff World unit := modify (log (Wait ms)).

(** The [onFileUpdate] prop is [App.handleFileUpdate]. *)
Definition onFileUpdate (fileId : jsstring) (updates : PartialFileData)
  : eff World unit :=
  modify (log (OnFileUpdate fileId updates)) ;;;
  modify (setFiles (App.handleFileUpdate fileId updates)).

(** The [onFileUpload] prop is [App.handleFileUpload], which also asks for
    a refresh from the database. *)
Definition onFileUpload (newFiles : list FileData) : eff World unit :=
  modify (log (OnFileUpload newFiles)) ;;;
  modify (setFiles (App.handleFileUpload newFiles)) ;;;
  modify (log LoadFilesFromDatabase).

(** [setUploadingFiles(prev => prev.map(f => f.id === fileId ? {...f, ...updates} : f))] *)
Definition updateUploading (fileId : jsstring) (updates : PartialFileData)
  : eff World unit :=
  modify (log (SetUploadingFiles fileId updates)) ;;;
  modify (setUploadingFiles
            (map (fun f => if JS.eqb (id f) fileId then spread f updates else f))).

Fixpoint countPuts (l : list Call) : nat :=
  match l with
  | [] => 0
  | PutStatus _ _ _ _ :: l' => S (countPuts l')
  | _ :: l' => countPuts l'
  end.

(** [await fetch(.../status, { method: 'PUT', ... })]; the response is
    not inspected, only a rejection is noticed. *)
Definition putStatus (be : Backend) (fileId : jsstring) (st : FileStatus)
           (prog : Q) (msg : option jsstring) : eff World unit :=
  n <- gets (fun w => countPuts (calls w)) ;;
  modify (log (PutStatus fileId st prog msg)) ;;;
  match putRejects be n with
  | Some e => throw e
  | None => ret tt
  end.

Definition uploadFileToPublic (be : Backend) (fileData : FileData)
  : eff World jsstring :=
  modify (log (PostUpload (name fileData))) ;;;
  match upload be with
  | UploadRejects e => throw e
  | UploadHttpError st => throw (ErrorObject (lit "Upload failed: " ++ ofNumber st))
  | UploadBodyRejects e => throw e
  | UploadOk resultId => ret resultId
  end.

Fixpoint forEach {S A} (l : list A) (body : A -> eff S unit) : eff S unit :=
  match l with
  | [] => ret tt
  | x :: l' => body x ;;; forEach l' body
  end.

(** [for (let progress = 0; progress <= 100; progress += 10)] *)
Definition progressSteps : list Z := [0; 10; 20; 30; 40; 50; 60; 70; 80; 90; 100]%Z.

Definition statusUpdate (st : FileStatus) : PartialFileData :=
  mkPartial None None None None None None (Some st) None None.

Definition progressUpdate (p : Q) : PartialFileData :=
  mkPartial None None None None None None None (Some p) None.

Definition statusProgressUpdate (st : FileStatus) (p : Q) : PartialFileData :=
  mkPartial None None None None None None (Some st) (Some p) None.

Definition idStatusProgressUpdate (i : jsstring) (st : FileStatus) (p : Q)
  : PartialFileData :=
  mkPartial (Some i) None None None None None (Some st) (Some p) None.

Definition maxAttempts : nat := 60.

(** [Math.min(95, 50 + (attempts * 0.75))] *)
Definition pollProgress (attempts : nat) : Q :=
  Qmin (inject_Z 95) (inject_Z 50 + inject_Z (Z.of_nat attempts) * (3 # 4))%Q.

(** One turn of the polling loop, lines 367-404; [true] is the [break]. *)
Definition pollOnce (be : Backend) (updatedFileData : FileData) (attempts : nat)
  : eff World bool :=
  wait 5000 ;;;
  updateUploading (id updatedFileData)
                  (statusProgressUpdate processing (pollProgress attempts)) ;;;
  tryCatch
    (modify (log (GetFile (id updatedFileData))) ;;;
     match poll be attempts with
     | PollRejects e => throw e
     | PollHttpError _ => ret false
     | PollBodyRejects e => throw e
     | PollOk record_status error_message =>
         if JS.eqb record_status (lit "ready") then
           onFileUpdate (id updatedFileData) (statusUpdate ready) ;;;
           updateUploading (id updatedFileData)
                           (statusProgressUpdate ready (inject_Z 100)) ;;;
           onFileUpload [updatedFileData] ;;;
           ret true
         else if JS.eqb record_status (lit "error") then
           throw (ErrorObject (if truthy error_message then error_message
                               else lit "Processing failed"))
         else ret false
     end)
    (fun e => modify (log (ConsoleError e)) ;;; ret false).

(** [while (attempts < maxAttempts) { ...; attempts++ }], returning the
    final [attempts].  [fuel] bounds the recursion; [maxAttempts - attempts]
    turns are all the loop condition admits. *)
Fixpoint pollLoop (be : Backend) (updatedFileData : FileData)
         (fuel attempts : nat) : eff World nat :=
  if attempts <? maxAttempts then
    match fuel with
    | 0 => ret attempts
    | S fuel' =>
        stop <- pollOnce be updatedFileData attempts ;;
        if (stop : bool) then ret attempts
        else pollLoop be updatedFileData fuel' (S attempts)
    end
  else ret attempts.

(** The [try] block of [handleFileUpload], lines 306-416. *)
Definition uploadBody (be : Backend) (fileData : FileData) : eff World unit :=
  resultId <- uploadFileToPublic be fileData ;;
  let updatedFileData :=
    spread fileData (mkPartial (Some resultId) None None None None None None None None) in
  let newId := id updatedFileData in
  onFileUpdate newId (statusProgressUpdate uploading (inject_Z 0)) ;;;
  updateUploading (id fileData)
                  (idStatusProgressUpdate newId uploading (inject_Z 0)) ;;;
  forEach progressSteps (fun p =>
    wait 100 ;;;
    onFileUpdate newId (progressUpdate (inject_Z p)) ;;;
    updateUploading newId (progressUpdate (inject_Z p)) ;;;
    putStatus be newId uploading (inject_Z p / inject_Z 100)%Q None) ;;;
  onFileUpdate newId (statusUpdate processing) ;;;
  updateUploading newId (statusUpdate processing) ;;;
  putStatus be newId processing (inject_Z 1) None ;;;
  attempts <- pollLoop be updatedFileData maxAttempts 0 ;;
  (if maxAttempts <=? attempts
   then throw (ErrorObject (lit "Processing timed out"))
   else ret tt) ;;;
  modify (log (ScheduleRemoval newId 15000)).

(** The [catch] block, lines 418-437. *)
Definition uploadCatch (be : Backend) (fileData : FileData) (e : thrown)
  : eff World unit :=
  modify (log (ConsoleError e)) ;;;
  onFileUpdate (id fileData) (statusUpdate error) ;;;
  updateUploading (id fileData) (statusUpdate error) ;;;
  putStatus be (id fileData) error (inject_Z 0)
            (Some (match e with
                   | ErrorObject m => m
                   | OtherValue _ => lit "Unknown error"
                   end)).

Definition handleFileUpload (be : Backend) (fileData : FileData) : eff World unit :=
  tryCatch (uploadBody be fileData) (uploadCatch be fileData).

(** The entry [handleFiles] makes for a chosen file, lines 441-449. *)
Definition newFileData (randomId fileName : jsstring) (ty : FileType)
           (bytes now : N) : FileData :=
  mkFileData randomId fileName ty bytes now None uploading (Some (inject_Z 0)) None.

(** Reading the lists and the log. *)
Definition statusOf (fileId : jsstring) (l : list FileData) : option FileStatus :=
  option_map status (find (fun f => JS.eqb (id f) fileId) l).

Definition writtenStatus (c : Call) : option FileStatus :=
  match c with
  | PutStatus _ st _ _ => Some st
  | OnFileUpdate _ u => p_status u
  | SetUploadingFiles _ u => p_status u
  | _ => None
  end.

(** The statuses the updates of one run write, in order. *)
Fixpoint writtenStatuses (l : list Call) : list FileStatus :=
  match l with
  | [] => []
  | c :: l' =>
      match writtenStatus c with
      | Some st => st :: writtenStatuses l'
      | None => writtenStatuses l'
      end
  end.

Fixpoint countPolls (l : list Call) : nat :=
  match l with
  | [] => 0
  | GetFile _ :: l' => S (countPolls l')
  | _ :: l' => countPolls l'
  end.

Definition isFileUploadCall (c : Call) : bool :=
  match c with OnFileUpload _ => true | _ => false end.

End FileUpload.

(* ------------------------------------------------------------------------- *)
(** ** The chunker and the embedding client

    The Python services that split and embed documents are not among the
    sources of the repository; only their documentation is
    (src/unnamed/part_000 and part_001).  The two modules below follow
    the contracts of the specification. *)
(* ------------------------------------------------------------------------- *)

Module Chunker.

(** Extracted text: a sequence of characters. *)
Definition text := list N.

Inductive Error := ConfigError.

Record Chunk := mkChunk {
  chunk_text : text;
  sequence_index : nat;
  start_offset : nat;         (* inclusive *)
  end_offset : nat;           (* exclusive *)
  page_number : option nat
}.

Section Splitting.

(** Where the text may be cut naturally: [paragraph t p] and
    [sentence t p] say that a paragraph, or a sentence, of [t] ends at
    offset [p].  The specification names the two kinds of boundary and
    leaves their detection open. *)
Variable paragraph : text -> nat -> bool.
Variable sentence : text -> nat -> bool.

(** Modelled from the spec: the search for a natural boundary (the
    chunker is missing from the sources): the greatest offset in
    [(lo, lo + d]] that [b] accepts. *)
Fixpoint lastBoundary (b : text -> nat -> bool) (t : text) (lo d : nat)
  : option nat :=
  match d with
  | 0 => None
  | S d' => if b t (lo + S d') then Some (lo + S d')
            else lastBoundary b t lo d'
  end.

(** Modelled from the spec: the end of the chunk that starts at [start]
    (the chunker itself is missing from the sources).  The rest of the
    text if it fits in [chunk_size]; otherwise the last paragraph end
    within reach and past the overlap, else the last sentence end, else
    a hard cut after [chunk_size] characters. *)
Definition cutAfter (t : text) (chunk_size overlap start : nat) : nat :=
  if length t <=? start + chunk_size then length t
  else
    match lastBoundary paragraph t (start + overlap) (chunk_size - overlap) with
    | Some p => p
    | None =>
        match lastBoundary sentence t (start + overlap) (chunk_size - overlap) with
        | Some p => p
        | None => start + chunk_size
        end
    end.

(** Modelled from the spec: the windows of the chunker, each starting
    [overlap] characters before the end of the previous one. *)
Fixpoint windows (t : text) (chunk_size overlap fuel start : nat)
  : list (nat * nat) :=
  match fuel with
  | 0 => []
  | S fuel' =>
      let stop := cutAfter t chunk_size overlap start in
      (start, stop) ::
      (if length t <=? stop then []
       else windows t chunk_size overlap fuel' (stop - overlap))
  end.

(** Modelled from the spec: the text of a chunk, by its offsets (the
    chunker is missing from the sources). *)
Definition slice (t : text) (start stop : nat) : text :=
  firstn (stop - start) (skipn start t).

(** Modelled from the spec: the chunks of the windows, tagged with their
    sequence index and offsets (the chunker is missing from the
    sources). *)
Fixpoint number (t : text) (index : nat) (ws : list (nat * nat)) : list Chunk :=
  match ws with
  | [] => []
  | (a, b) :: ws' => mkChunk (slice t a b) index a b None :: number t (S index) ws'
  end.

(** Modelled from the spec: [chunk(text, chunk_size, overlap)] of the
    Chunker contract (section 4.1); the Python chunker is missing from
    the sources.  Sizes are character counts. *)
Definition chunk (t : text) (chunk_size overlap : nat) : Error + list Chunk :=
  if chunk_size <=? overlap then inl ConfigError
  else inr (number t 0 (windows t chunk_size overlap (length t) 0)).

End Splitting.





(** The defaults the backend documents: CHUNK_SIZE and CHUNK_OVERLAP. *)
Definition CHUNK_SIZE : nat := 1000.
Definition CHUNK_OVERLAP : nat := 200.

End Chunker.

Module EmbeddingClient.

Definition text := list N.

Inductive TaskType := document | query | similarity | classification | clustering.

Inductive ErrorKind := auth | quota | invalid_input | transient.

Inductive Error := EmbeddingError (kind : ErrorKind).

(** The dimension the embedding service documents for
    [models/embedding-001]. *)
Definition dimension : nat := 768.

Section Client.

(** Components of a vector (floating-point numbers in the service). *)
Variable scalar : Type.
Definition vector := list scalar.

(** The remote provider: what its [n]-th call answers for a batch. *)
Variable provider : nat -> TaskType -> list text -> ErrorKind + list vector.

(** Provider-defined maximum batch size, and the bound on attempts. *)
Variable max_batch : nat.
Variable max_attempts : nat.

(** The kind of [EmbeddingError] reported for an answer that breaks the
    guarantee; the specification names none. *)
Variable malformed : ErrorKind.

(** Modelled from the spec: the guarantee of section 4.2, checked on the
    answer to one batch (the embedding service is missing from the
    sources): one vector for each text, each of the configured
    dimension. *)
Definition wellFormed (batch : list text) (vs : list vector) : bool :=
  (length vs =? length batch) && forallb (fun v => length v =? dimension) vs.

(** Modelled from the spec: one batch, retried while the provider
    answers [transient] and attempts remain (the embedding service is
    missing from the sources); an answer that breaks the guarantee is
    not passed on.  Returns the number of calls made. *)
Fixpoint callProvider (attempts calls : nat) (task : TaskType) (batch : list text)
  : nat * (Error + list vector) :=
  match provider calls task batch with
  | inr vs =>
      if wellFormed batch vs then (S calls, inr vs)
      else (S calls, inl (EmbeddingError malformed))
  | inl transient =>
      match attempts with
      | 0 => (S calls, inl (EmbeddingError transient))
      | S attempts' => callProvider attempts' (S calls) task batch
      end
  | inl kind => (S calls, inl (EmbeddingError kind))
  end.

(** Modelled from the spec: [embed(texts, task_type)] of the Embedding
    Client contract (section 4.2): the texts go out in consecutive
    batches of at most [max_batch], and the answers are concatenated in
    order.  [fuel] bounds the number of batches. *)
Fixpoint embedFrom (fuel calls : nat) (task : TaskType) (texts : list text)
  : Error + list vector :=
  match texts with
  | [] => inr []
  | _ :: _ =>
      match fuel with
      | 0 => inl (EmbeddingError invalid_input)
      | S fuel' =>
          let size := Nat.max 1 max_batch in
          match callProvider (max_attempts - 1) calls task (firstn size texts) with
          | (_, inl e) => inl e
          | (calls', inr vs) =>
              match embedFrom fuel' calls' task (skipn size texts) with
              | inl e => inl e
              | inr rest => inr (vs ++ rest)
              end
          end
      end
  end.

(** Modelled from the spec: [embed], with fuel for one batch per text
    (the embedding service is missing from the sources). *)
Definition embed (texts : list text) (task : TaskType) : Error + list vector :=
  embedFrom (length texts) 0 task texts.

(** Modelled from the spec: [embed_one(text, task_type)] (the embedding
    service is missing from the sources). *)
Definition embed_one (t : text) (task : TaskType) : Error + vector :=
  match embed [t] task with
  | inr [v] => inr v
  | inr _ => inl (EmbeddingError invalid_input)
  | inl e => inl e
  end.

End Client.

End EmbeddingClient.

(* ------------------------------------------------------------------------- *)
(** ** src/App.tsx: chat sessions *)
(* ------------------------------------------------------------------------- *)

Module Sessions.

(** [ChatSession] of src/types/index.ts. *)
Record ChatSession := mkChatSession {
  session_id : N;
  title : jsstring;
  created_at : jsstring;
  updated_at : jsstring
}.

(** What a [fetch] whose body is read as [A] does. *)
Inductive Reply (A : Type) :=
| Rejects (e : thrown)                 (* the promise of [fetch] rejects *)
| NotOk (http_status : N)              (* [response.ok] is false *)
| BodyFails (e : thrown)               (* [response.json()] rejects *)
| Ok (body : A).
Arguments Rejects {A} e.
Arguments NotOk {A} http_status.
Arguments BodyFails {A} e.
Arguments Ok {A} body.

(** The session state of [App], the dialogs it has shown, and the calls
    it has made on the chat component. *)
Record State := mkState {
  chatSessions : list ChatSession;
  activeSessionId : option N;
  currentSession : option ChatSession;
  clearChatFlag : nat;
  alerts : list jsstring;
  clearMessagesCalls : nat;
  errorsLogged : list thrown
}.

Definition setChatSessions (f : list ChatSession -> list ChatSession) (s : State) : State :=
  mkState (f (chatSessions s)) (activeSessionId s) (currentSession s)
          (clearChatFlag s) (alerts s) (clearMessagesCalls s) (errorsLogged s).

Definition setActiveSessionId (i : option N) (s : State) : State :=
  mkState (chatSessions s) i (currentSession s)
          (clearChatFlag s) (alerts s) (clearMessagesCalls s) (errorsLogged s).

Definition setCurrentSession (c : option ChatSession) (s : State) : State :=
  mkState (chatSessions s) (activeSessionId s) c
          (clearChatFlag s) (alerts s) (clearMessagesCalls s) (errorsLogged s).

Definition setClearChatFlag (f : nat -> nat) (s : State) : State :=
  mkState (chatSessions s) (activeSessionId s) (currentSession s)
          (f (clearChatFlag s)) (alerts s) (clearMessagesCalls s) (errorsLogged s).

Definition alert (m : jsstring) (s : State) : State :=
  mkState (chatSessions s) (activeSessionId s) (currentSession s)
          (clearChatFlag s) (alerts s ++ [m]) (clearMessagesCalls s) (errorsLogged s).

Definition clearMessages (s : State) : State :=
  mkState (chatSessions s) (activeSessionId s) (currentSession s)
          (clearChatFlag s) (alerts s) (S (clearMessagesCalls s)) (errorsLogged s).

Definition consoleError (e : thrown) (s : State) : State :=
  mkState (chatSessions s) (activeSessionId s) (currentSession s)
          (clearChatFlag s) (alerts s) (clearMessagesCalls s) (errorsLogged s ++ [e]).

(** [activeSessionId === sessionId] *)
Definition isActive (active : option N) (sessionId : N) : bool :=
  match active with
  | Some a => (a =? sessionId)%N
  | None => false
  end.

Local Open Scope eff_scope.

(** The reply as the [try] block meets it: a rejected [fetch] throws. *)
Definition await {A} (reply : Reply A) : eff State (Reply A) :=
  match reply with
  | Rejects e => throw e
  | r => ret r
  end.

(** [createNewSession], lines 92-112. *)
Definition createNewSession (reply : Reply ChatSession) : eff State unit :=
  tryCatch
    (r <- await reply ;;
     match r with
     | Ok newSession =>
         modify (setChatSessions (fun prev => newSession :: prev)) ;;;
         modify (setActiveSessionId (Some (session_id newSession)))
     | BodyFails e => throw e
     | _ => ret tt
     end)
    (fun e => modify (consoleError e)).

(** [deleteSession], lines 114-129; the body of the reply is not read. *)
Definition deleteSession (sessionId : N) (reply : Reply unit) : eff State unit :=
  tryCatch
    (r <- await reply ;;
     match r with
     | Ok _ | BodyFails _ =>
         modify (setChatSessions
                   (filter (fun session => negb (session_id session =? sessionId)%N))) ;;;
         active <- gets activeSessionId ;;
         if isActive active sessionId
         then modify (setActiveSessionId None)
         else ret tt
     | _ => ret tt
     end)
    (fun e => modify (consoleError e)).

(** [updateSessionTitle], lines 131-149. *)
Definition updateSessionTitle (sessionId : N) (newTitle : jsstring)
           (reply : Reply unit) : eff State unit :=
  tryCatch
    (r <- await reply ;;
     match r with
     | Ok _ | BodyFails _ =>
         modify (setChatSessions
                   (map (fun session =>
                           if (session_id session =? sessionId)%N
                           then mkChatSession (session_id session) newTitle
                                              (created_at session) (updated_at session)
                           else session)))
     | _ => ret tt
     end)
    (fun e => modify (consoleError e)).

(** [clearAllSessions], lines 151-186; [confirmed] is what the dialog
    answers, [mounted] whether [chatInterfaceRef.current] is set. *)
Definition clearAllSessions (confirmed mounted : bool) (reply : Reply unit)
  : eff State unit :=
  if negb confirmed then ret tt
  else
    tryCatch
      (r <- await reply ;;
       match r with
       | Ok _ | BodyFails _ =>
           modify (setChatSessions (fun _ => [])) ;;;
           modify (setActiveSessionId None) ;;;
           modify (setCurrentSession None) ;;;
           modify (setClearChatFlag S) ;;;
           (if mounted then modify clearMessages else ret tt) ;;;
           modify (alert (lit "All chat history cleared successfully!"))
       | _ => modify (alert (lit "Error clearing chat history"))
       end)
      (fun e => modify (consoleError e) ;;;
                modify (alert (lit "Error clearing chat history"))).

End Sessions.

(* ------------------------------------------------------------------------- *)
(** ** The chat history list (src/unnamed/part_004, [ChatHistory]) *)
(* ------------------------------------------------------------------------- *)

Module ChatHistory.

(** Editing state of the list, and the calls made on
    [onUpdateSessionTitle]. *)
Record State := mkState {
  editingSessionId : option N;
  editingTitle : jsstring;
  titleUpdates : list (N * jsstring)
}.

(** [editingSessionId && editingTitle.trim()]: the id that is edited, when
    it is neither [null] nor 0 and the title is not blank. *)
Definition savable (s : State) : option N :=
  match editingSessionId s with
  | Some i => if negb (i =? 0)%N && truthy (trim (editingTitle s))
              then Some i else None
  | None => None
  end.

Definition handleEditSave (s : State) : State :=
  match savable s with
  | Some i => mkState None [] (titleUpdates s ++ [(i, trim (editingTitle s))])
  | None => s
  end.

End ChatHistory.

(* ------------------------------------------------------------------------- *)
(** ** The search panel (src/unnamed/part_003, [SearchPanel]) *)
(* ------------------------------------------------------------------------- *)

Module SearchPanel.

(** [SearchResult] of src/types/index.ts. *)
Record SearchResult := mkSearchResult {
  result_id : jsstring;
  fileId : jsstring;
  fileName : jsstring;
  result_content : jsstring;
  score : Q;
  highlightedContent : jsstring
}.

Record State := mkState {
  searchQuery : jsstring;
  selectedFileTypes : list jsstring;
  isSearching : bool;
  searchResults : list SearchResult;
  waits : list N
}.

(** [a || b] on strings. *)
Definition orElse (a b : jsstring) : jsstring := if truthy a then a else b.

(** [files[i]?.id || d] *)
Definition idOr (files : list FileData) (i : nat) (d : jsstring) : jsstring :=
  match nth_error files i with
  | Some f => orElse (id f) d
  | None => d
  end.

Definition nameOr (files : list FileData) (i : nat) (d : jsstring) : jsstring :=
  match nth_error files i with
  | Some f => orElse (name f) d
  | None => d
  end.

(** [array.filter((_, index) => p(index))] *)
Fixpoint filterIndex {A} (p : nat -> bool) (index : nat) (l : list A) : list A :=
  match l with
  | [] => []
  | x :: l' => if p index then x :: filterIndex p (S index) l'
               else filterIndex p (S index) l'
  end.

Definition firstText (q : jsstring) : jsstring :=
  lit "..." ++ q ++
  lit " appears multiple times in this document with relevant context about the topic...".

Definition secondText (q : jsstring) : jsstring :=
  lit "This section mentions " ++ q ++
  lit " in relation to important findings and conclusions...".

(** Lines 34-51. *)
Definition mockResults (files : list FileData) (q : jsstring) : list SearchResult :=
  filterIndex (fun index => index <? length files) 0
    [ mkSearchResult (lit "1") (idOr files 0 (lit "1"))
                     (nameOr files 0 (lit "Sample Document.pdf"))
                     (firstText q) (95 # 100) (firstText q);
      mkSearchResult (lit "2") (idOr files 1 (lit "2"))
                     (nameOr files 1 (lit "Research Notes.txt"))
                     (secondText q) (87 # 100) (secondText q) ].

Definition setIsSearching (b : bool) (s : State) : State :=
  mkState (searchQuery s) (selectedFileTypes s) b (searchResults s) (waits s).

Definition setSearchResults (r : list SearchResult) (s : State) : State :=
  mkState (searchQuery s) (selectedFileTypes s) (isSearching s) r (waits s).

Definition wait (ms : N) (s : State) : State :=
  mkState (searchQuery s) (selectedFileTypes s) (isSearching s)
          (searchResults s) (waits s ++ [ms]).

(** [handleSearch], lines 25-55. *)
Definition handleSearch (files : list FileData) (s : State) : State :=
  if negb (truthy (trim (searchQuery s))) then s
  else setIsSearching false
         (setSearchResults (mockResults files (searchQuery s))
            (wait 1500 (setIsSearching true s))).

(** [toggleFileType], lines 63-69. *)
Definition toggleFileType (ty : jsstring) (s : State) : State :=
  mkState (searchQuery s)
          (if existsb (fun t => JS.eqb t ty) (selectedFileTypes s)
           then filter (fun t => negb (JS.eqb t ty)) (selectedFileTypes s)
           else selectedFileTypes s ++ [ty])
          (isSearching s) (searchResults s) (waits s).

End SearchPanel.

(* ------------------------------------------------------------------------- *)
(** ** src/components/FileManager.tsx *)
(* ------------------------------------------------------------------------- *)

Module FileManager.

Definition isType (t : FileType) (f : FileData) : bool :=
  match t, type f with
  | pdf, pdf | image, image | text, text | audio, audio | video, video => true
  | _, _ => false
  end.

(** [files.filter(f => f.type === t).length] *)
Definition countType (t : FileType) (files : list FileData) : nat :=
  length (filter (isType t) files).

(** The counts of [fileTypes], lines 52-59: all, pdf, image, audio,
    video, text. *)
Definition fileTypes (files : list FileData) : list nat :=
  [ length files; countType pdf files; countType image files;
    countType audio files; countType video files; countType text files ].

(** The counts of [fileStats], lines 61-66: documents, images, audio,
    video. *)
Definition fileStats (files : list FileData) : list nat :=
  [ length (filter (fun f => isType pdf f || isType text f) files);
    countType image files; countType audio files; countType video files ].

End FileManager.

(* ------------------------------------------------------------------------- *)
(** ** src/components/LogViewer.tsx *)
(* ------------------------------------------------------------------------- *)

Module LogViewer.

Record LogEntry := mkLogEntry {
  log_timestamp : jsstring;
  level : jsstring;
  message : jsstring;
  logger : jsstring
}.

(** A GET of a log file: the file and the entries given to
    [URLSearchParams], before their encoding. *)
Record LogRequest := mkLogRequest {
  logFile : jsstring;
  params : list (jsstring * jsstring)
}.

(** [lines] is a JavaScript number, a double: 100 at first, then
    whatever [parseInt(e.target.value) || 100] gives. *)
Record State := mkState {
  logFiles : list jsstring;
  selectedLogFile : jsstring;
  logs : list LogEntry;
  loading : bool;
  lines : PrimFloat.float;
  levelFilter : jsstring;
  startTime : jsstring;
  endTime : jsstring;
  logRequests : list LogRequest;
  errorsLogged : list thrown
}.

Definition setLogs (l : list LogEntry) (s : State) : State :=
  mkState (logFiles s) (selectedLogFile s) l (loading s) (lines s)
          (levelFilter s) (startTime s) (endTime s) (logRequests s) (errorsLogged s).

Definition setLoading (b : bool) (s : State) : State :=
  mkState (logFiles s) (selectedLogFile s) (logs s) b (lines s)
          (levelFilter s) (startTime s) (endTime s) (logRequests s) (errorsLogged s).

Definition setLogFiles (l : list jsstring) (s : State) : State :=
  mkState l (selectedLogFile s) (logs s) (loading s) (lines s)
          (levelFilter s) (startTime s) (endTime s) (logRequests s) (errorsLogged s).

Definition setSelectedLogFile (f : jsstring) (s : State) : State :=
  mkState (logFiles s) f (logs s) (loading s) (lines s)
          (levelFilter s) (startTime s) (endTime s) (logRequests s) (errorsLogged s).

Definition logRequest (r : LogRequest) (s : State) : State :=
  mkState (logFiles s) (selectedLogFile s) (logs s) (loading s) (lines s)
          (levelFilter s) (startTime s) (endTime s) (logRequests s ++ [r]) (errorsLogged s).

Definition consoleError (e : thrown) (s : State) : State :=
  mkState (logFiles s) (selectedLogFile s) (logs s) (loading s) (lines s)
          (levelFilter s) (startTime s) (endTime s) (logRequests s) (errorsLogged s ++ [e]).

(** [...(value && { key: value })] *)
Definition entryIf (key value : jsstring) : list (jsstring * jsstring) :=
  if truthy value then [(key, value)] else [].

Local Open Scope eff_scope.

Section Rendering.

(** [Number.prototype.toString]: the text of a double (plain digits,
    a sign, exponent notation from 1e21 on, [Infinity]).  Its digits
    are left open here. *)
Variable toString : PrimFloat.float -> jsstring.

(** Lines 86-91. *)
Definition logParams (s : State) : list (jsstring * jsstring) :=
  [(lit "lines", toString (lines s))]
    ++ entryIf (lit "level") (levelFilter s)
    ++ entryIf (lit "start_time") (startTime s)
    ++ entryIf (lit "end_time") (endTime s).

(** [fetchLogs], lines 81-103. *)
Definition fetchLogs (reply : Sessions.Reply (list LogEntry)) : eff State unit :=
  fun s =>
    if negb (truthy (selectedLogFile s)) then (s, Returns tt)
    else
      (modify (setLoading true) ;;;
       tryFinally
         (tryCatch
            (modify (logRequest (mkLogRequest (selectedLogFile s) (logParams s))) ;;;
             match reply with
             | Sessions.Rejects e => throw e
             | Sessions.NotOk _ => ret tt
             | Sessions.BodyFails e => throw e
             | Sessions.Ok entries => modify (setLogs entries)
             end)
            (fun e => modify (consoleError e)))
         (modify (setLoading false))) s.

End Rendering.

(** [fetchLogFiles], lines 66-79: the first file is selected when none
    is. *)
Definition fetchLogFiles (reply : Sessions.Reply (list jsstring)) : eff State unit :=
  fun s =>
    tryCatch
      (match reply with
       | Sessions.Rejects e => throw e
       | Sessions.NotOk _ => ret tt
       | Sessions.BodyFails e => throw e
       | Sessions.Ok files =>
           modify (setLogFiles files) ;;;
           match files with
           | first :: _ =>
               if negb (truthy (selectedLogFile s))
               then modify (setSelectedLogFile first)
               else ret tt
           | [] => ret tt
           end
       end)
      (fun e => modify (consoleError e)) s.

End LogViewer.

(* ------------------------------------------------------------------------- *)
(** ** Vocabulary of the statements *)
(* ------------------------------------------------------------------------- *)

(** The input of the chat box is empty or made of white space only. *)
Definition whitespaceOnly (s : jsstring) : Prop :=
  Forall (fun c => isWhiteSpace c = true) s.

(** The value the [try] block of [sendMessageToBackend] throws for a reply
    of the backend, if it throws. *)
Definition thrownBy (reply : ChatInterface.FetchOutcome) : option thrown :=
  match reply with
  | ChatInterface.FetchRejects e => Some e
  | ChatInterface.HttpError st => Some (ErrorObject (ChatInterface.httpErrorMessage st))
  | ChatInterface.BodyRejects e => Some e
  | ChatInterface.HttpOk _ => None
  end.

(** [d] is what the request names for the selected [fileId]: the name of
    the file with that id, or the id itself when no file has it. *)
Definition namesSelected (files : list FileData) (fileId d : jsstring) : Prop :=
  (exists f, In f files /\ id f = fileId /\ name f = d) \/
  (d = fileId /\ forall f, In f files -> id f <> fileId).

(** Sample inputs. *)
Module Sample.

Definition en : ChatInterface.Entropy :=
  ChatInterface.mkEntropy (lit "u1") 1000 (lit "t1") 1001 (lit "r1") 1002.

Definition report : FileData :=
  mkFileData (lit "f1") (lit "report.pdf") pdf 2048 0 None ready (Some (inject_Z 1)) None.

Definition idle : ChatInterface.State :=
  ChatInterface.mkState [] (lit "What is in the report?") false [] all None 0 [].

Definition blank : ChatInterface.State :=
  ChatInterface.mkState [] (lit "   ") false [] all None 0 [].

(** The reply of a fetch that rejects with the HNSW failure text. *)
Definition hnswFailure : ChatInterface.FetchOutcome :=
  ChatInterface.FetchRejects
    (ErrorObject (lit "Cannot return the results in a contigious 2D array. Probably ef or M is too small")).

Definition answer : ChatInterface.FetchOutcome :=
  ChatInterface.HttpOk (ChatInterface.mkChatResult (lit "It is a budget.") None None (Some 7%N)).

(** The report selected and the scope restricted to the selection. *)
Definition focused : ChatInterface.State :=
  ChatInterface.setSearchScope selected
    (ChatInterface.toggleFileSelection (lit "f1") idle).

End Sample.

(** The order of the lifecycle: uploading, then processing, then one of the
    two final statuses. *)
Definition rank (st : FileStatus) : nat :=
  match st with
  | uploading => 0
  | processing => 1
  | ready => 2
  | error => 2
  end.

Definition sameStatus (a b : FileStatus) : bool :=
  match a, b with
  | uploading, uploading | processing, processing
  | ready, ready | error, error => true
  | _, _ => false
  end.

(** A status may stay what it is or move up in the order; in particular
    nothing but [ready] follows [ready]. *)
Definition forwardStep (a b : FileStatus) : bool :=
  sameStatus a b || (rank a <? rank b).

(** A sequence of statuses taken one after the other, starting from [a]. *)
Fixpoint forwardFrom (a : FileStatus) (l : list FileStatus) : bool :=
  match l with
  | [] => true
  | b :: l' => forwardStep a b && forwardFrom b l'
  end.

(** The lifecycle read as a rule on the file lists: whatever a list showed
    for a file, it shows a status that is not behind it afterwards. *)
Definition lifecycleRespected (before after : list FileData) : Prop :=
  forall fileId a b,
    FileUpload.statusOf fileId before = Some a ->
    FileUpload.statusOf fileId after = Some b ->
    forwardStep a b = true.

(** A run of an upload handler: the calls it adds to the log keep the
    statuses moving forward from [a], and [Q] holds of its outcome and of
    the last status written. *)
Definition steps {A} (m : eff FileUpload.World A) (a : FileStatus)
           (Q : outcome A -> FileStatus -> Prop) : Prop :=
  forall w, exists new,
    FileUpload.calls (fst (m w)) = FileUpload.calls w ++ new /\
    forwardFrom a (FileUpload.writtenStatuses new) = true /\
    Q (snd (m w)) (last (FileUpload.writtenStatuses new) a).

(** Number of calls of a kind in a piece of log. *)
Definition count (p : FileUpload.Call -> bool) (l : list FileUpload.Call) : nat :=
  length (filter p l).

Definition isPoll (c : FileUpload.Call) : bool :=
  match c with FileUpload.GetFile _ => true | _ => false end.

(** A run adds at most [n] calls of the kind [p] to the log. *)
Definition costs (p : FileUpload.Call -> bool) {A} (m : eff FileUpload.World A)
           (n : nat) : Prop :=
  forall w, exists new,
    FileUpload.calls (fst (m w)) = FileUpload.calls w ++ new /\
    count p new <= n.

(** The reply to a poll does not report the record as ready. *)
Definition notReady (o : FileUpload.PollOutcome) : Prop :=
  match o with
  | FileUpload.PollOk record_status _ => JS.eqb record_status (lit "ready") = false
  | _ => True
  end.

Module UploadSample.

Import FileUpload.

(** A file as [handleFiles] registers it, under a client-made id. *)
Definition picked : FileData :=
  newFileData (lit "k3x9q0a1z") (lit "notes.txt") text 512 1700000000000.

Definition start : World := mkWorld [] [picked] [].

(** The backend stores the upload under its own id and keeps reporting
    the record as processing. *)
Definition neverReady : Backend :=
  mkBackend (UploadOk (lit "b7e2"))
            (fun _ => None)
            (fun _ => PollOk (lit "processing") []).

(** The backend reports the record ready at the third poll. *)
Definition readyAtThird : Backend :=
  mkBackend (UploadOk (lit "b7e2"))
            (fun _ => None)
            (fun n => if n =? 2 then PollOk (lit "ready") []
                      else PollOk (lit "processing") []).

(** The backend reports the record as failed from the first poll on. *)
Definition failed : Backend :=
  mkBackend (UploadOk (lit "b7e2"))
            (fun _ => None)
            (fun _ => PollOk (lit "error") (lit "Unsupported file")).

(** The main list already shows the report as ready, and the backend
    files the new upload under the id of that report. *)
Definition listed : World := mkWorld [Sample.report] [picked] [].

Definition sameId : Backend :=
  mkBackend (UploadOk (lit "f1"))
            (fun _ => None)
            (fun _ => PollOk (lit "processing") []).

End UploadSample.

Module ChunkSample.


End ChunkSample.


Module EmbedSample.

Import EmbeddingClient.



Definition texts : list text := [lit "alpha"; lit "be"; lit "gamma"].

(** A provider that answers every batch with one vector of three
    components, whatever the batch. *)
Definition careless (n : nat) (task : TaskType) (batch : list text)
  : ErrorKind + list (list nat) :=
  inr [[1; 2; 3]].

End EmbedSample.

(* ------------------------------------------------------------------------- *)
(** ** Vocabulary of the further properties *)
(* ------------------------------------------------------------------------- *)

(** A run of an upload handler adds the calls [new] to the log, and [P]
    holds of its outcome and of [new]. *)
Definition run {A} (m : eff FileUpload.World A)
           (P : outcome A -> list FileUpload.Call -> Prop) : Prop :=
  forall w, exists new,
    FileUpload.calls (fst (m w)) = FileUpload.calls w ++ new /\
    P (snd (m w)) new.

(** A run takes a world to one that [R] relates to it. *)
Definition keeps {A} (m : eff FileUpload.World A)
           (R : FileUpload.World -> FileUpload.World -> Prop) : Prop :=
  forall w, R w (fst (m w)).

(** The five-second wait of the polling loop. *)
Definition isLongWait (c : FileUpload.Call) : bool :=
  match c with FileUpload.Wait 5000 => true | _ => false end.

(** A call that writes the [error] status. *)
Definition writesError (c : FileUpload.Call) : bool :=
  match FileUpload.writtenStatus c with Some error => true | _ => false end.

(** Polls, five-second waits, files handed to the main list and error
    writes in a piece of log. *)
Definition tally (l : list FileUpload.Call) : nat * nat * nat * nat :=
  (count isPoll l, count isLongWait l,
   count FileUpload.isFileUploadCall l, count writesError l).

Definition tallyPlus (a b : nat * nat * nat * nat) : nat * nat * nat * nat :=
  match a, b with
  | (a1, a2, a3, a4), (b1, b2, b3, b4) => (a1 + b1, a2 + b2, a3 + b3, a4 + b4)
  end.

(** No PUT of the run rejects. *)
Definition neverRejects (be : FileUpload.Backend) : Prop :=
  forall n, FileUpload.putRejects be n = None.

(** The reply to a poll reports the record as ready. *)
Definition isReady (o : FileUpload.PollOutcome) : Prop :=
  match o with
  | FileUpload.PollOk record_status _ => JS.eqb record_status (lit "ready") = true
  | _ => False
  end.

Definition timedOut : thrown := ErrorObject (lit "Processing timed out").

(** What the [catch] block of the upload handler does to the outside. *)
Definition catchCalls (fileData : FileData) (e : thrown) : list FileUpload.Call :=
  [ FileUpload.ConsoleError e;
    FileUpload.OnFileUpdate (id fileData) (FileUpload.statusUpdate error);
    FileUpload.SetUploadingFiles (id fileData) (FileUpload.statusUpdate error);
    FileUpload.PutStatus (id fileData) error (inject_Z 0)
      (Some (match e with
             | ErrorObject m => m
             | OtherValue _ => lit "Unknown error"
             end)) ].

(** The value the upload step throws, when it fails. *)
Definition uploadThrows (be : FileUpload.Backend) : option thrown :=
  match FileUpload.upload be with
  | FileUpload.UploadRejects e => Some e
  | FileUpload.UploadHttpError st =>
      Some (ErrorObject (lit "Upload failed: " ++ ofNumber st))
  | FileUpload.UploadBodyRejects e => Some e
  | FileUpload.UploadOk _ => None
  end.

(** The entry the handler works on after the upload: the picked file under
    the id of the backend. *)
Definition renamed (fileData : FileData) (resultId : jsstring) : FileData :=
  spread fileData (mkPartial (Some resultId) None None None None None None None None).

(** No entry of the upload list under the id [i] shows [error]. *)
Definition noErrorUnder (i : jsstring) (w : FileUpload.World) : Prop :=
  Forall (fun f => id f = i -> status f <> error) (FileUpload.uploadingFiles w).

(** The main list only grew at its end, and the upload list kept its
    length. *)
Definition listsKept (w w' : FileUpload.World) : Prop :=
  (exists added,
      map id (FileUpload.files w') = map id (FileUpload.files w) ++ added) /\
  length (FileUpload.uploadingFiles w') = length (FileUpload.uploadingFiles w).

(** The updates of the upload list one run can make, for a picked file and
    the id [r] the backend gave it. *)
Definition handlerLocal (r : jsstring) (fileData : FileData)
           (i : jsstring) (u : PartialFileData) : Prop :=
  (i = id fileData /\ p_id u = Some r /\
   exists st, p_status u = Some st /\ st <> error) \/
  (i = r /\ p_id u = None /\ p_status u <> Some error) \/
  (i = id fileData /\ p_id u = None).

(** A call that changes one of the two lists. *)
Definition touchesLists (c : FileUpload.Call) : bool :=
  match c with
  | FileUpload.OnFileUpdate _ _ | FileUpload.OnFileUpload _
  | FileUpload.SetUploadingFiles _ _ => true
  | _ => false
  end.

(** The main list after the calls [l], replayed on [fs]. *)
Definition replayFiles (l : list FileUpload.Call) (fs : list FileData) : list FileData :=
  fold_left (fun acc c =>
               match c with
               | FileUpload.OnFileUpdate i u => App.handleFileUpdate i u acc
               | FileUpload.OnFileUpload nf => App.handleFileUpload nf acc
               | _ => acc
               end) l fs.

(** The upload list after the calls [l], replayed on [us]. *)
Definition replayUploading (l : list FileUpload.Call) (us : list FileData)
  : list FileData :=
  fold_left (fun acc c =>
               match c with
               | FileUpload.SetUploadingFiles i u =>
                   map (fun f => if JS.eqb (id f) i then spread f u else f) acc
               | _ => acc
               end) l us.

(** An update of the main list that leaves the ids alone. *)
Definition keepsIds (c : FileUpload.Call) : bool :=
  match c with
  | FileUpload.OnFileUpdate _ u => match p_id u with None => true | Some _ => false end
  | _ => true
  end.

(** The ids a call appends to the main list. *)
Definition uploadedIds (c : FileUpload.Call) : list jsstring :=
  match c with
  | FileUpload.OnFileUpload nf => map id nf
  | _ => []
  end.

(** The lists of [w'] are those of [w] after the calls made in between,
    none of which renames an entry of the main list. *)
Definition replayed (w w' : FileUpload.World) : Prop :=
  exists new,
    FileUpload.calls w' = FileUpload.calls w ++ new /\
    FileUpload.files w' = replayFiles new (FileUpload.files w) /\
    FileUpload.uploadingFiles w' = replayUploading new (FileUpload.uploadingFiles w) /\
    forallb keepsIds new = true.

(** What the handler does on the poll that answers ready, after the
    poll. *)
Definition readyTail (u : FileData) : list FileUpload.Call :=
  [ FileUpload.OnFileUpdate (id u) (FileUpload.statusUpdate ready);
    FileUpload.SetUploadingFiles (id u)
      (FileUpload.statusProgressUpdate ready (inject_Z 100));
    FileUpload.OnFileUpload [u];
    FileUpload.LoadFilesFromDatabase ].

Module UploadSample2.

Import FileUpload.

(** A backend whose every PUT rejects. *)
Definition offline : Backend :=
mkBackend (UploadOk (lit "b7e2"))
          (fun _ => Some (ErrorObject (lit "Failed to fetch")))
          (fun _ => PollOk (lit "processing") []).

(** A backend that files the upload under the id of the report and finds
  it ready at the first poll. *)
Definition promptSameId : Backend :=
mkBackend (UploadOk (lit "f1")) (fun _ => None)
          (fun _ => PollOk (lit "ready") []).

(** A backend that refuses the upload. *)
Definition refusing : Backend :=
mkBackend (UploadHttpError 413) (fun _ => None)
          (fun _ => PollOk (lit "processing") []).

End UploadSample2.

(** The text [p] occurs in the text [s]. *)
Definition contains (s p : jsstring) : Prop :=
  exists pre post, s = pre ++ p ++ post.

(** What one click on an entry does to a list of selected names: the name
    is taken out when it is there, and put at the end when it is not. *)
Definition toggled (i : jsstring) (l : list jsstring) : list jsstring :=
  if existsb (fun x => JS.eqb x i) l
  then filter (fun x => negb (JS.eqb x i)) l
  else l ++ [i].

(** The session that is shown as active is one of the listed ones. *)
Definition activeListed (s : Sessions.State) : Prop :=
  match Sessions.activeSessionId s with
  | Some a => In a (map Sessions.session_id (Sessions.chatSessions s))
  | None => True
  end.

(** [response.ok] of a reply. *)
Definition responseOk {A} (reply : Sessions.Reply A) : bool :=
  match reply with
  | Sessions.Ok _ | Sessions.BodyFails _ => true
  | _ => false
  end.

(** A string with no white space at either end. *)
Definition trimmed (s : jsstring) : Prop :=
  match s with
  | [] => True
  | c :: _ => isWhiteSpace c = false /\ isWhiteSpace (last s c) = false
  end.

(** The updates of the main list that [onFileUpdate] is called with, one
    after the other. *)
Definition applyUpdates (updates : list (jsstring * PartialFileData))
           (l : list FileData) : list FileData :=
  fold_left (fun acc ju => App.handleFileUpdate (fst ju) (snd ju) acc) updates l.

Definition sum (l : list nat) : nat := fold_right Nat.add 0 l.

Module SessionSample.

Import Sessions.

Definition monday : ChatSession :=
mkChatSession 4 (lit "Budget") (lit "2024-01-01T09:00:00") (lit "2024-01-01T09:30:00").

Definition tuesday : ChatSession :=
mkChatSession 9 (lit "Minutes") (lit "2024-01-02T09:00:00") (lit "2024-01-02T09:30:00").

Definition wednesday : ChatSession :=
mkChatSession 12 (lit "New Chat 10:15:00") (lit "2024-01-03T10:15:00")
              (lit "2024-01-03T10:15:00").

(** Two sessions listed, the second one open. *)
Definition open : State :=
mkState [monday; tuesday] (Some 9%N) (Some tuesday) 0 [] 0 [].

End SessionSample.

Module PanelSample.

Definition searching : SearchPanel.State :=
SearchPanel.mkState (lit "budget") [] false [] [].

End PanelSample.

(* ------------------------------------------------------------------------- *)
(** ** JavaScript strings *)
(* ------------------------------------------------------------------------- *)

Lemma eqb_eq (a b : jsstring) : JS.eqb a b = true <-> a = b.
Proof.
  revert b; induction a as [|x a IH]; intros [|y b]; simpl; split;
    try discriminate; try reflexivity.
  - intros H. apply andb_true_iff in H. destruct H as [Hx Hab].
    apply N.eqb_eq in Hx. apply IH in Hab. congruence.
  - intros H. injection H as -> ->. apply andb_true_iff; split.
    + apply N.eqb_refl.
    + apply IH. reflexivity.
Qed.

Lemma eqb_refl (a : jsstring) : JS.eqb a a = true.
Proof. apply eqb_eq. reflexivity. Qed.

Lemma trimStart_nil_iff (s : jsstring) :
  trimStart s = [] <-> forallb isWhiteSpace s = true.
Proof.
  induction s as [|c s IH]; simpl.
  - split; reflexivity.
  - destruct (isWhiteSpace c); simpl.
    + exact IH.
    + split; discriminate.
Qed.

Lemma trimStart_head (s : jsstring) c r :
  trimStart s = c :: r -> isWhiteSpace c = false.
Proof.
  induction s as [|x s IH]; simpl; [discriminate|].
  destruct (isWhiteSpace x) eqn:E.
  - exact IH.
  - intros H. injection H as <- _. exact E.
Qed.

Lemma forallb_rev {A} (f : A -> bool) (l : list A) :
  forallb f (rev l) = forallb f l.
Proof.
  induction l as [|x l IH]; simpl; [reflexivity|].
  rewrite forallb_app, IH. simpl. rewrite andb_true_r. apply andb_comm.
Qed.

(** [s.trim()] is the empty string exactly for strings of white space. *)
Lemma trim_nil_iff (s : jsstring) :
  trim s = [] <-> forallb isWhiteSpace s = true.
Proof.
  unfold trim, trimEnd. split.
  - intros H.
    assert (H1 : trimStart (rev (trimStart s)) = []).
    { destruct (trimStart (rev (trimStart s))) as [|c l]; [reflexivity|].
      simpl in H. destruct (rev l); discriminate. }
    apply trimStart_nil_iff in H1. rewrite forallb_rev in H1.
    destruct (trimStart s) as [|c r] eqn:E.
    + apply trimStart_nil_iff. exact E.
    + apply trimStart_head in E. simpl in H1. rewrite E in H1. discriminate.
  - intros H. apply trimStart_nil_iff in H. rewrite H. reflexivity.
Qed.

Lemma whitespaceOnly_forallb (s : jsstring) :
  whitespaceOnly s <-> forallb isWhiteSpace s = true.
Proof.
  unfold whitespaceOnly. rewrite forallb_forall, Forall_forall. reflexivity.
Qed.

(* ------------------------------------------------------------------------- *)
(** ** The chat component *)
(* ------------------------------------------------------------------------- *)

(** The guard of line 281, read off its three disjuncts. *)
Lemma sendBlocked_iff files s :
  ChatInterface.sendBlocked files s = true <->
  whitespaceOnly (ChatInterface.inputValue s) \/
  ChatInterface.isLoading s = true \/ files = [].
Proof.
  unfold ChatInterface.sendBlocked.
  rewrite !orb_true_iff, whitespaceOnly_forallb, <- trim_nil_iff.
  assert (Hl : (length files =? 0) = true <-> files = []).
  { rewrite Nat.eqb_eq. destruct files; simpl; split; congruence. }
  assert (Ht : negb (truthy (trim (ChatInterface.inputValue s))) = true <->
               trim (ChatInterface.inputValue s) = []).
  { destruct (trim (ChatInterface.inputValue s)); simpl; split; congruence. }
  rewrite Hl, Ht. tauto.
Qed.

(** C10.  Sending is a guarded no-op: when the input is empty or white
    space only, or a request is still loading, or no file is uploaded,
    [handleSendMessage] returns normally and leaves the whole chat state as
    it was: no message appended, the input kept, no request issued. *)
Theorem handleSendMessage_guarded_noop :
  forall (files : list FileData) (en : ChatInterface.Entropy)
         (reply : ChatInterface.FetchOutcome) (s : ChatInterface.State),
    whitespaceOnly (ChatInterface.inputValue s) \/
    ChatInterface.isLoading s = true \/ files = [] ->
    ChatInterface.handleSendMessage files en reply s = (s, Returns tt).
Proof.
  intros files en reply s H. apply sendBlocked_iff in H.
  unfold ChatInterface.handleSendMessage. rewrite H. reflexivity.
Qed.

Lemma handleSendMessage_guarded_noop_witness :
  whitespaceOnly (ChatInterface.inputValue Sample.blank) /\
  ChatInterface.handleSendMessage [Sample.report] Sample.en Sample.answer Sample.blank
  = (Sample.blank, Returns tt).
Proof.
  split.
  - repeat constructor.
  - apply handleSendMessage_guarded_noop. left. repeat constructor.
Defined.

Lemma filter_notTyping_typing (l : list ChatMessage) (en : ChatInterface.Entropy) :
  filter ChatInterface.notTyping (l ++ [ChatInterface.typingMessage en])
  = filter ChatInterface.notTyping l.
Proof. rewrite filter_app. simpl. apply app_nil_r. Qed.

Lemma filter_notTyping_idem (l : list ChatMessage) :
  filter ChatInterface.notTyping (filter ChatInterface.notTyping l)
  = filter ChatInterface.notTyping l.
Proof.
  induction l as [|m l IH]; simpl; [reflexivity|].
  destruct (ChatInterface.notTyping m) eqn:E; simpl; rewrite ?E, IH; reflexivity.
Qed.

(** Whatever the backend does, [sendMessageToBackend] returns normally,
    ends with [isLoading] false, has issued exactly one request, and has
    replaced every typing indicator by one assistant message. *)
Lemma sendMessageToBackend_never_throws :
  forall files en userMessage reply s,
  exists m,
    ChatInterface.sendMessageToBackend files en userMessage reply s =
      (ChatInterface.mkState
         (filter ChatInterface.notTyping (ChatInterface.messages s) ++ [m])
         (ChatInterface.inputValue s) false (ChatInterface.selectedFiles s)
         (ChatInterface.searchScope s)
         (match reply with
          | ChatInterface.HttpOk r =>
              if ChatInterface.isNewSession (ChatInterface.res_session_id r)
                                            (ChatInterface.activeSessionId s)
              then ChatInterface.res_session_id r
              else ChatInterface.activeSessionId s
          | _ => ChatInterface.activeSessionId s
          end)
         (match reply with
          | ChatInterface.HttpOk r =>
              if ChatInterface.isNewSession (ChatInterface.res_session_id r)
                                            (ChatInterface.activeSessionId s)
              then S (ChatInterface.sessionUpdates s)
              else ChatInterface.sessionUpdates s
          | _ => ChatInterface.sessionUpdates s
          end)
         (ChatInterface.requests s ++
            [ChatInterface.mkChatRequest userMessage (ChatInterface.documentIds files s)]),
       Returns tt)
    /\ msg_type m = assistant /\ isTyping m = None
    /\ match thrownBy reply with
       | Some e => m = ChatInterface.errorMessageObj en e
       | None => True
       end.
Proof.
  intros files en userMessage reply s.
  destruct s as [msgs inp load sel sc act upd reqs].
  destruct reply as [e | st | e | r];
    unfold ChatInterface.sendMessageToBackend, ChatInterface.sendBody,
      ChatInterface.sendCatch, tryFinally, tryCatch, bind, modify, gets, ret, throw;
    cbn [fst snd thrownBy ChatInterface.setIsLoading ChatInterface.setMessages
           ChatInterface.logRequest ChatInterface.messages ChatInterface.inputValue
           ChatInterface.isLoading ChatInterface.selectedFiles
           ChatInterface.searchScope ChatInterface.activeSessionId
           ChatInterface.sessionUpdates ChatInterface.requests];
    unfold ChatInterface.setIsLoading, ChatInterface.setMessages,
      ChatInterface.logRequest;
    cbn [ChatInterface.messages ChatInterface.inputValue
           ChatInterface.isLoading ChatInterface.selectedFiles
           ChatInterface.searchScope ChatInterface.activeSessionId
           ChatInterface.sessionUpdates ChatInterface.requests];
    [ | | | destruct (ChatInterface.isNewSession (ChatInterface.res_session_id r) act);
            unfold ChatInterface.setActiveSessionId, ChatInterface.onSessionUpdate;
            cbn [fst snd ChatInterface.messages ChatInterface.inputValue
                   ChatInterface.isLoading ChatInterface.selectedFiles
                   ChatInterface.searchScope ChatInterface.activeSessionId
                   ChatInterface.sessionUpdates ChatInterface.requests] ];
    rewrite filter_notTyping_typing;
    eexists; (split; [reflexivity | repeat split]).
Qed.

(** The digits of a rendered number. *)
Lemma ofNumber_digits (n : N) :
  Forall (fun c => (48 <= c <= 57)%N) (ofNumber n).
Proof.
  unfold ofNumber, lit. generalize (N.to_uint n). intros d.
  induction d; cbn; constructor; try exact IHd; cbv; split; discriminate.
Qed.

Lemma startsWith_head s c p : startsWith s (c :: p) = true -> hd_error s = Some c.
Proof.
  destruct s as [|x s]; simpl; [discriminate|].
  intros H. apply andb_true_iff in H. destruct H as [H _].
  apply N.eqb_eq in H. congruence.
Qed.

Lemma includes_head s c p : includes s (c :: p) = true -> In c s.
Proof.
  induction s as [|x s IH]; intros H.
  - simpl in H. discriminate.
  - change (startsWith (x :: s) (c :: p) || includes s (c :: p) = true) in H.
    apply orb_true_iff in H. destruct H as [H|H].
    + apply startsWith_head in H. injection H as ->. left. reflexivity.
    + right. apply IH. exact H.
Qed.

(** The error thrown for a response that is not OK carries the status code
    only, so such a response is always answered with the generic notice,
    whatever its body says. *)
Lemma http_error_shows_generic_notice (http_status : N) :
  ChatInterface.displayMessage
    (ErrorObject (ChatInterface.httpErrorMessage http_status))
  = ChatInterface.genericNotice.
Proof.
  unfold ChatInterface.displayMessage, ChatInterface.isHnswError.
  cbn [ChatInterface.errorMessage].
  assert (Hno : forall c p, (c = 67 \/ c = 105)%N ->
            includes (ChatInterface.httpErrorMessage http_status) (c :: p) = false).
  { intros c p Hc.
    destruct (includes (ChatInterface.httpErrorMessage http_status) (c :: p)) eqn:E;
      [|reflexivity].
    apply includes_head in E. unfold ChatInterface.httpErrorMessage in E.
    apply in_app_or in E. destruct E as [E|E].
    - vm_compute in E. destruct Hc as [-> | ->];
        repeat (destruct E as [E|E]; [discriminate E|]); destruct E.
    - pose proof (ofNumber_digits http_status) as Hd.
      rewrite Forall_forall in Hd. apply Hd in E. lia. }
  assert (H1 : ChatInterface.hnswMarker1 = 67%N :: tl ChatInterface.hnswMarker1)
    by reflexivity.
  assert (H2 : ChatInterface.hnswMarker2 = 105%N :: tl ChatInterface.hnswMarker2)
    by reflexivity.
  rewrite H1, H2, (Hno 67%N), (Hno 105%N) by auto. reflexivity.
Qed.

Lemma documentIds_request files en userMessage reply s :
  ChatInterface.requests
    (fst (ChatInterface.sendMessageToBackend files en userMessage reply s))
  = ChatInterface.requests s ++
      [ChatInterface.mkChatRequest userMessage (ChatInterface.documentIds files s)].
Proof.
  destruct (sendMessageToBackend_never_throws files en userMessage reply s)
    as [m [Hrun _]].
  rewrite Hrun. reflexivity.
Qed.

Lemma find_namesSelected files fileId :
  namesSelected files fileId
    match find (fun f => JS.eqb (id f) fileId) files with
    | Some file => name file
    | None => fileId
    end.
Proof.
  destruct (find (fun f => JS.eqb (id f) fileId) files) as [file|] eqn:E.
  - apply find_some in E. destruct E as [Hin Heq]. apply eqb_eq in Heq.
    left. exists file. auto.
  - right. split; [reflexivity|]. intros f Hin Heq.
    apply (find_none _ _ E) in Hin. cbv beta in Hin.
    rewrite Heq, eqb_refl in Hin. discriminate.
Qed.

(** The document filter of a request.  The client filters only under the
    'selected' scope with at least one file selected: the request then
    names, in the order of the selection, the file of every selected id
    (the id itself when no file has it), and nothing else.  Under the 'all'
    scope or with an empty selection the request carries no filter, and an
    empty filter is never sent. *)
Theorem documentIds_names_the_selection :
  forall (files : list FileData) (s : ChatInterface.State),
    (ChatInterface.searchScope s = selected ->
     ChatInterface.selectedFiles s <> [] ->
     exists ids,
       ChatInterface.documentIds files s = Some ids /\ ids <> [] /\
       Forall2 (namesSelected files) (ChatInterface.selectedFiles s) ids) /\
    (ChatInterface.searchScope s = all \/ ChatInterface.selectedFiles s = [] ->
     ChatInterface.documentIds files s = None) /\
    ChatInterface.documentIds files s <> Some [] /\
    (forall en userMessage reply,
       ChatInterface.requests
         (fst (ChatInterface.sendMessageToBackend files en userMessage reply s))
       = ChatInterface.requests s ++
           [ChatInterface.mkChatRequest userMessage (ChatInterface.documentIds files s)]).
Proof.
  intros files s.
  split; [|split; [|split]].
  - intros Hscope Hsel. unfold ChatInterface.documentIds. rewrite Hscope.
    destruct (ChatInterface.selectedFiles s) as [|x sel]; [congruence|].
    eexists. split; [reflexivity|]. split; [discriminate|].
    generalize (x :: sel). clear.
    induction l as [|y l IH]; simpl; constructor;
      [apply find_namesSelected | exact IH].
  - unfold ChatInterface.documentIds. intros [H|H]; rewrite H.
    + reflexivity.
    + rewrite andb_false_r. reflexivity.
  - unfold ChatInterface.documentIds.
    destruct (ChatInterface.isSelectedScope (ChatInterface.searchScope s) &&
              (0 <? length (ChatInterface.selectedFiles s))) eqn:E;
      [|discriminate].
    apply andb_true_iff in E. destruct E as [_ E].
    destruct (ChatInterface.selectedFiles s); [discriminate E|].
    discriminate.
  - intros. apply documentIds_request.
Qed.

Lemma documentIds_names_the_selection_witness :
  ChatInterface.searchScope Sample.focused = selected /\
  ChatInterface.selectedFiles Sample.focused <> [] /\
  ChatInterface.documentIds [Sample.report] Sample.focused = Some [lit "report.pdf"].
Proof.
  split; [reflexivity|]. split; [discriminate|].
  destruct (proj1 (documentIds_names_the_selection [Sample.report] Sample.focused)
              eq_refl) as [ids [Hids _]].
  - discriminate.
  - reflexivity.
Defined.

(* ------------------------------------------------------------------------- *)
(** ** The upload handler: the order of the statuses it writes *)
(* ------------------------------------------------------------------------- *)

Lemma writtenStatuses_app l1 l2 :
  FileUpload.writtenStatuses (l1 ++ l2)
  = FileUpload.writtenStatuses l1 ++ FileUpload.writtenStatuses l2.
Proof.
  induction l1 as [|c l1 IH]; simpl; [reflexivity|].
  destruct (FileUpload.writtenStatus c); simpl; rewrite IH; reflexivity.
Qed.

Lemma last_nonempty {A} (x : A) l d d' : last (x :: l) d = last (x :: l) d'.
Proof.
  revert x; induction l as [|y l IH]; intros x; [reflexivity|].
  change (last (y :: l) d = last (y :: l) d'). apply IH.
Qed.

Lemma forwardFrom_app a l1 l2 :
  forwardFrom a (l1 ++ l2) = forwardFrom a l1 && forwardFrom (last l1 a) l2.
Proof.
  revert a; induction l1 as [|b l1 IH]; intros a; [reflexivity|].
  cbn [app forwardFrom]. rewrite IH, andb_assoc.
  destruct l1 as [|c l1]; [reflexivity|].
  rewrite (last_nonempty c l1 b a).
  change (last (b :: c :: l1) a) with (last (c :: l1) a). reflexivity.
Qed.

Lemma last_app_default {A} (l1 l2 : list A) a :
  last (l1 ++ l2) a = last l2 (last l1 a).
Proof.
  induction l1 as [|b l1 IH]; [reflexivity|].
  destruct l1 as [|c l1].
  - destruct l2 as [|d l2]; [reflexivity|].
    change (last (d :: l2) a = last (d :: l2) b). apply last_nonempty.
  - exact IH.
Qed.

Lemma forwardStep_refl a : forwardStep a a = true.
Proof. destruct a; reflexivity. Qed.

Section StepRules.

Import FileUpload.

Lemma steps_weaken {A} (m : eff World A) a (Q R : outcome A -> FileStatus -> Prop) :
  steps m a Q -> (forall r b, Q r b -> R r b) -> steps m a R.
Proof.
  intros Hm HQR w. destruct (Hm w) as [new [Hc [Hf HQ]]].
  exists new. auto.
Qed.

Lemma steps_ret {A} (x : A) a : steps (ret x) a (fun r b => r = Returns x /\ b = a).
Proof. intros w. exists []. simpl. rewrite app_nil_r. auto. Qed.

Lemma steps_throw {A} e a :
  steps (@throw World A e) a (fun r b => r = Throws e /\ b = a).
Proof. intros w. exists []. simpl. rewrite app_nil_r. auto. Qed.

Lemma steps_gets {A} (f : World -> A) a :
  steps (gets f) a (fun r b => (exists x, r = Returns x) /\ b = a).
Proof. intros w. exists []. simpl. rewrite app_nil_r. eauto. Qed.

Lemma steps_bind {A B} (m : eff World A) (k : A -> eff World B) a Q R :
  steps m a Q ->
  (forall x b, Q (Returns x) b -> steps (k x) b R) ->
  (forall e b, Q (Throws e) b -> R (Throws e) b) ->
  steps (bind m k) a R.
Proof.
  intros Hm Hk Hthrow w. unfold bind.
  destruct (Hm w) as [n1 [Hc1 [Hf1 HQ1]]].
  destruct (m w) as [w1 [x|e]]; simpl in *.
  - destruct (Hk x _ HQ1 w1) as [n2 [Hc2 [Hf2 HQ2]]].
    exists (n1 ++ n2). rewrite Hc2, Hc1, app_assoc.
    rewrite writtenStatuses_app, forwardFrom_app, last_app_default, Hf1, Hf2.
    auto.
  - exists n1. auto.
Qed.

Lemma steps_tryCatch {A} (body : eff World A) (h : thrown -> eff World A) a Q R :
  steps body a Q ->
  (forall x b, Q (Returns x) b -> R (Returns x) b) ->
  (forall e b, Q (Throws e) b -> steps (h e) b R) ->
  steps (tryCatch body h) a R.
Proof.
  intros Hm Hret Hh w. unfold tryCatch.
  destruct (Hm w) as [n1 [Hc1 [Hf1 HQ1]]].
  destruct (body w) as [w1 [x|e]]; simpl in *.
  - exists n1. auto.
  - destruct (Hh e _ HQ1 w1) as [n2 [Hc2 [Hf2 HQ2]]].
    exists (n1 ++ n2). rewrite Hc2, Hc1, app_assoc.
    rewrite writtenStatuses_app, forwardFrom_app, last_app_default, Hf1, Hf2.
    auto.
Qed.

(** A logged call that writes no status. *)
Lemma steps_log_silent c a :
  writtenStatus c = None ->
  steps (modify (log c)) a (fun r b => r = Returns tt /\ b = a).
Proof.
  intros Hc w. exists [c]. simpl. rewrite Hc. auto.
Qed.

(** A logged call that writes the status [st]. *)
Lemma steps_log_status c a st :
  writtenStatus c = Some st -> forwardStep a st = true ->
  steps (modify (log c)) a (fun r b => r = Returns tt /\ b = st).
Proof.
  intros Hc Hf w. exists [c]. simpl. rewrite Hc. simpl. rewrite Hf. auto.
Qed.

(** A change of the lists leaves the log alone. *)
Lemma steps_setFiles f a :
  steps (modify (setFiles f)) a (fun r b => r = Returns tt /\ b = a).
Proof. intros w. exists []. simpl. rewrite app_nil_r. auto. Qed.

Lemma steps_setUploadingFiles f a :
  steps (modify (setUploadingFiles f)) a (fun r b => r = Returns tt /\ b = a).
Proof. intros w. exists []. simpl. rewrite app_nil_r. auto. Qed.

Lemma steps_wait ms a : steps (wait ms) a (fun r b => r = Returns tt /\ b = a).
Proof. apply steps_log_silent. reflexivity. Qed.

(** An update of the main list: it writes the status it carries, if any. *)
Lemma steps_onFileUpdate fileId u a :
  match p_status u with Some st => forwardStep a st = true | None => True end ->
  steps (onFileUpdate fileId u) a
        (fun r b => r = Returns tt /\ b = match p_status u with Some st => st | None => a end).
Proof.
  intros H. unfold onFileUpdate.
  destruct (p_status u) as [st|] eqn:E.
  - eapply steps_bind; [apply (steps_log_status _ a st); [exact E | exact H] | |].
    + intros x b [_ ->]. apply steps_setFiles.
    + intros e b [Habs _]. discriminate.
  - eapply steps_bind; [apply steps_log_silent; exact E | |].
    + intros x b [_ ->]. apply steps_setFiles.
    + intros e b [Habs _]. discriminate.
Qed.

Lemma steps_updateUploading fileId u a :
  match p_status u with Some st => forwardStep a st = true | None => True end ->
  steps (updateUploading fileId u) a
        (fun r b => r = Returns tt /\ b = match p_status u with Some st => st | None => a end).
Proof.
  intros H. unfold updateUploading.
  destruct (p_status u) as [st|] eqn:E.
  - eapply steps_bind; [apply (steps_log_status _ a st); [exact E | exact H] | |].
    + intros x b [_ ->]. apply steps_setUploadingFiles.
    + intros e b [Habs _]. discriminate.
  - eapply steps_bind; [apply steps_log_silent; exact E | |].
    + intros x b [_ ->]. apply steps_setUploadingFiles.
    + intros e b [Habs _]. discriminate.
Qed.

Lemma steps_onFileUpload newFiles a :
  steps (onFileUpload newFiles) a (fun r b => r = Returns tt /\ b = a).
Proof.
  unfold onFileUpload.
  eapply steps_bind; [apply steps_log_silent; reflexivity | |].
  - intros x b [_ ->].
    eapply steps_bind; [apply steps_setFiles | |].
    + intros y c [_ ->]. apply steps_log_silent. reflexivity.
    + intros e c [Habs _]. discriminate.
  - intros e b [Habs _]. discriminate.
Qed.

(** A PUT writes its status whether the request rejects or not. *)
Lemma steps_putStatus be fileId st prog msg a :
  forwardStep a st = true ->
  steps (putStatus be fileId st prog msg) a (fun r b => b = st).
Proof.
  intros H. unfold putStatus.
  eapply steps_bind; [apply steps_gets | |].
  - intros n b [_ ->].
    eapply steps_bind; [apply (steps_log_status _ a st); [reflexivity | exact H] | |].
    + intros x c [_ ->]. destruct (putRejects be n).
      * eapply steps_weaken; [apply steps_throw|]. intros r d [_ ->]. reflexivity.
      * eapply steps_weaken; [apply steps_ret|]. intros r d [_ ->]. reflexivity.
    + intros e c [Habs _]. discriminate.
  - intros e b [[x Habs] _]. discriminate.
Qed.

Lemma steps_uploadFileToPublic be fileData a :
  steps (uploadFileToPublic be fileData) a (fun r b => b = a).
Proof.
  unfold uploadFileToPublic.
  eapply steps_bind; [apply steps_log_silent; reflexivity | |].
  - intros x b [_ ->].
    destruct (upload be);
      (eapply steps_weaken; [first [apply steps_throw | apply steps_ret]|]);
      intros r d [_ ->]; reflexivity.
  - intros e b [Habs _]. discriminate.
Qed.

Lemma steps_forEach {A} (l : list A) (body : A -> eff World unit) a :
  (forall x, steps (body x) a (fun r b => b = a)) ->
  steps (forEach l body) a (fun r b => b = a).
Proof.
  intros Hbody. induction l as [|x l IH]; simpl.
  - eapply steps_weaken; [apply steps_ret|]. intros r b [_ ->]. reflexivity.
  - eapply steps_bind; [apply Hbody | |].
    + intros y b ->. exact IH.
    + intros e b ->. reflexivity.
Qed.

End StepRules.

(** Run a primitive that returns, then go on with the rest. *)
Ltac after_step rule :=
  eapply steps_bind;
  [ rule
  | intros ? ? [_ ->]
  | intros ? ? [Habs _]; discriminate Habs ].

Section UploadRun.

Import FileUpload.

Variable be : Backend.

(** One turn of the polling loop does not throw; it ends on [ready] when
    it breaks the loop and on [processing] otherwise. *)
Lemma steps_pollOnce updatedFileData attempts :
  steps (pollOnce be updatedFileData attempts) processing
        (fun r b => (r = Returns true /\ b = ready) \/
                    (r = Returns false /\ b = processing)).
Proof.
  unfold pollOnce.
  after_step ltac:(apply steps_wait).
  after_step ltac:(apply steps_updateUploading; reflexivity).
  cbn [p_status statusProgressUpdate].
  eapply steps_tryCatch with
    (Q := fun r b => (r = Returns true /\ b = ready) \/
                     (r = Returns false /\ b = processing) \/
                     ((exists e, r = Throws e) /\ b = processing)).
  - after_step ltac:(apply steps_log_silent; reflexivity).
    destruct (poll be attempts) as [e | st | e | record_status error_message].
    + eapply steps_weaken; [apply steps_throw|]. intros r b [-> ->]. eauto.
    + eapply steps_weaken; [apply steps_ret|]. intros r b [-> ->]. auto.
    + eapply steps_weaken; [apply steps_throw|]. intros r b [-> ->]. eauto.
    + destruct (JS.eqb record_status (lit "ready")).
      * after_step ltac:(apply steps_onFileUpdate; reflexivity).
        after_step ltac:(apply steps_updateUploading; reflexivity).
        after_step ltac:(apply steps_onFileUpload).
        eapply steps_weaken; [apply steps_ret|]. intros r b [-> ->]. auto.
      * destruct (JS.eqb record_status (lit "error")).
        -- eapply steps_weaken; [apply steps_throw|]. intros r b [-> ->]. eauto.
        -- eapply steps_weaken; [apply steps_ret|]. intros r b [-> ->]. auto.
  - intros r0 b0 [[H ->] | [[H ->] | [[e0 H] _]]]; [auto | auto | discriminate H].
  - intros e0 b0 [[H _] | [[H _] | [_ ->]]]; try discriminate H.
    after_step ltac:(apply steps_log_silent; reflexivity).
    eapply steps_weaken; [apply steps_ret|]. intros r b [-> ->]. auto.
Qed.

(** The loop returns its counter; when it ends on [ready] the counter is
    below the limit, so the time-out that follows is not raised. *)
Lemma steps_pollLoop updatedFileData fuel attempts :
  steps (pollLoop be updatedFileData fuel attempts) processing
        (fun r b => exists n, r = Returns n /\
                              ((b = ready /\ n < maxAttempts) \/ b = processing)).
Proof.
  revert attempts. induction fuel as [|fuel IH]; intros attempts; simpl.
  - destruct (attempts <? maxAttempts);
      (eapply steps_weaken; [apply steps_ret|]); intros r b [-> ->]; eauto.
  - destruct (attempts <? maxAttempts) eqn:Hlt.
    + eapply steps_bind; [apply steps_pollOnce | |].
      * intros stop b [[H ->] | [H ->]]; injection H as ->.
        -- intros w. exists []. simpl. rewrite app_nil_r.
           repeat split. exists attempts. split; [reflexivity|].
           left. split; [reflexivity|]. apply Nat.ltb_lt. exact Hlt.
        -- apply IH.
      * intros e b [[H _] | [H _]]; discriminate H.
    + eapply steps_weaken; [apply steps_ret|]. intros r b [-> ->]; eauto.
Qed.

(** The [try] block: if it throws, the last status written is not a
    final one. *)
Lemma steps_uploadBody fileData :
  steps (uploadBody be fileData) uploading
        (fun r b => match r with
                    | Returns _ => True
                    | Throws _ => b = uploading \/ b = processing
                    end).
Proof.
  unfold uploadBody.
  eapply steps_bind; [apply steps_uploadFileToPublic | |].
  2: { intros e b ->. auto. }
  intros resultId b ->.
  after_step ltac:(apply steps_onFileUpdate; reflexivity).
  after_step ltac:(apply steps_updateUploading; reflexivity).
  cbn [p_status statusProgressUpdate idStatusProgressUpdate].
  eapply steps_bind.
  { apply steps_forEach. intros p.
    after_step ltac:(apply steps_wait).
    after_step ltac:(apply steps_onFileUpdate; exact I).
    after_step ltac:(apply steps_updateUploading; exact I).
    cbn [p_status progressUpdate].
    apply steps_putStatus. reflexivity. }
  2: { intros e b ->. auto. }
  intros _ b ->.
  after_step ltac:(apply steps_onFileUpdate; reflexivity).
  after_step ltac:(apply steps_updateUploading; reflexivity).
  cbn [p_status statusUpdate].
  eapply steps_bind; [apply steps_putStatus; reflexivity | |].
  2: { intros e b ->. auto. }
  intros _ b ->.
  eapply steps_bind; [apply steps_pollLoop | |].
  2: { intros e b [n [H _]]. discriminate H. }
  intros attempts b [n [Hn Hb]]. injection Hn as <-.
  destruct (maxAttempts <=? attempts) eqn:Hmax.
  - destruct Hb as [[_ Hlt] | ->].
    + apply Nat.leb_le in Hmax. lia.
    + eapply steps_bind; [apply steps_throw | |].
      * intros ? ? [H _]. discriminate H.
      * intros ? ? [_ ->]. auto.
  - eapply steps_bind; [apply steps_ret | |].
    + intros ? ? [_ ->].
      eapply steps_weaken; [apply steps_log_silent; reflexivity|].
      intros ? ? [-> _]. exact I.
    + intros ? ? [H _]. discriminate H.
Qed.

(** The [catch] block moves a status that is not final to [error]. *)
Lemma steps_uploadCatch fileData e a :
  a = uploading \/ a = processing ->
  steps (uploadCatch be fileData e) a (fun r b => b = error).
Proof.
  intros Ha. unfold uploadCatch.
  after_step ltac:(apply steps_log_silent; reflexivity).
  after_step ltac:(apply steps_onFileUpdate; destruct Ha as [-> | ->]; reflexivity).
  after_step ltac:(apply steps_updateUploading; reflexivity).
  cbn [p_status statusUpdate].
  apply steps_putStatus. reflexivity.
Qed.

Lemma steps_handleFileUpload fileData :
  steps (handleFileUpload be fileData) uploading (fun _ _ => True).
Proof.
  unfold handleFileUpload.
  eapply steps_tryCatch; [apply steps_uploadBody | auto |].
  intros e b Hb. eapply steps_weaken; [apply steps_uploadCatch; exact Hb|].
  auto.
Qed.

End UploadRun.

(** C8, as stated, fails on the code: no status write is guarded.  The
    update the handler makes when the simulated upload is over puts a file
    that the main list already shows as ready back to [processing]; and a
    whole run does the same to a listed file whose id the backend hands out
    again. *)
Lemma ready_file_moved_backwards :
  FileUpload.statusOf (lit "f1") [Sample.report] = Some ready /\
  FileUpload.statusOf (lit "f1")
    (App.handleFileUpdate (lit "f1") (FileUpload.statusUpdate processing) [Sample.report])
  = Some processing /\
  forwardStep ready processing = false /\
  FileUpload.statusOf (lit "f1")
    (FileUpload.files
       (fst (FileUpload.handleFileUpload UploadSample.sameId UploadSample.picked
               UploadSample.listed)))
  = Some processing /\
  ~ lifecycleRespected
      [Sample.report]
      (App.handleFileUpdate (lit "f1") (FileUpload.statusUpdate processing) [Sample.report]).
Proof.
  split; [reflexivity|]. split; [reflexivity|]. split; [reflexivity|].
  split; [vm_compute; reflexivity|].
  intros H. specialize (H (lit "f1") ready processing eq_refl eq_refl).
  discriminate H.
Qed.

(** C8, amended.  Within one run of the upload handler the status updates
    it writes, to the main list, to the upload list and to the database,
    come in the order of the lifecycle: starting from the [uploading] a new
    entry is given, each update repeats the previous status or moves up in
    the order uploading, processing, then ready or error; no update but
    [ready] follows [ready].  (The file handed to the main list on [ready]
    is the entry as it was registered; see [ready_at_third_poll].) *)
Theorem handleFileUpload_writes_forward :
  forall (be : FileUpload.Backend) (fileData : FileData) (w : FileUpload.World),
  exists new,
    FileUpload.calls (fst (FileUpload.handleFileUpload be fileData w))
    = FileUpload.calls w ++ new /\
    forwardFrom uploading (FileUpload.writtenStatuses new) = true.
Proof.
  intros be fileData w.
  destruct (steps_handleFileUpload be fileData w) as [new [Hc [Hf _]]].
  exists new. auto.
Qed.

(* ------------------------------------------------------------------------- *)
(** ** The upload handler: how often it polls, and when it lists a file *)
(* ------------------------------------------------------------------------- *)

Lemma count_app p l1 l2 : count p (l1 ++ l2) = count p l1 + count p l2.
Proof. unfold count. rewrite filter_app, length_app. reflexivity. Qed.

Section CostRules.

Import FileUpload.

Variable p : Call -> bool.

Lemma costs_weaken {A} (m : eff World A) n n' :
  costs p m n -> n <= n' -> costs p m n'.
Proof.
  intros Hm Hle w. destruct (Hm w) as [new [Hc Hn]]. exists new.
  split; [exact Hc | lia].
Qed.

Lemma costs_ret {A} (x : A) : costs p (ret x) 0.
Proof. intros w. exists []. simpl. rewrite app_nil_r. auto. Qed.

Lemma costs_throw {A} e : costs p (@throw World A e) 0.
Proof. intros w. exists []. simpl. rewrite app_nil_r. auto. Qed.

Lemma costs_gets {A} (f : World -> A) : costs p (gets f) 0.
Proof. intros w. exists []. simpl. rewrite app_nil_r. auto. Qed.

Lemma costs_log c : costs p (modify (log c)) (if p c then 1 else 0).
Proof.
  intros w. exists [c]. split; [reflexivity|].
  unfold count. simpl. destruct (p c); simpl; lia.
Qed.

Lemma costs_setFiles f : costs p (modify (setFiles f)) 0.
Proof. intros w. exists []. simpl. rewrite app_nil_r. auto. Qed.

Lemma costs_setUploadingFiles f : costs p (modify (setUploadingFiles f)) 0.
Proof. intros w. exists []. simpl. rewrite app_nil_r. auto. Qed.

Lemma costs_bind {A B} (m : eff World A) (k : A -> eff World B) n1 n2 :
  costs p m n1 -> (forall x, costs p (k x) n2) -> costs p (bind m k) (n1 + n2).
Proof.
  intros Hm Hk w. unfold bind.
  destruct (Hm w) as [l1 [Hc1 Hn1]].
  destruct (m w) as [w1 [x|e]]; simpl in *.
  - destruct (Hk x w1) as [l2 [Hc2 Hn2]].
    exists (l1 ++ l2). rewrite Hc2, Hc1, app_assoc, count_app.
    split; [reflexivity | lia].
  - exists l1. split; [exact Hc1 | lia].
Qed.

Lemma costs_tryCatch {A} (body : eff World A) (h : thrown -> eff World A) n1 n2 :
  costs p body n1 -> (forall e, costs p (h e) n2) ->
  costs p (tryCatch body h) (n1 + n2).
Proof.
  intros Hm Hh w. unfold tryCatch.
  destruct (Hm w) as [l1 [Hc1 Hn1]].
  destruct (body w) as [w1 [x|e]]; simpl in *.
  - exists l1. split; [exact Hc1 | lia].
  - destruct (Hh e w1) as [l2 [Hc2 Hn2]].
    exists (l1 ++ l2). rewrite Hc2, Hc1, app_assoc, count_app.
    split; [reflexivity | lia].
Qed.

Lemma costs_forEach {A} (l : list A) (body : A -> eff World unit) :
  (forall x, costs p (body x) 0) -> costs p (forEach l body) 0.
Proof.
  intros Hbody. induction l as [|x l IH]; simpl.
  - apply costs_ret.
  - apply (costs_bind _ _ 0 0); [apply Hbody | intros _; exact IH].
Qed.

End CostRules.

Section UploadCosts.

Import FileUpload.

Variable be : Backend.

(** Calls of a kind that only the polling loop makes. *)
Variable p : Call -> bool.
Hypothesis p_update : forall i u, p (OnFileUpdate i u) = false.
Hypothesis p_local : forall i u, p (SetUploadingFiles i u) = false.
Hypothesis p_put : forall i st q m, p (PutStatus i st q m) = false.
Hypothesis p_wait : forall ms, p (Wait ms) = false.
Hypothesis p_post : forall n, p (PostUpload n) = false.
Hypothesis p_console : forall e, p (ConsoleError e) = false.
Hypothesis p_removal : forall i ms, p (ScheduleRemoval i ms) = false.

Lemma costs_silent c : p c = false -> costs p (modify (log c)) 0.
Proof.
  intros H. eapply costs_weaken; [apply costs_log|]. rewrite H. lia.
Qed.

Lemma costs_onFileUpdate i u : costs p (onFileUpdate i u) 0.
Proof.
  unfold onFileUpdate. apply (costs_bind _ _ _ 0 0).
  - apply costs_silent, p_update.
  - intros _. apply costs_setFiles.
Qed.

Lemma costs_updateUploading i u : costs p (updateUploading i u) 0.
Proof.
  unfold updateUploading. apply (costs_bind _ _ _ 0 0).
  - apply costs_silent, p_local.
  - intros _. apply costs_setUploadingFiles.
Qed.

Lemma costs_putStatus i st q m : costs p (putStatus be i st q m) 0.
Proof.
  unfold putStatus. apply (costs_bind _ _ _ 0 0); [apply costs_gets|].
  intros n. apply (costs_bind _ _ _ 0 0); [apply costs_silent, p_put|].
  intros _. destruct (putRejects be n); [apply costs_throw | apply costs_ret].
Qed.

Lemma costs_uploadFileToPublic fileData : costs p (uploadFileToPublic be fileData) 0.
Proof.
  unfold uploadFileToPublic. apply (costs_bind _ _ _ 0 0); [apply costs_silent, p_post|].
  intros _. destruct (upload be);
    first [apply costs_throw | apply costs_ret].
Qed.

Lemma costs_uploadCatch fileData e : costs p (uploadCatch be fileData e) 0.
Proof.
  unfold uploadCatch.
  apply (costs_bind _ _ _ 0 0); [apply costs_silent, p_console|]. intros _.
  apply (costs_bind _ _ _ 0 0); [apply costs_onFileUpdate|]. intros _.
  apply (costs_bind _ _ _ 0 0); [apply costs_updateUploading|]. intros _.
  apply costs_putStatus.
Qed.

(** What one turn of the loop may cost, and what the loop and the whole
    handler cost then. *)
Variable perTurn : nat.
Hypothesis costs_turn :
  forall u attempts, attempts < maxAttempts -> costs p (pollOnce be u attempts) perTurn.

Lemma costs_pollLoop u fuel attempts :
  costs p (pollLoop be u fuel attempts) (perTurn * (maxAttempts - attempts)).
Proof.
  revert attempts. induction fuel as [|fuel IH]; intros attempts; simpl pollLoop.
  - destruct (attempts <? maxAttempts);
      (eapply costs_weaken; [apply costs_ret | apply Nat.le_0_l]).
  - destruct (attempts <? maxAttempts) eqn:Hlt.
    + apply Nat.ltb_lt in Hlt.
      eapply costs_weaken.
      * apply (costs_bind _ _ _ perTurn (perTurn * (maxAttempts - S attempts))).
        -- apply costs_turn. exact Hlt.
        -- intros [|]; [eapply costs_weaken; [apply costs_ret | apply Nat.le_0_l]
                       | apply IH].
      * replace (maxAttempts - attempts) with (S (maxAttempts - S attempts)) by lia.
        rewrite Nat.mul_succ_r, Nat.add_comm. apply Nat.le_refl.
    + eapply costs_weaken; [apply costs_ret | apply Nat.le_0_l].
Qed.

Lemma costs_uploadBody fileData :
  costs p (uploadBody be fileData) (perTurn * maxAttempts).
Proof.
  unfold uploadBody.
  apply (costs_bind _ _ _ 0); [apply costs_uploadFileToPublic|]. intros resultId.
  apply (costs_bind _ _ _ 0); [apply costs_onFileUpdate|]. intros _.
  apply (costs_bind _ _ _ 0); [apply costs_updateUploading|]. intros _.
  apply (costs_bind _ _ _ 0).
  { apply costs_forEach. intros q.
    apply (costs_bind _ _ _ 0 0); [apply costs_silent, p_wait|]. intros _.
    apply (costs_bind _ _ _ 0 0); [apply costs_onFileUpdate|]. intros _.
    apply (costs_bind _ _ _ 0 0); [apply costs_updateUploading|]. intros _.
    apply costs_putStatus. }
  intros _.
  apply (costs_bind _ _ _ 0); [apply costs_onFileUpdate|]. intros _.
  apply (costs_bind _ _ _ 0); [apply costs_updateUploading|]. intros _.
  apply (costs_bind _ _ _ 0); [apply costs_putStatus|]. intros _.
  eapply costs_weaken.
  - apply (costs_bind _ _ _ (perTurn * (maxAttempts - 0)) 0); [apply costs_pollLoop|].
    intros attempts.
    apply (costs_bind _ _ _ 0 0).
    + destruct (maxAttempts <=? attempts); [apply costs_throw | apply costs_ret].
    + intros _. apply costs_silent, p_removal.
  - rewrite Nat.sub_0_r, !Nat.add_0_r. apply Nat.le_refl.
Qed.

Lemma costs_handleFileUpload fileData :
  costs p (handleFileUpload be fileData) (perTurn * maxAttempts).
Proof.
  unfold handleFileUpload. eapply costs_weaken.
  - apply (costs_tryCatch _ _ _ (perTurn * maxAttempts) 0).
    + apply costs_uploadBody.
    + intros e. apply costs_uploadCatch.
  - rewrite Nat.add_0_r. apply Nat.le_refl.
Qed.

End UploadCosts.

Section PollTurn.

Import FileUpload.

Variable be : Backend.

(** One turn of the loop polls once. *)
Lemma pollOnce_polls_once u attempts : costs isPoll (pollOnce be u attempts) 1.
Proof.
  unfold pollOnce.
  apply (costs_bind _ _ _ 0 1); [apply costs_silent; reflexivity|]. intros _.
  apply (costs_bind _ _ _ 0 1); [apply costs_updateUploading; reflexivity|]. intros _.
  apply (costs_tryCatch _ _ _ 1 0).
  - apply (costs_bind _ _ _ 1 0); [apply (costs_log isPoll (GetFile (id u)))|].
    intros _.
    destruct (poll be attempts) as [e | st | e | record_status error_message];
      try apply costs_throw; try apply costs_ret.
    destruct (JS.eqb record_status (lit "ready")).
    + apply (costs_bind _ _ _ 0 0); [apply costs_onFileUpdate; reflexivity|]. intros _.
      apply (costs_bind _ _ _ 0 0); [apply costs_updateUploading; reflexivity|]. intros _.
      apply (costs_bind _ _ _ 0 0); [|intros _; apply costs_ret].
      unfold onFileUpload.
      apply (costs_bind _ _ _ 0 0); [apply costs_silent; reflexivity|]. intros _.
      apply (costs_bind _ _ _ 0 0); [apply costs_setFiles|]. intros _.
      apply costs_silent; reflexivity.
    + destruct (JS.eqb record_status (lit "error"));
        [apply costs_throw | apply costs_ret].
  - intros e. apply (costs_bind _ _ _ 0 0); [apply costs_silent; reflexivity|].
    intros _. apply costs_ret.
Qed.

(** A turn whose poll does not answer ready hands no file to the main
    list. *)
Lemma pollOnce_lists_nothing u attempts :
  notReady (poll be attempts) ->
  costs isFileUploadCall (pollOnce be u attempts) 0.
Proof.
  intros Hnot. unfold pollOnce.
  apply (costs_bind _ _ _ 0 0); [apply costs_silent; reflexivity|]. intros _.
  apply (costs_bind _ _ _ 0 0); [apply costs_updateUploading; reflexivity|]. intros _.
  apply (costs_tryCatch _ _ _ 0 0).
  - apply (costs_bind _ _ _ 0 0); [apply costs_silent; reflexivity|].
    intros _.
    destruct (poll be attempts) as [e | st | e | record_status error_message];
      try apply costs_throw; try apply costs_ret.
    simpl in Hnot. rewrite Hnot.
    destruct (JS.eqb record_status (lit "error"));
      [apply costs_throw | apply costs_ret].
  - intros e. apply (costs_bind _ _ _ 0 0); [apply costs_silent; reflexivity|].
    intros _. apply costs_ret.
Qed.

End PollTurn.

(** The polling loop of one run asks for the file record at most
    [maxAttempts] = 60 times, whatever the backend answers. *)
Lemma handleFileUpload_polls_at_most_60 :
  forall (be : FileUpload.Backend) (fileData : FileData) (w : FileUpload.World),
  exists new,
    FileUpload.calls (fst (FileUpload.handleFileUpload be fileData w))
    = FileUpload.calls w ++ new /\
    count isPoll new <= 60.
Proof.
  intros be fileData w.
  apply (costs_handleFileUpload be isPoll) with (perTurn := 1);
    try (intros; reflexivity).
  intros u attempts _. apply pollOnce_polls_once.
Qed.

(** A file is handed to the main list only on a poll that answers ready:
    when none of the 60 polls does, the run makes no [onFileUpload] call. *)
Lemma handleFileUpload_lists_only_ready :
  forall (be : FileUpload.Backend) (fileData : FileData) (w : FileUpload.World),
    (forall n, n < FileUpload.maxAttempts -> notReady (FileUpload.poll be n)) ->
    exists new,
      FileUpload.calls (fst (FileUpload.handleFileUpload be fileData w))
      = FileUpload.calls w ++ new /\
      count FileUpload.isFileUploadCall new = 0.
Proof.
  intros be fileData w Hnot.
  destruct (costs_handleFileUpload be FileUpload.isFileUploadCall) with
    (perTurn := 0) (fileData := fileData) (w := w) as [new [Hc Hn]];
    try (intros; reflexivity).
  - intros u attempts Hlt. apply pollOnce_lists_nothing. apply Hnot. exact Hlt.
  - exists new. split; [exact Hc | lia].
Qed.

Lemma handleFileUpload_lists_only_ready_witness :
  (forall n, n < FileUpload.maxAttempts ->
             notReady (FileUpload.poll UploadSample.neverReady n)) /\
  count FileUpload.isFileUploadCall
    (FileUpload.calls
       (fst (FileUpload.handleFileUpload UploadSample.neverReady UploadSample.picked
               UploadSample.start))) = 0.
Proof.
  assert (H : forall n, n < FileUpload.maxAttempts ->
                        notReady (FileUpload.poll UploadSample.neverReady n)).
  { intros n _. reflexivity. }
  split; [exact H|].
  destruct (handleFileUpload_lists_only_ready UploadSample.neverReady
              UploadSample.picked UploadSample.start H) as [new [Hc Hn]].
  rewrite Hc. exact Hn.
Defined.

(** C9 at the failing input.  The backend files the upload under its own
    id and never reports it ready.  The loop stops after 60 polls and 60
    waits of five seconds and the time-out is raised, but the [catch] block
    marks the id the client had made up before the upload: the entry of the
    upload list, renamed to the backend id, stays [processing], the main
    list is untouched, and the error status with the message 'Processing
    timed out' is put to the address of the stale id. *)
Lemma timeout_marks_stale_id :
  let w := fst (FileUpload.handleFileUpload UploadSample.neverReady
                  UploadSample.picked UploadSample.start) in
  snd (FileUpload.handleFileUpload UploadSample.neverReady
         UploadSample.picked UploadSample.start) = Returns tt /\
  count isPoll (FileUpload.calls w) = 60 /\
  count (fun c => match c with FileUpload.Wait 5000 => true | _ => false end)
        (FileUpload.calls w) = 60 /\
  map id (FileUpload.uploadingFiles w) = [lit "b7e2"] /\
  FileUpload.statusOf (lit "b7e2") (FileUpload.uploadingFiles w) = Some processing /\
  FileUpload.statusOf (lit "k3x9q0a1z") (FileUpload.uploadingFiles w) = None /\
  FileUpload.files w = [] /\
  last (FileUpload.calls w) (FileUpload.Wait 0)
  = FileUpload.PutStatus (lit "k3x9q0a1z") error (inject_Z 0)
                         (Some (lit "Processing timed out")).
Proof. vm_compute. repeat split; reflexivity. Qed.

(** A record the backend reports as failed does not end the polling: the
    [throw] of line 398 is caught inside the loop, which goes on for its 60
    turns and ends in the time-out, so the message of the backend is never
    passed on. *)
Lemma backend_error_keeps_polling :
  let w := fst (FileUpload.handleFileUpload UploadSample.failed
                  UploadSample.picked UploadSample.start) in
  count isPoll (FileUpload.calls w) = 60 /\
  count (fun c => match c with FileUpload.ConsoleError _ => true | _ => false end)
        (FileUpload.calls w) = 61 /\
  last (FileUpload.calls w) (FileUpload.Wait 0)
  = FileUpload.PutStatus (lit "k3x9q0a1z") error (inject_Z 0)
                         (Some (lit "Processing timed out")).
Proof. vm_compute. repeat split; reflexivity. Qed.

(** A run against a backend that reports the record ready at the third
    poll: three polls, the entry of the upload list turned [ready], one
    file handed to the main list (with the [uploading] status it was
    registered with, until the refresh asked for right after replaces it),
    the removal from the upload list scheduled, and no error written. *)
Lemma ready_at_third_poll :
  let w := fst (FileUpload.handleFileUpload UploadSample.readyAtThird
                  UploadSample.picked UploadSample.start) in
  count isPoll (FileUpload.calls w) = 3 /\
  FileUpload.statusOf (lit "b7e2") (FileUpload.uploadingFiles w) = Some ready /\
  map id (FileUpload.files w) = [lit "b7e2"] /\
  map status (FileUpload.files w) = [uploading] /\
  count FileUpload.isFileUploadCall (FileUpload.calls w) = 1 /\
  last (FileUpload.calls w) (FileUpload.Wait 0)
  = FileUpload.ScheduleRemoval (lit "b7e2") 15000 /\
  existsb (fun st => sameStatus st error)
          (FileUpload.writtenStatuses (FileUpload.calls w)) = false.
Proof. vm_compute. repeat split; reflexivity. Qed.

(* ------------------------------------------------------------------------- *)
(** ** The chunker *)
(* ------------------------------------------------------------------------- *)

Section ChunkerFacts.

Import Chunker.

Variable paragraph sentence : text -> nat -> bool.

Lemma lastBoundary_range b (t : text) lo d p :
  lastBoundary b t lo d = Some p -> lo < p <= lo + d.
Proof.
  induction d as [|d IH]; simpl; [discriminate|].
  destruct (b t (lo + S d)).
  - intros H. injection H as <-. lia.
  - intros H. apply IH in H. lia.
Qed.


(** A cut never passes the end of the text, and is the end of the text
    exactly when the rest fits. *)
Lemma cutAfter_le (t : text) cs ov s :
  s <= length t -> cutAfter paragraph sentence t cs ov s <= length t.
Proof.
  intros Hs. unfold cutAfter.
  destruct (length t <=? s + cs) eqn:E; [lia|].
  apply Nat.leb_gt in E.
  destruct (lastBoundary paragraph t (s + ov) (cs - ov)) as [p|] eqn:Ep.
  - apply lastBoundary_range in Ep. lia.
  - destruct (lastBoundary sentence t (s + ov) (cs - ov)) as [p|] eqn:Es.
    + apply lastBoundary_range in Es. lia.
    + lia.
Qed.

(** A cut that is not the last one lies past the overlap and within
    [chunk_size]. *)
Lemma cutAfter_inner (t : text) cs ov s :
  ov < cs ->
  (length t <=? cutAfter paragraph sentence t cs ov s) = false ->
  s + ov < cutAfter paragraph sentence t cs ov s <= s + cs /\
  cutAfter paragraph sentence t cs ov s < length t.
Proof.
  intros Hov. unfold cutAfter.
  destruct (length t <=? s + cs) eqn:E.
  - rewrite Nat.leb_refl. discriminate.
  - intros Hlt. apply Nat.leb_gt in E. apply Nat.leb_gt in Hlt.
    split; [|exact Hlt].
    destruct (lastBoundary paragraph t (s + ov) (cs - ov)) as [p|] eqn:Ep.
    + apply lastBoundary_range in Ep. lia.
    + destruct (lastBoundary sentence t (s + ov) (cs - ov)) as [p|] eqn:Es.
      * apply lastBoundary_range in Es. lia.
      * lia.
Qed.


Lemma windows_S (t : text) cs ov fuel s :
  windows paragraph sentence t cs ov (S fuel) s =
  (s, cutAfter paragraph sentence t cs ov s) ::
  (if length t <=? cutAfter paragraph sentence t cs ov s then []
   else windows paragraph sentence t cs ov fuel
                (cutAfter paragraph sentence t cs ov s - ov)).
Proof. reflexivity. Qed.



(** With fuel for the rest of the text the windows run to its end. *)
Lemma windows_reach_end (t : text) cs ov :
  ov < cs ->
  forall fuel s,
    s < length t -> length t - s <= fuel ->
    snd (last (windows paragraph sentence t cs ov fuel s) (0, 0)) = length t.
Proof.
  intros Hov. induction fuel as [|fuel IH]; intros s Hs Hfuel; [lia|].
  rewrite windows_S.
  destruct (length t <=? cutAfter paragraph sentence t cs ov s) eqn:E.
  - apply Nat.leb_le in E.
    pose proof (cutAfter_le t cs ov s ltac:(lia)). simpl. lia.
  - destruct (cutAfter_inner t cs ov s Hov E) as [[Hlo Hhi] Hlt].
    set (stop := cutAfter paragraph sentence t cs ov s) in *.
    specialize (IH (stop - ov) ltac:(lia) ltac:(lia)).
    destruct (windows paragraph sentence t cs ov fuel (stop - ov)) as [|x l] eqn:Ew.
    + destruct fuel; [lia|]. rewrite windows_S in Ew. discriminate Ew.
    + exact IH.
Qed.

(** C6.  [chunk] fails, with [ConfigError], exactly when the overlap is
    not below the chunk size; every configuration with
    [overlap < chunk_size] yields chunks. *)
Theorem chunk_ConfigError_iff :
  forall (t : text) (chunk_size overlap : nat),
    (chunk paragraph sentence t chunk_size overlap = inl ConfigError
     <-> overlap >= chunk_size) /\
    ((exists cs, chunk paragraph sentence t chunk_size overlap = inr cs)
     <-> overlap < chunk_size).
Proof.
  intros t cs ov. unfold chunk.
  destruct (cs <=? ov) eqn:E.
  - apply Nat.leb_le in E. split; split.
    + intros _. exact E.
    + reflexivity.
    + intros [x H]. discriminate H.
    + lia.
  - apply Nat.leb_gt in E. split; split.
    + discriminate.
    + lia.
    + intros _. exact E.
    + intros _. eexists. reflexivity.
Qed.




End ChunkerFacts.

(** The chunk sizes the backend documents as defaults form a valid
    configuration. *)
Lemma default_configuration_accepted paragraph sentence (t : Chunker.text) :
  exists cs,
    Chunker.chunk paragraph sentence t Chunker.CHUNK_SIZE Chunker.CHUNK_OVERLAP
    = inr cs.
Proof.
  unfold Chunker.chunk.
  change (Chunker.CHUNK_SIZE <=? Chunker.CHUNK_OVERLAP) with false.
  eexists. reflexivity.
Qed.



(* ------------------------------------------------------------------------- *)
(** ** The embedding client *)
(* ------------------------------------------------------------------------- *)

Section EmbeddingFacts.

Import EmbeddingClient.

Variable scalar : Type.
Variable provider : nat -> TaskType -> list text -> ErrorKind + list (vector scalar).
Variable max_batch max_attempts : nat.
Variable malformed : ErrorKind.










End EmbeddingFacts.

(** An answer that breaks the guarantee is not passed on: against a
    provider that answers every batch with one vector of three components,
    [embed] fails. *)
Lemma embed_rejects_careless_answer :
  EmbeddingClient.embed nat EmbedSample.careless 2 3 EmbeddingClient.invalid_input
                        EmbedSample.texts EmbeddingClient.document
  = inl (EmbeddingClient.EmbeddingError EmbeddingClient.invalid_input).
Proof. vm_compute. reflexivity. Qed.


(* ------------------------------------------------------------------------- *)
(** ** The upload handler: what a whole run does *)
(* ------------------------------------------------------------------------- *)

Lemma tally_app l1 l2 : tally (l1 ++ l2) = tallyPlus (tally l1) (tally l2).
Proof. unfold tally, tallyPlus. rewrite !count_app. reflexivity. Qed.

Section RunRules.

Import FileUpload.

Lemma run_weaken {A} (m : eff World A) (P Q : outcome A -> list Call -> Prop) :
run m P -> (forall r l, P r l -> Q r l) -> run m Q.
Proof.
intros Hm HPQ w. destruct (Hm w) as [new [Hc HP]]. exists new. auto.
Qed.

Lemma run_ret {A} (x : A) : run (ret x) (fun r l => r = Returns x /\ l = []).
Proof. intros w. exists []. simpl. rewrite app_nil_r. auto. Qed.

Lemma run_throw {A} e : run (@throw World A e) (fun r l => r = Throws e /\ l = []).
Proof. intros w. exists []. simpl. rewrite app_nil_r. auto. Qed.

Lemma run_log c : run (modify (log c)) (fun r l => r = Returns tt /\ l = [c]).
Proof. intros w. exists [c]. simpl. auto. Qed.

Lemma run_bind {A B} (m : eff World A) (k : A -> eff World B) P R :
run m P ->
(forall x l1, P (Returns x) l1 -> run (k x) (fun r l2 => R r (l1 ++ l2))) ->
(forall e l1, P (Throws e) l1 -> R (Throws e) l1) ->
run (bind m k) R.
Proof.
intros Hm Hk Hthrow w. unfold bind.
destruct (Hm w) as [l1 [Hc1 HP]].
destruct (m w) as [w1 [x|e]]; simpl in *.
- destruct (Hk x l1 HP w1) as [l2 [Hc2 HR]].
  exists (l1 ++ l2). rewrite Hc2, Hc1, app_assoc. auto.
- exists l1. auto.
Qed.

Lemma run_tryCatch {A} (body : eff World A) (h : thrown -> eff World A) P R :
run body P ->
(forall x l, P (Returns x) l -> R (Returns x) l) ->
(forall e l1, P (Throws e) l1 -> run (h e) (fun r l2 => R r (l1 ++ l2))) ->
run (tryCatch body h) R.
Proof.
intros Hm Hret Hh w. unfold tryCatch.
destruct (Hm w) as [l1 [Hc1 HP]].
destruct (body w) as [w1 [x|e]]; simpl in *.
- exists l1. auto.
- destruct (Hh e l1 HP w1) as [l2 [Hc2 HR]].
  exists (l1 ++ l2). rewrite Hc2, Hc1, app_assoc. auto.
Qed.

Lemma run_wait ms : run (wait ms) (fun r l => r = Returns tt /\ l = [Wait ms]).
Proof. apply run_log. Qed.

Lemma run_onFileUpdate i u :
run (onFileUpdate i u) (fun r l => r = Returns tt /\ l = [OnFileUpdate i u]).
Proof.
intros w. exists [OnFileUpdate i u]. split; reflexivity || (split; reflexivity).
Qed.

Lemma run_updateUploading i u :
run (updateUploading i u) (fun r l => r = Returns tt /\ l = [SetUploadingFiles i u]).
Proof.
intros w. exists [SetUploadingFiles i u]. split; reflexivity || (split; reflexivity).
Qed.

Lemma run_onFileUpload nf :
run (onFileUpload nf)
    (fun r l => r = Returns tt /\ l = [OnFileUpload nf; LoadFilesFromDatabase]).
Proof.
intros w. exists [OnFileUpload nf; LoadFilesFromDatabase].
split; [|split; reflexivity].
unfold onFileUpload, bind, modify, log, setFiles. simpl.
rewrite <- app_assoc. reflexivity.
Qed.

(** A PUT against a backend that takes every PUT. *)
Lemma run_putStatus be i st q msg :
neverRejects be ->
run (putStatus be i st q msg)
    (fun r l => r = Returns tt /\ l = [PutStatus i st q msg]).
Proof.
intros Hput w. exists [PutStatus i st q msg].
unfold putStatus, bind, gets, modify. simpl. rewrite Hput. simpl. auto.
Qed.

End RunRules.

(** Run a primitive whose calls are known, then go on with the rest. *)
Ltac then_run rule :=
  eapply run_bind;
  [ rule
  | let x := fresh "x" in
    let l := fresh "l" in
    intros x l [_ ->]; cbv beta; try clear x
  | let e := fresh "e" in
    let l := fresh "l" in
    let Habs := fresh "Habs" in
    intros e l [Habs _]; discriminate Habs ].

Section WholeRuns.

Import FileUpload.

Variable be : Backend.
Hypothesis puts_accepted : neverRejects be.

(** A turn whose poll does not answer ready: one wait, one poll, nothing
  handed over, no error written, and the loop goes on. *)
Lemma run_pollOnce_notReady u attempts :
notReady (poll be attempts) ->
run (pollOnce be u attempts)
    (fun r l => r = Returns false /\ tally l = (1, 1, 0, 0)).
Proof.
intros Hnot. unfold pollOnce.
then_run ltac:(apply run_wait).
then_run ltac:(apply run_updateUploading).
eapply run_tryCatch with
  (P := fun r l => (r = Returns false /\ l = [GetFile (id u)]) \/
                   ((exists e, r = Throws e) /\ l = [GetFile (id u)])).
- then_run ltac:(apply run_log).
  destruct (poll be attempts) as [e | st | e | record_status error_message];
    simpl in Hnot.
  + eapply run_weaken; [apply run_throw|]. intros r l [-> ->]. right. eauto.
  + eapply run_weaken; [apply run_ret|]. intros r l [-> ->]. left. auto.
  + eapply run_weaken; [apply run_throw|]. intros r l [-> ->]. right. eauto.
  + rewrite Hnot. destruct (JS.eqb record_status (lit "error")).
    * eapply run_weaken; [apply run_throw|]. intros r l [-> ->]. right. eauto.
    * eapply run_weaken; [apply run_ret|]. intros r l [-> ->]. left. auto.
- intros x l [[H ->] | [[e H] _]]; [|discriminate H].
  injection H as ->. split; reflexivity.
- intros e l [[H _] | [_ ->]]; [discriminate H|].
  then_run ltac:(apply run_log).
  eapply run_weaken; [apply run_ret|]. intros r l [-> ->]. split; reflexivity.
Qed.

(** A turn whose poll answers ready: the file is handed over and the loop
  is left. *)
Lemma run_pollOnce_ready u attempts :
isReady (poll be attempts) ->
run (pollOnce be u attempts)
    (fun r l => r = Returns true /\
                exists pre, l = pre ++ readyTail u /\ tally pre = (1, 1, 0, 0)).
Proof.
intros Hready. unfold pollOnce.
then_run ltac:(apply run_wait).
then_run ltac:(apply run_updateUploading).
eapply run_tryCatch with
  (P := fun r l => r = Returns true /\ l = GetFile (id u) :: readyTail u).
- then_run ltac:(apply run_log).
  destruct (poll be attempts) as [e | st | e | record_status error_message];
    simpl in Hready; try contradiction.
  rewrite Hready.
  then_run ltac:(apply run_onFileUpdate).
  then_run ltac:(apply run_updateUploading).
  then_run ltac:(apply run_onFileUpload).
  eapply run_weaken; [apply run_ret|]. intros r l [-> ->]. split; reflexivity.
- intros x l [H ->]. injection H as ->.
  split; [reflexivity|].
  exists [Wait 5000;
          SetUploadingFiles (id u) (statusProgressUpdate processing (pollProgress attempts));
          GetFile (id u)].
  split; reflexivity.
- intros e l [H _]. discriminate H.
Qed.

(** The loop against polls that never answer ready runs out its turns. *)
Lemma run_pollLoop_timeout u fuel attempts :
(forall n, n < maxAttempts -> notReady (poll be n)) ->
attempts <= maxAttempts -> maxAttempts - attempts <= fuel ->
run (pollLoop be u fuel attempts)
    (fun r l => r = Returns maxAttempts /\
                tally l = (maxAttempts - attempts, maxAttempts - attempts, 0, 0)).
Proof.
intros Hnot. revert attempts.
induction fuel as [|fuel IH]; intros attempts Hle Hfuel; simpl pollLoop.
- assert (attempts = maxAttempts) by lia. subst attempts.
  rewrite Nat.ltb_irrefl.
  eapply run_weaken; [apply run_ret|]. intros r l [-> ->].
  rewrite Nat.sub_diag. split; reflexivity.
- destruct (attempts <? maxAttempts) eqn:Hlt.
  + apply Nat.ltb_lt in Hlt.
    eapply run_bind; [apply run_pollOnce_notReady, Hnot, Hlt | |].
    * intros stop l1 [H Ht]. injection H as ->.
      eapply run_weaken; [apply (IH (S attempts)); lia|].
      intros r l2 [-> Ht2]. split; [reflexivity|].
      rewrite tally_app, Ht, Ht2. unfold tallyPlus.
      replace (maxAttempts - attempts) with (S (maxAttempts - S attempts)) by lia.
      reflexivity.
    * intros e l1 [H _]. discriminate H.
  + apply Nat.ltb_ge in Hlt. assert (attempts = maxAttempts) by lia. subst attempts.
    eapply run_weaken; [apply run_ret|]. intros r l [-> ->].
    rewrite Nat.sub_diag. split; reflexivity.
Qed.

(** The loop up to the first poll that answers ready. *)
Lemma run_pollLoop_ready u k fuel attempts :
(forall n, n < k -> notReady (poll be n)) ->
isReady (poll be k) -> k < maxAttempts ->
attempts <= k -> k - attempts < fuel ->
run (pollLoop be u fuel attempts)
    (fun r l => r = Returns k /\
                exists pre, l = pre ++ readyTail u /\
                            tally pre = (S k - attempts, S k - attempts, 0, 0)).
Proof.
intros Hnot Hready Hk. revert attempts.
induction fuel as [|fuel IH]; intros attempts Hle Hfuel; [lia|].
simpl pollLoop.
replace (attempts <? maxAttempts) with true by (symmetry; apply Nat.ltb_lt; lia).
destruct (Nat.eq_dec attempts k) as [->|Hne].
- eapply run_bind; [apply run_pollOnce_ready, Hready | |].
  + intros stop l1 [H [pre [-> Ht]]]. injection H as ->.
    eapply run_weaken; [apply run_ret|]. intros r l2 [-> ->].
    rewrite app_nil_r. split; [reflexivity|]. exists pre. split; [reflexivity|].
    rewrite Ht. replace (S k - k) with 1 by lia. reflexivity.
  + intros e l1 [H _]. discriminate H.
- eapply run_bind; [apply run_pollOnce_notReady, Hnot; lia | |].
  + intros stop l1 [H Ht]. injection H as ->.
    eapply run_weaken; [apply (IH (S attempts)); lia|].
    intros r l2 [-> [pre [-> Ht2]]]. split; [reflexivity|].
    exists (l1 ++ pre). split; [apply app_assoc|].
    rewrite tally_app, Ht, Ht2. unfold tallyPlus.
    replace (S k - attempts) with (S (S k - S attempts)) by lia.
    reflexivity.
  + intros e l1 [H _]. discriminate H.
Qed.

(** The simulated upload progress: eleven quiet steps. *)
Lemma run_progress (i : jsstring) (l : list Z) :
run (forEach l (fun p =>
       bind (wait 100) (fun _ =>
       bind (onFileUpdate i (progressUpdate (inject_Z p))) (fun _ =>
       bind (updateUploading i (progressUpdate (inject_Z p))) (fun _ =>
       putStatus be i uploading (inject_Z p / inject_Z 100)%Q None)))))
    (fun r c => r = Returns tt /\ tally c = (0, 0, 0, 0)).
Proof.
induction l as [|p l IH]; simpl forEach.
- eapply run_weaken; [apply run_ret|]. intros r c [-> ->]. split; reflexivity.
- eapply run_bind with
    (P := fun r c => r = Returns tt /\ tally c = (0, 0, 0, 0)).
  + then_run ltac:(apply run_wait).
    then_run ltac:(apply run_onFileUpdate).
    then_run ltac:(apply run_updateUploading).
    eapply run_weaken; [apply run_putStatus, puts_accepted|].
    intros r c [-> ->]. split; reflexivity.
  + intros x l1 [_ Ht]. eapply run_weaken; [apply IH|].
    intros r l2 [-> Ht2]. split; [reflexivity|].
    rewrite tally_app, Ht, Ht2. reflexivity.
  + intros e l1 [H _]. discriminate H.
Qed.

(** The [try] block up to the polling loop. *)
Lemma run_uploadBody_with fileData resultId
    (Q : outcome nat -> list Call -> Prop) (R : outcome unit -> list Call -> Prop) :
upload be = UploadOk resultId ->
run (pollLoop be (renamed fileData resultId) maxAttempts 0) Q ->
(forall n l0 l1,
    tally l0 = (0, 0, 0, 0) -> Q (Returns n) l1 ->
    if maxAttempts <=? n
    then R (Throws timedOut) (l0 ++ l1)
    else R (Returns tt) (l0 ++ l1 ++ [ScheduleRemoval resultId 15000])) ->
(forall e l0 l1, Q (Throws e) l1 -> R (Throws e) (l0 ++ l1)) ->
run (uploadBody be fileData) R.
Proof.
intros Hup Hloop Hret Hthrow. unfold uploadBody, uploadFileToPublic.
rewrite Hup.
change (spread fileData
          (mkPartial (Some resultId) None None None None None None None None))
  with (renamed fileData resultId).
change (id (renamed fileData resultId)) with resultId.
eapply run_bind with (P := fun r l => r = Returns resultId /\ l = [PostUpload (name fileData)]).
{ then_run ltac:(apply run_log).
  eapply run_weaken; [apply run_ret|]. intros r l [-> ->]. auto. }
2: { intros e l1 [H _]. discriminate H. }
intros x l1 [H ->]. injection H as ->.
then_run ltac:(apply run_onFileUpdate).
then_run ltac:(apply run_updateUploading).
eapply run_bind; [apply run_progress | | intros e l1 [H _]; discriminate H].
intros _ lp [_ Hlp].
then_run ltac:(apply run_onFileUpdate).
then_run ltac:(apply run_updateUploading).
then_run ltac:(apply run_putStatus, puts_accepted).
eapply run_bind; [apply Hloop | |].
- intros n ll HQ. cbv beta.
  match goal with
  | |- run _ (fun r l2 => R r (?a ++ ?b ++ ?c ++ ?p ++ ?d ++ ?e ++ ?f ++ ll ++ l2)) =>
      pose (l0 := a ++ b ++ c ++ p ++ d ++ e ++ f)
  end.
  assert (Hl0 : tally l0 = (0, 0, 0, 0)).
  { unfold l0. rewrite !tally_app, Hlp. reflexivity. }
  specialize (Hret n l0 ll Hl0 HQ).
  destruct (maxAttempts <=? n).
  + eapply run_bind; [apply run_throw | |].
    * intros ? ? [H _]. discriminate H.
    * intros ? ? [H ->]. injection H as ->. rewrite app_nil_r.
      unfold l0 in Hret. rewrite <- !app_assoc in Hret. exact Hret.
  + eapply run_bind; [apply run_ret | |].
    * intros ? ? [_ ->]. cbv beta.
      eapply run_weaken; [apply run_log|].
      intros r l [-> ->]. cbv beta.
      unfold l0 in Hret. rewrite <- !app_assoc in Hret. exact Hret.
    * intros ? ? [H _]. discriminate H.
- intros e ll HQ. cbv beta.
  match goal with
  | |- R _ (?a ++ ?b ++ ?c ++ ?p ++ ?d ++ ?e ++ ?f ++ ll) =>
      pose proof (Hthrow _ (a ++ b ++ c ++ p ++ d ++ e ++ f) ll HQ) as Hth
  end.
  rewrite <- !app_assoc in Hth. exact Hth.
Qed.

Lemma run_uploadCatch fileData e :
run (uploadCatch be fileData e)
    (fun r l => r = Returns tt /\ l = catchCalls fileData e).
Proof.
unfold uploadCatch.
then_run ltac:(apply run_log).
then_run ltac:(apply run_onFileUpdate).
then_run ltac:(apply run_updateUploading).
eapply run_weaken; [apply run_putStatus, puts_accepted|].
intros r l [-> ->]. split; reflexivity.
Qed.

(** The whole run against polls that never answer ready. *)
Lemma run_handleFileUpload_timeout fileData resultId :
upload be = UploadOk resultId ->
(forall n, n < maxAttempts -> notReady (poll be n)) ->
run (handleFileUpload be fileData)
    (fun r l => r = Returns tt /\
                exists body, l = body ++ catchCalls fileData timedOut /\
                             tally body = (60, 60, 0, 0)).
Proof.
intros Hup Hnot. unfold handleFileUpload.
eapply run_tryCatch with
  (P := fun r l => r = Throws timedOut /\ tally l = (60, 60, 0, 0)).
- eapply run_uploadBody_with; [exact Hup | | |].
  + apply run_pollLoop_timeout; [exact Hnot | | ]; unfold maxAttempts; lia.
  + intros n l0 l1 Hl0 [Hn Hl1]. injection Hn as ->.
    change (maxAttempts <=? maxAttempts) with true.
    cbv iota. split; [reflexivity|].
    rewrite tally_app, Hl0, Hl1. reflexivity.
  + intros e l0 l1 [H _]. discriminate H.
- intros x l [H _]. discriminate H.
- intros e l1 [He Hl1]. injection He as ->.
  eapply run_weaken; [apply run_uploadCatch|].
  intros r l2 [-> ->]. split; [reflexivity|].
  exists l1. split; [reflexivity | exact Hl1].
Qed.

(** The whole run up to the first poll that answers ready. *)
Lemma run_handleFileUpload_ready fileData resultId k :
upload be = UploadOk resultId ->
(forall n, n < k -> notReady (poll be n)) ->
isReady (poll be k) -> k < maxAttempts ->
run (handleFileUpload be fileData)
    (fun r l => r = Returns tt /\
                exists pre,
                  l = pre ++ readyTail (renamed fileData resultId)
                          ++ [ScheduleRemoval resultId 15000] /\
                  tally pre = (S k, S k, 0, 0)).
Proof.
intros Hup Hnot Hready Hk. unfold handleFileUpload.
eapply run_tryCatch.
- eapply run_uploadBody_with with
    (R := fun r l => r = Returns tt /\
                     exists pre,
                       l = pre ++ readyTail (renamed fileData resultId)
                               ++ [ScheduleRemoval resultId 15000] /\
                       tally pre = (S k, S k, 0, 0));
    [exact Hup | | |].
  + apply (run_pollLoop_ready (renamed fileData resultId) k maxAttempts 0
             Hnot Hready Hk); lia.
  + intros n l0 l1 Hl0 [Hn [pre [-> Hpre]]]. injection Hn as ->.
    replace (maxAttempts <=? k) with false by (symmetry; apply Nat.leb_gt; exact Hk).
    split; [reflexivity|]. exists (l0 ++ pre).
    split; [rewrite <- !app_assoc; reflexivity|].
    rewrite tally_app, Hl0, Hpre. unfold tallyPlus.
    rewrite Nat.sub_0_r. reflexivity.
  + intros e l0 l1 [H _]. discriminate H.
- intros x l H. exact H.
- intros e l1 [H _]. discriminate H.
Qed.

End WholeRuns.

Section KeepsRules.

Import FileUpload.

Variable be : Backend.
Variable fileData : FileData.
Variable R : World -> World -> Prop.

Hypothesis R_refl : forall w, R w w.
Hypothesis R_trans : forall w1 w2 w3, R w1 w2 -> R w2 w3 -> R w1 w3.
Hypothesis R_log : forall c w, touchesLists c = false -> R w (log c w).
Hypothesis R_update : forall i u w,
p_id u = None -> R w (fst (onFileUpdate i u w)).
Hypothesis R_append : forall nf w, R w (fst (onFileUpload nf w)).
Hypothesis R_uploading : forall i u w,
(forall r, upload be = UploadOk r -> handlerLocal r fileData i u) ->
R w (fst (updateUploading i u w)).

Lemma keeps_ret {A} (x : A) : keeps (ret x) R.
Proof. intros w. apply R_refl. Qed.

Lemma keeps_throw {A} e : keeps (@throw World A e) R.
Proof. intros w. apply R_refl. Qed.

Lemma keeps_gets {A} (f : World -> A) : keeps (gets f) R.
Proof. intros w. apply R_refl. Qed.

Lemma keeps_log c : touchesLists c = false -> keeps (modify (log c)) R.
Proof. intros H w. apply R_log, H. Qed.

Lemma keeps_bind {A B} (m : eff World A) (k : A -> eff World B) :
keeps m R -> (forall x, keeps (k x) R) -> keeps (bind m k) R.
Proof.
intros Hm Hk w. unfold bind. specialize (Hm w).
destruct (m w) as [w1 [x|e]]; simpl in *; [|exact Hm].
eapply R_trans; [exact Hm | apply Hk].
Qed.

Lemma keeps_tryCatch {A} (body : eff World A) (h : thrown -> eff World A) :
keeps body R -> (forall e, keeps (h e) R) -> keeps (tryCatch body h) R.
Proof.
intros Hm Hh w. unfold tryCatch. specialize (Hm w).
destruct (body w) as [w1 [x|e]]; simpl in *; [exact Hm|].
eapply R_trans; [exact Hm | apply Hh].
Qed.

Lemma keeps_forEach {A} (l : list A) (body : A -> eff World unit) :
(forall x, keeps (body x) R) -> keeps (forEach l body) R.
Proof.
intros Hb. induction l as [|x l IH]; simpl.
- apply keeps_ret.
- apply keeps_bind; [apply Hb | intros _; exact IH].
Qed.

Lemma keeps_wait ms : keeps (wait ms) R.
Proof. apply keeps_log. reflexivity. Qed.

Lemma keeps_onFileUpdate i u : p_id u = None -> keeps (onFileUpdate i u) R.
Proof. intros Hu w. apply R_update, Hu. Qed.

Lemma keeps_onFileUpload nf : keeps (onFileUpload nf) R.
Proof. intros w. apply R_append. Qed.

Lemma keeps_updateUploading i u :
(forall r, upload be = UploadOk r -> handlerLocal r fileData i u) ->
keeps (updateUploading i u) R.
Proof. intros Hu w. apply R_uploading, Hu. Qed.

Lemma keeps_putStatus i st q msg : keeps (putStatus be i st q msg) R.
Proof.
unfold putStatus.
apply keeps_bind; [apply keeps_gets|]. intros n.
apply keeps_bind; [apply keeps_log; reflexivity|]. intros _.
destruct (putRejects be n); [apply keeps_throw | apply keeps_ret].
Qed.

Lemma keeps_uploadFileToPublic : keeps (uploadFileToPublic be fileData) R.
Proof.
unfold uploadFileToPublic.
apply keeps_bind; [apply keeps_log; reflexivity|]. intros _.
destruct (upload be); apply keeps_throw || apply keeps_ret.
Qed.

(** An update under the id of the backend that writes no id and no error. *)
Lemma local_backend_id r u :
p_id u = None -> p_status u <> Some error ->
forall r', upload be = UploadOk r -> upload be = UploadOk r' ->
           handlerLocal r' fileData r u.
Proof.
intros Hid Hst r' H H'. rewrite H in H'. injection H' as <-.
right. left. auto.
Qed.

Lemma keeps_pollOnce r attempts :
upload be = UploadOk r ->
keeps (pollOnce be (renamed fileData r) attempts) R.
Proof.
intros Hup. unfold pollOnce.
change (id (renamed fileData r)) with r.
apply keeps_bind; [apply keeps_wait|]. intros _.
apply keeps_bind.
{ apply keeps_updateUploading. intros r'.
  apply local_backend_id; [reflexivity | discriminate | exact Hup]. }
intros _. apply keeps_tryCatch.
- apply keeps_bind; [apply keeps_log; reflexivity|]. intros _.
  destruct (poll be attempts) as [e | st | e | record_status error_message];
    try apply keeps_throw; try apply keeps_ret.
  destruct (JS.eqb record_status (lit "ready")).
  + apply keeps_bind; [apply keeps_onFileUpdate; reflexivity|]. intros _.
    apply keeps_bind.
    { apply keeps_updateUploading. intros r'.
      apply local_backend_id; [reflexivity | discriminate | exact Hup]. }
    intros _. apply keeps_bind; [apply keeps_onFileUpload|]. intros _.
    apply keeps_ret.
  + destruct (JS.eqb record_status (lit "error"));
      [apply keeps_throw | apply keeps_ret].
- intros e. apply keeps_bind; [apply keeps_log; reflexivity|]. intros _. apply keeps_ret.
Qed.

Lemma keeps_pollLoop r fuel attempts :
upload be = UploadOk r ->
keeps (pollLoop be (renamed fileData r) fuel attempts) R.
Proof.
intros Hup. revert attempts.
induction fuel as [|fuel IH]; intros attempts; simpl pollLoop;
  destruct (attempts <? maxAttempts); try apply keeps_ret.
apply keeps_bind; [apply keeps_pollOnce, Hup|].
intros [|]; [apply keeps_ret | apply IH].
Qed.

Lemma keeps_uploadBody : keeps (uploadBody be fileData) R.
Proof.
unfold uploadBody.
intros w. unfold bind at 1.
pose proof (keeps_uploadFileToPublic w) as H0.
destruct (uploadFileToPublic be fileData w) as [w1 [r|e]] eqn:Hrun;
  simpl in H0; [|exact H0].
assert (Hup : upload be = UploadOk r).
{ unfold uploadFileToPublic, bind, modify in Hrun.
  destruct (upload be); simpl in Hrun; try discriminate Hrun.
  injection Hrun as _ ->. reflexivity. }
eapply R_trans; [exact H0|]. revert w1 H0 Hrun. intros w1 _ _. revert w1.
change (keeps
  (bind (onFileUpdate (id (renamed fileData r))
                      (statusProgressUpdate uploading (inject_Z 0))) (fun _ =>
   bind (updateUploading (id fileData)
           (idStatusProgressUpdate (id (renamed fileData r)) uploading (inject_Z 0)))
        (fun _ =>
   bind (forEach progressSteps (fun p =>
           bind (wait 100) (fun _ =>
           bind (onFileUpdate (id (renamed fileData r)) (progressUpdate (inject_Z p)))
                (fun _ =>
           bind (updateUploading (id (renamed fileData r))
                                 (progressUpdate (inject_Z p))) (fun _ =>
           putStatus be (id (renamed fileData r)) uploading
                     (inject_Z p / inject_Z 100)%Q None))))) (fun _ =>
   bind (onFileUpdate (id (renamed fileData r)) (statusUpdate processing)) (fun _ =>
   bind (updateUploading (id (renamed fileData r)) (statusUpdate processing))
        (fun _ =>
   bind (putStatus be (id (renamed fileData r)) processing (inject_Z 1) None)
        (fun _ =>
   bind (pollLoop be (renamed fileData r) maxAttempts 0) (fun attempts =>
   bind (if maxAttempts <=? attempts
         then throw (ErrorObject (lit "Processing timed out"))
         else ret tt) (fun _ =>
   modify (log (ScheduleRemoval (id (renamed fileData r)) 15000)))))))))))
  R).
change (id (renamed fileData r)) with r.
apply keeps_bind; [apply keeps_onFileUpdate; reflexivity|]. intros _.
apply keeps_bind.
{ apply keeps_updateUploading. intros r' Hr'.
  rewrite Hup in Hr'. injection Hr' as <-.
  left. split; [reflexivity|]. split; [reflexivity|].
  exists uploading. split; [reflexivity | discriminate]. }
intros _. apply keeps_bind.
{ apply keeps_forEach. intros p.
  apply keeps_bind; [apply keeps_wait|]. intros _.
  apply keeps_bind; [apply keeps_onFileUpdate; reflexivity|]. intros _.
  apply keeps_bind; [|intros _; apply keeps_putStatus].
  apply keeps_updateUploading. intros r'.
  apply local_backend_id; [reflexivity | discriminate | exact Hup]. }
intros _. apply keeps_bind; [apply keeps_onFileUpdate; reflexivity|]. intros _.
apply keeps_bind.
{ apply keeps_updateUploading. intros r'.
  apply local_backend_id; [reflexivity | discriminate | exact Hup]. }
intros _. apply keeps_bind; [apply keeps_putStatus|]. intros _.
apply keeps_bind; [apply keeps_pollLoop, Hup|]. intros attempts.
apply keeps_bind; [|intros _; apply keeps_log; reflexivity].
destruct (maxAttempts <=? attempts); [apply keeps_throw | apply keeps_ret].
Qed.

Lemma keeps_uploadCatch e : keeps (uploadCatch be fileData e) R.
Proof.
unfold uploadCatch.
apply keeps_bind; [apply keeps_log; reflexivity|]. intros _.
apply keeps_bind; [apply keeps_onFileUpdate; reflexivity|]. intros _.
apply keeps_bind; [|intros _; apply keeps_putStatus].
apply keeps_updateUploading. intros r _. right. right. split; reflexivity.
Qed.

Lemma keeps_handleFileUpload : keeps (handleFileUpload be fileData) R.
Proof.
unfold handleFileUpload.
apply keeps_tryCatch; [apply keeps_uploadBody | apply keeps_uploadCatch].
Qed.

End KeepsRules.

Lemma map_update_ids i u (l : list FileData) :
  p_id u = None ->
  map id (map (fun f => if JS.eqb (id f) i then spread f u else f) l) = map id l.
Proof.
  intros Hu. rewrite map_map. apply map_ext. intros f.
  destruct (JS.eqb (id f) i); [|reflexivity].
  simpl. rewrite Hu. reflexivity.
Qed.

Lemma map_update_marks i st (l : list FileData) :
  Forall (fun f => id f = i -> status f = st)
         (map (fun f => if JS.eqb (id f) i
                        then spread f (FileUpload.statusUpdate st) else f) l).
Proof.
  apply Forall_forall. intros f' Hin. apply in_map_iff in Hin.
  destruct Hin as [f [<- _]].
  destruct (JS.eqb (id f) i) eqn:E; [reflexivity|].
  intros H. apply eqb_eq in H. congruence.
Qed.

(** A record that is never reported ready is given up after sixty polls.
    Whatever the polls answer short of ready (a failed request, an HTTP
    error, a record still processing or one the backend reports as failed),
    the handler waits five seconds sixty times and polls sixty times, hands
    nothing to the main list and writes no error before the loop ends; it
    then reports 'Processing timed out' through the [catch] block, under
    the id the file was picked with, and returns. *)
Theorem handleFileUpload_times_out
        (be : FileUpload.Backend) (fileData : FileData) (resultId : jsstring)
        (w : FileUpload.World) :
  FileUpload.upload be = FileUpload.UploadOk resultId ->
  neverRejects be ->
  (forall n, n < FileUpload.maxAttempts -> notReady (FileUpload.poll be n)) ->
  snd (FileUpload.handleFileUpload be fileData w) = Returns tt /\
  exists body,
    FileUpload.calls (fst (FileUpload.handleFileUpload be fileData w))
    = FileUpload.calls w ++ body ++ catchCalls fileData timedOut /\
    count isPoll body = 60 /\ count isLongWait body = 60 /\
    count FileUpload.isFileUploadCall body = 0 /\ count writesError body = 0.
Proof.
  intros Hup Hput Hnot.
  pose proof (run_handleFileUpload_timeout be Hput fileData resultId Hup Hnot) as Hrun.
  destruct (Hrun w) as [new [Hc [Hr [body [-> Ht]]]]].
  split; [exact Hr|]. exists body. split; [exact Hc|].
  unfold tally in Ht. injection Ht as H1 H2 H3 H4. auto.
Qed.

Lemma handleFileUpload_times_out_witness :
  snd (FileUpload.handleFileUpload UploadSample.failed UploadSample.picked
         UploadSample.start) = Returns tt /\
  exists body,
    FileUpload.calls (fst (FileUpload.handleFileUpload UploadSample.failed
                             UploadSample.picked UploadSample.start))
    = FileUpload.calls UploadSample.start ++ body
      ++ catchCalls UploadSample.picked timedOut /\
    count isPoll body = 60 /\ count isLongWait body = 60 /\
    count FileUpload.isFileUploadCall body = 0 /\ count writesError body = 0.
Proof.
  apply (handleFileUpload_times_out UploadSample.failed UploadSample.picked
           (lit "b7e2") UploadSample.start).
  - reflexivity.
  - intros n. reflexivity.
  - intros n _. reflexivity.
Defined.

(** A record first reported ready at the poll numbered [k] (counting from
    0, with [k] below 60) costs [k + 1] polls and as many waits of five
    seconds, during which no file is handed over and no error is written.
    After the poll that answers ready the handler marks the entries under
    the id of the backend ready, hands the picked entry under that id to
    the main list, once, asks for a refresh, schedules the removal of the
    entry from the upload list after fifteen seconds, and returns. *)
Theorem handleFileUpload_ready_at
        (be : FileUpload.Backend) (fileData : FileData) (resultId : jsstring)
        (k : nat) (w : FileUpload.World) :
  FileUpload.upload be = FileUpload.UploadOk resultId ->
  neverRejects be ->
  (forall n, n < k -> notReady (FileUpload.poll be n)) ->
  isReady (FileUpload.poll be k) ->
  k < FileUpload.maxAttempts ->
  snd (FileUpload.handleFileUpload be fileData w) = Returns tt /\
  exists pre,
    FileUpload.calls (fst (FileUpload.handleFileUpload be fileData w))
    = FileUpload.calls w ++ pre ++ readyTail (renamed fileData resultId)
        ++ [FileUpload.ScheduleRemoval resultId 15000] /\
    count isPoll pre = S k /\ count isLongWait pre = S k /\
    count FileUpload.isFileUploadCall pre = 0 /\ count writesError pre = 0.
Proof.
  intros Hup Hput Hnot Hready Hk.
  destruct (run_handleFileUpload_ready be Hput fileData resultId k Hup Hnot Hready Hk w)
    as [new [Hc [Hr [pre [-> Ht]]]]].
  split; [exact Hr|]. exists pre. split; [exact Hc|].
  unfold tally in Ht. injection Ht as H1 H2 H3 H4. auto.
Qed.

Lemma handleFileUpload_ready_at_witness :
  snd (FileUpload.handleFileUpload UploadSample.readyAtThird UploadSample.picked
         UploadSample.start) = Returns tt /\
  exists pre,
    FileUpload.calls (fst (FileUpload.handleFileUpload UploadSample.readyAtThird
                             UploadSample.picked UploadSample.start))
    = FileUpload.calls UploadSample.start ++ pre
      ++ readyTail (renamed UploadSample.picked (lit "b7e2"))
      ++ [FileUpload.ScheduleRemoval (lit "b7e2") 15000] /\
    count isPoll pre = 3 /\ count isLongWait pre = 3 /\
    count FileUpload.isFileUploadCall pre = 0 /\ count writesError pre = 0.
Proof.
  apply (handleFileUpload_ready_at UploadSample.readyAtThird UploadSample.picked
           (lit "b7e2") 2 UploadSample.start).
  - reflexivity.
  - intros n. reflexivity.
  - intros [|[|n]] H; [reflexivity | reflexivity | lia].
  - reflexivity.
  - unfold FileUpload.maxAttempts. lia.
Defined.

(** The handler itself throws only a rejection of one of its status PUTs:
    every other failure (the upload, a poll, the time-out) is caught and
    reported, and the only step of the [catch] block that can fail is its
    own PUT. *)
Theorem handleFileUpload_throws_only_put_rejections
        (be : FileUpload.Backend) (fileData : FileData) (w : FileUpload.World)
        (e : thrown) :
  snd (FileUpload.handleFileUpload be fileData w) = Throws e ->
  exists n, FileUpload.putRejects be n = Some e.
Proof.
  unfold FileUpload.handleFileUpload, tryCatch.
  destruct (FileUpload.uploadBody be fileData w) as [w1 [x|e0]]; simpl;
    [discriminate|].
  unfold FileUpload.uploadCatch, FileUpload.onFileUpdate, FileUpload.updateUploading,
    FileUpload.putStatus, bind, modify, gets. simpl.
  match goal with
  | |- context [FileUpload.putRejects be ?n] =>
      destruct (FileUpload.putRejects be n) as [e1|] eqn:E
  end; simpl; intros H; [|discriminate H].
  injection H as <-. eauto.
Qed.

Lemma handleFileUpload_throws_only_put_rejections_witness :
  snd (FileUpload.handleFileUpload UploadSample2.offline UploadSample.picked
         UploadSample.start) = Throws (ErrorObject (lit "Failed to fetch")) /\
  exists n, FileUpload.putRejects UploadSample2.offline n
            = Some (ErrorObject (lit "Failed to fetch")).
Proof.
  split; [vm_compute; reflexivity|].
  apply (handleFileUpload_throws_only_put_rejections UploadSample2.offline
           UploadSample.picked UploadSample.start).
  vm_compute. reflexivity.
Defined.

(** When the upload itself fails (the request rejects, the server answers
    with an error status, or the body cannot be read), nothing is polled
    and nothing is waited for: after the POST the handler only runs its
    [catch] block.  Every entry of the main list and of the upload list
    under the id of the picked file then shows [error], and no entry
    changes its id. *)
Theorem failed_upload_marks_picked_file
        (be : FileUpload.Backend) (fileData : FileData) (w : FileUpload.World)
        (e : thrown) :
  uploadThrows be = Some e ->
  FileUpload.calls (fst (FileUpload.handleFileUpload be fileData w))
  = FileUpload.calls w ++ FileUpload.PostUpload (name fileData) :: catchCalls fileData e /\
  Forall (fun f => id f = id fileData -> status f = error)
         (FileUpload.files (fst (FileUpload.handleFileUpload be fileData w))) /\
  Forall (fun f => id f = id fileData -> status f = error)
         (FileUpload.uploadingFiles (fst (FileUpload.handleFileUpload be fileData w))) /\
  map id (FileUpload.files (fst (FileUpload.handleFileUpload be fileData w)))
  = map id (FileUpload.files w) /\
  map id (FileUpload.uploadingFiles (fst (FileUpload.handleFileUpload be fileData w)))
  = map id (FileUpload.uploadingFiles w).
Proof.
  intros He.
  assert (Hbody : FileUpload.uploadBody be fileData w
                  = (FileUpload.log (FileUpload.PostUpload (name fileData)) w, Throws e)).
  { unfold uploadThrows in He.
    unfold FileUpload.uploadBody, FileUpload.uploadFileToPublic, bind, modify.
    destruct (FileUpload.upload be); simpl; try discriminate He;
      injection He as <-; reflexivity. }
  unfold FileUpload.handleFileUpload, tryCatch. rewrite Hbody.
  unfold FileUpload.uploadCatch, FileUpload.onFileUpdate, FileUpload.updateUploading,
    FileUpload.putStatus, bind, modify, gets. simpl.
  match goal with
  | |- context [FileUpload.putRejects be ?n] =>
      destruct (FileUpload.putRejects be n)
  end; simpl.
  all: rewrite <- !app_assoc; simpl.
  all: split; [reflexivity|].
  all: split; [apply map_update_marks|].
  all: split; [apply map_update_marks|].
  all: split; apply map_update_ids; reflexivity.
Qed.

Lemma failed_upload_marks_picked_file_witness :
  uploadThrows UploadSample2.refusing = Some (ErrorObject (lit "Upload failed: 413")) /\
  FileUpload.calls (fst (FileUpload.handleFileUpload UploadSample2.refusing
                           UploadSample.picked UploadSample.start))
  = [ FileUpload.PostUpload (lit "notes.txt");
      FileUpload.ConsoleError (ErrorObject (lit "Upload failed: 413"));
      FileUpload.OnFileUpdate (lit "k3x9q0a1z") (FileUpload.statusUpdate error);
      FileUpload.SetUploadingFiles (lit "k3x9q0a1z") (FileUpload.statusUpdate error);
      FileUpload.PutStatus (lit "k3x9q0a1z") error (inject_Z 0)
                           (Some (lit "Upload failed: 413")) ].
Proof.
  split; [vm_compute; reflexivity|].
  apply (failed_upload_marks_picked_file UploadSample2.refusing UploadSample.picked
           UploadSample.start (ErrorObject (lit "Upload failed: 413"))).
  vm_compute. reflexivity.
Defined.

(** Once the backend has filed the upload under an id of its own, the
    handler never marks the entry under that id as failed: if no entry of
    the upload list under the backend id shows [error] before the run, none
    does after it, whatever the polls and the PUTs answer.  The [error]
    update of the [catch] block goes to the id the file was picked with. *)
Theorem backend_entry_never_marked_failed
        (be : FileUpload.Backend) (fileData : FileData) (resultId : jsstring)
        (w : FileUpload.World) :
  FileUpload.upload be = FileUpload.UploadOk resultId ->
  resultId <> id fileData ->
  noErrorUnder resultId w ->
  noErrorUnder resultId (fst (FileUpload.handleFileUpload be fileData w)).
Proof.
  intros Hup Hne.
  apply (keeps_handleFileUpload be fileData
           (fun w w' => noErrorUnder resultId w -> noErrorUnder resultId w')).
  - auto.
  - auto.
  - intros c w0 _ H. exact H.
  - intros i u w0 _ H. exact H.
  - intros nf w0 H. exact H.
  - intros i u w0 Hlocal H. specialize (Hlocal resultId Hup).
    unfold noErrorUnder in *. simpl.
    apply Forall_forall. intros f' Hin. apply in_map_iff in Hin.
    destruct Hin as [f [<- Hf]].
    rewrite Forall_forall in H. specialize (H f Hf).
    destruct (JS.eqb (id f) i) eqn:E; [|exact H].
    apply eqb_eq in E.
    destruct Hlocal as [[Hi [Hid [st [Hst Hok]]]] | [[Hi [Hid Hst]] | [Hi Hid]]];
      simpl; rewrite Hid; simpl.
    + intros _. rewrite Hst. exact Hok.
    + intros Hr. destruct (p_status u) as [st|]; simpl.
      * intros ->. apply Hst. reflexivity.
      * apply H. exact Hr.
    + intros Hr. exfalso. apply Hne. congruence.
Qed.

Lemma backend_entry_never_marked_failed_witness :
  noErrorUnder (lit "b7e2")
    (fst (FileUpload.handleFileUpload UploadSample.neverReady UploadSample.picked
            UploadSample.start)).
Proof.
  apply (backend_entry_never_marked_failed UploadSample.neverReady
           UploadSample.picked (lit "b7e2") UploadSample.start).
  - reflexivity.
  - discriminate.
  - repeat constructor. intros _ H. discriminate H.
Defined.

(** A run of the handler never removes or reorders an entry of the main
    list (it only updates entries in place and appends), and never changes
    the number of entries of the upload list: the removal of the finished
    entry is only scheduled. *)
Theorem handleFileUpload_keeps_lists
        (be : FileUpload.Backend) (fileData : FileData) (w : FileUpload.World) :
  listsKept w (fst (FileUpload.handleFileUpload be fileData w)).
Proof.
  apply (keeps_handleFileUpload be fileData listsKept).
  - intros w0. split; [exists []; rewrite app_nil_r; reflexivity | reflexivity].
  - intros w1 w2 w3 [[a1 H1] L1] [[a2 H2] L2]. split.
    + exists (a1 ++ a2). rewrite H2, H1, app_assoc. reflexivity.
    + congruence.
  - intros c w0 _. split; [exists []; rewrite app_nil_r; reflexivity | reflexivity].
  - intros i u w0 Hu. split; [|reflexivity].
    exists []. rewrite app_nil_r. apply map_update_ids, Hu.
  - intros nf w0. split; [|reflexivity].
    exists (map id nf). simpl. unfold App.handleFileUpload. apply map_app.
  - intros i u w0 _. split.
    + exists []. rewrite app_nil_r. reflexivity.
    + simpl. apply length_map.
Qed.

Lemma replayFiles_app l1 l2 fs :
  replayFiles (l1 ++ l2) fs = replayFiles l2 (replayFiles l1 fs).
Proof. apply fold_left_app. Qed.

Lemma replayUploading_app l1 l2 us :
  replayUploading (l1 ++ l2) us = replayUploading l2 (replayUploading l1 us).
Proof. apply fold_left_app. Qed.

(** The log of a run determines what it did to the two lists. *)
Lemma handleFileUpload_replayed
      (be : FileUpload.Backend) (fileData : FileData) (w : FileUpload.World) :
  replayed w (fst (FileUpload.handleFileUpload be fileData w)).
Proof.
  apply (keeps_handleFileUpload be fileData replayed).
  - intros w0. exists []. rewrite app_nil_r. repeat split; reflexivity.
  - intros w1 w2 w3 [n1 [C1 [F1 [U1 K1]]]] [n2 [C2 [F2 [U2 K2]]]].
    exists (n1 ++ n2). rewrite C2, C1, F2, F1, U2, U1, app_assoc.
    rewrite replayFiles_app, replayUploading_app, forallb_app, K1, K2.
    repeat split; reflexivity.
  - intros c w0 Hc. exists [c]. destruct c; try discriminate Hc;
      repeat split; reflexivity.
  - intros i u w0 Hu. exists [FileUpload.OnFileUpdate i u].
    repeat split; try reflexivity. simpl. rewrite Hu. reflexivity.
  - intros nf w0.
    exists [FileUpload.OnFileUpload nf; FileUpload.LoadFilesFromDatabase].
    repeat split; try reflexivity. simpl. rewrite <- app_assoc. reflexivity.
  - intros i u w0 _. exists [FileUpload.SetUploadingFiles i u].
    repeat split; reflexivity.
Qed.

Lemma replayFiles_ids l fs :
  forallb keepsIds l = true ->
  map id (replayFiles l fs) = map id fs ++ flat_map uploadedIds l.
Proof.
  revert fs. induction l as [|c l IH]; intros fs H; simpl.
  - rewrite app_nil_r. reflexivity.
  - simpl in H. apply andb_true_iff in H. destruct H as [Hc Hl].
    unfold replayFiles in *. simpl. rewrite (IH _ Hl).
    destruct c; simpl; try reflexivity.
    + simpl in Hc. destruct (p_id updates) eqn:E; [discriminate Hc|].
      unfold App.handleFileUpdate. rewrite map_update_ids by exact E. reflexivity.
    + unfold App.handleFileUpload. rewrite map_app, app_assoc. reflexivity.
Qed.

Lemma no_handover_ids l :
  count FileUpload.isFileUploadCall l = 0 -> flat_map uploadedIds l = [].
Proof.
  unfold count. induction l as [|c l IH]; simpl; [reflexivity|].
  destruct c; simpl; try exact IH. discriminate.
Qed.

(** What the lists show when a run ends with the record ready.  The main
    list keeps the entries it had, in their order and under their ids, and
    gains one entry at its end: the picked file under the id of the
    backend, as it was when it was picked (so with the status it was picked
    with), also when an entry under that id is listed already.  Every
    other entry of the main list under the id of the backend shows [ready],
    and every entry of the upload list under it shows [ready] with the
    progress 100. *)
Theorem handover_appends_picked_snapshot
        (be : FileUpload.Backend) (fileData : FileData) (resultId : jsstring)
        (k : nat) (w : FileUpload.World) :
  FileUpload.upload be = FileUpload.UploadOk resultId ->
  neverRejects be ->
  (forall n, n < k -> notReady (FileUpload.poll be n)) ->
  isReady (FileUpload.poll be k) ->
  k < FileUpload.maxAttempts ->
  exists before,
    FileUpload.files (fst (FileUpload.handleFileUpload be fileData w))
    = before ++ [renamed fileData resultId] /\
    status (renamed fileData resultId) = status fileData /\
    map id before = map id (FileUpload.files w) /\
    Forall (fun f => id f = resultId -> status f = ready) before /\
    Forall (fun f => id f = resultId ->
                     status f = ready /\ progress f = Some (inject_Z 100))
           (FileUpload.uploadingFiles (fst (FileUpload.handleFileUpload be fileData w))).
Proof.
  intros Hup Hput Hnot Hready Hk.
  destruct (run_handleFileUpload_ready be Hput fileData resultId k Hup Hnot Hready Hk w)
    as [new [Hc [_ [pre [-> Ht]]]]].
  destruct (handleFileUpload_replayed be fileData w) as [new [Hc' [Hf [Hu Hkeep]]]].
  rewrite Hc in Hc'. apply app_inv_head in Hc'. subst new.
  unfold tally in Ht. injection Ht as _ _ H3 _.
  rewrite forallb_app in Hkeep. apply andb_true_iff in Hkeep. destruct Hkeep as [Hkeep _].
  rewrite replayFiles_app in Hf. rewrite replayUploading_app in Hu.
  exists (App.handleFileUpdate resultId (FileUpload.statusUpdate ready)
            (replayFiles pre (FileUpload.files w))).
  split; [exact Hf|]. split; [reflexivity|]. split; [|split].
  - unfold App.handleFileUpdate at 1. rewrite map_update_ids by reflexivity.
    rewrite (replayFiles_ids _ _ Hkeep), (no_handover_ids _ H3). apply app_nil_r.
  - apply map_update_marks.
  - rewrite Hu. cbn [readyTail replayUploading fold_left app].
    change (id (renamed fileData resultId)) with resultId.
    apply Forall_forall. intros f' Hin. apply in_map_iff in Hin.
    destruct Hin as [f [<- _]].
    destruct (JS.eqb (id f) resultId) eqn:E.
    + intros _. split; reflexivity.
    + intros H. apply eqb_eq in H. congruence.
Qed.

Lemma handover_appends_picked_snapshot_witness :
  exists before,
    FileUpload.files (fst (FileUpload.handleFileUpload UploadSample2.promptSameId
                             UploadSample.picked UploadSample.listed))
    = before ++ [renamed UploadSample.picked (lit "f1")] /\
    status (renamed UploadSample.picked (lit "f1")) = uploading /\
    map id before = [lit "f1"] /\
    Forall (fun f => id f = lit "f1" -> status f = ready) before /\
    Forall (fun f => id f = lit "f1" ->
                     status f = ready /\ progress f = Some (inject_Z 100))
           (FileUpload.uploadingFiles
              (fst (FileUpload.handleFileUpload UploadSample2.promptSameId
                      UploadSample.picked UploadSample.listed))).
Proof.
  apply (handover_appends_picked_snapshot UploadSample2.promptSameId
           UploadSample.picked (lit "f1") 0 UploadSample.listed).
  - reflexivity.
  - intros n. reflexivity.
  - intros n H. lia.
  - reflexivity.
  - unfold FileUpload.maxAttempts. lia.
Defined.

(** The progress shown while a record is processing starts at 50, never
    goes back from one poll to the next, never exceeds 95, and stays below
    95 at every poll the loop can make. *)
Theorem pollProgress_within_bounds (n : nat) :
  (inject_Z 50 <= FileUpload.pollProgress n)%Q /\
  (FileUpload.pollProgress n <= inject_Z 95)%Q /\
  (FileUpload.pollProgress 0 == inject_Z 50)%Q /\
  (forall m, n <= m -> (FileUpload.pollProgress n <= FileUpload.pollProgress m)%Q) /\
  (n < FileUpload.maxAttempts -> (FileUpload.pollProgress n < inject_Z 95)%Q).
Proof.
  unfold FileUpload.pollProgress, FileUpload.maxAttempts.
  split; [|split; [|split; [|split]]].
  - apply Q.min_glb.
    + unfold Qle. simpl. lia.
    + unfold Qle, Qplus, Qmult, inject_Z; cbn [Qnum Qden Pos.mul]; lia.
  - apply Q.le_min_l.
  - reflexivity.
  - intros m Hm. apply Q.min_le_compat_l.
    unfold Qle, Qplus, Qmult, inject_Z; cbn [Qnum Qden Pos.mul]; lia.
  - intros Hn. apply Q.min_lt_iff. right.
    unfold Qlt, Qplus, Qmult, inject_Z; cbn [Qnum Qden Pos.mul]; lia.
Qed.

(* ------------------------------------------------------------------------- *)
(** ** The chat component: selection, sending, sessions *)
(* ------------------------------------------------------------------------- *)

Lemma existsb_eqb_In (i : jsstring) (l : list jsstring) :
  existsb (fun x => JS.eqb x i) l = true <-> In i l.
Proof.
  rewrite existsb_exists. split.
  - intros [x [Hx E]]. apply eqb_eq in E. subst x. exact Hx.
  - intros H. exists i. split; [exact H | apply eqb_refl].
Qed.

Lemma eqb_neq (a b : jsstring) : JS.eqb a b = false <-> a <> b.
Proof.
  split.
  - intros H E. apply eqb_eq in E. congruence.
  - intros H. destruct (JS.eqb a b) eqn:E; [|reflexivity].
    apply eqb_eq in E. contradiction.
Qed.

(** One click flips the membership of the name and leaves every other
    name as it was; a list without repetitions stays so. *)
Lemma toggled_spec (i : jsstring) (l : list jsstring) :
  (NoDup l -> NoDup (toggled i l)) /\
  forall j, In j (toggled i l) <->
            (j = i /\ ~ In i l) \/ (j <> i /\ In j l).
Proof.
  unfold toggled. destruct (existsb (fun x => JS.eqb x i) l) eqn:E.
  - apply existsb_eqb_In in E. split.
    + apply NoDup_filter.
    + intros j. rewrite filter_In, negb_true_iff, eqb_neq. tauto.
  - assert (Hni : ~ In i l).
    { intros H. apply existsb_eqb_In in H. congruence. }
    split.
    + intros Hnd. apply NoDup_app; [exact Hnd | repeat constructor; intros [] |].
      intros a Ha [<-|[]]. contradiction.
    + intros j. rewrite in_app_iff. simpl. split.
      * intros [H | [<- | []]]; [right | left; auto].
        split; [|exact H]. intros ->. contradiction.
      * intros [[-> _] | [_ H]]; auto.
Qed.

(** Clicking a file in the chat panel flips whether it is selected and
    changes the selection of no other file; a selection that lists no file
    twice still lists none twice afterwards. *)
Theorem toggleFileSelection_flips (fileId : jsstring) (s : ChatInterface.State) :
  NoDup (ChatInterface.selectedFiles s) ->
  NoDup (ChatInterface.selectedFiles (ChatInterface.toggleFileSelection fileId s)) /\
  forall j,
    In j (ChatInterface.selectedFiles (ChatInterface.toggleFileSelection fileId s)) <->
    (j = fileId /\ ~ In fileId (ChatInterface.selectedFiles s)) \/
    (j <> fileId /\ In j (ChatInterface.selectedFiles s)).
Proof.
  intros Hnd. destruct (toggled_spec fileId (ChatInterface.selectedFiles s)) as [H1 H2].
  split; [exact (H1 Hnd) | exact H2].
Qed.

Lemma toggleFileSelection_flips_witness :
  NoDup (ChatInterface.selectedFiles Sample.focused) /\
  NoDup (ChatInterface.selectedFiles
           (ChatInterface.toggleFileSelection (lit "f2") Sample.focused)) /\
  forall j,
    In j (ChatInterface.selectedFiles
            (ChatInterface.toggleFileSelection (lit "f2") Sample.focused)) <->
    (j = lit "f2" /\ ~ In (lit "f2") (ChatInterface.selectedFiles Sample.focused)) \/
    (j <> lit "f2" /\ In j (ChatInterface.selectedFiles Sample.focused)).
Proof.
  assert (H : NoDup (ChatInterface.selectedFiles Sample.focused)).
  { repeat constructor. intros []. }
  split; [exact H|].
  apply (toggleFileSelection_flips (lit "f2") Sample.focused H).
Defined.

Lemma startsWith_iff (s p : jsstring) :
  startsWith s p = true <-> exists post, s = p ++ post.
Proof.
  revert s. induction p as [|y p IH]; intros s.
  - split; [intros _; exists s; reflexivity | destruct s; reflexivity].
  - destruct s as [|x s]; simpl.
    + split; [discriminate | intros [post H]; discriminate H].
    + rewrite andb_true_iff, N.eqb_eq, IH. split.
      * intros [-> [post ->]]. exists post. reflexivity.
      * intros [post H]. injection H as -> ->. split; [reflexivity | eauto].
Qed.

Lemma includes_cons (x : code_unit) (s p : jsstring) :
  includes (x :: s) p = startsWith (x :: s) p || includes s p.
Proof. reflexivity. Qed.

Lemma includes_nil (p : jsstring) : includes [] p = startsWith [] p.
Proof. simpl. apply orb_false_r. Qed.

(** [includes] finds exactly the texts that occur. *)
Lemma includes_iff (s p : jsstring) : includes s p = true <-> contains s p.
Proof.
  unfold contains. split.
  - induction s as [|x s IH].
    + rewrite includes_nil. intros H. apply startsWith_iff in H.
      destruct H as [post H]. exists [], post. exact H.
    + rewrite includes_cons. intros H. apply orb_true_iff in H.
      destruct H as [H|H].
      * apply startsWith_iff in H. destruct H as [post H].
        exists [], post. exact H.
      * destruct (IH H) as [pre [post ->]]. exists (x :: pre), post. reflexivity.
  - intros [pre [post ->]]. induction pre as [|x pre IH].
    + assert (H : startsWith (p ++ post) p = true)
        by (apply startsWith_iff; eauto).
      simpl app. destruct (p ++ post); simpl; simpl in H; rewrite H; reflexivity.
    + simpl app. rewrite includes_cons, IH. apply orb_true_r.
Qed.

Lemma filter_notTyping_sent (en : ChatInterface.Entropy) (s : ChatInterface.State)
      (l : list ChatMessage) :
  filter ChatInterface.notTyping
         ((l ++ [ChatInterface.userMessageOf en s]) ++ [ChatInterface.typingMessage en])
  = filter ChatInterface.notTyping l ++ [ChatInterface.userMessageOf en s].
Proof. rewrite !filter_app. simpl. rewrite app_nil_r. reflexivity. Qed.

(** The notice shown for a thrown value, by the texts that occur in its
    message. *)
Lemma displayMessage_cases (e : thrown) :
  ((contains (match e with ErrorObject m => m | OtherValue r => r end)
             (lit "Cannot return the results in a contigious 2D array") \/
    contains (match e with ErrorObject m => m | OtherValue r => r end)
             (lit "insufficient data in the index")) ->
   ChatInterface.displayMessage e
   = lit "The search index needs to be rebuilt. This can happen when there are too few documents or the index becomes corrupted. You can try uploading more documents or contact support to reset the index.") /\
  (~ (contains (match e with ErrorObject m => m | OtherValue r => r end)
               (lit "Cannot return the results in a contigious 2D array") \/
      contains (match e with ErrorObject m => m | OtherValue r => r end)
               (lit "insufficient data in the index")) ->
   ChatInterface.displayMessage e
   = lit "Sorry, I encountered an error while processing your request. Please try again.").
Proof.
  unfold ChatInterface.displayMessage, ChatInterface.isHnswError.
  change (ChatInterface.errorMessage e)
    with (match e with ErrorObject m => m | OtherValue r => r end).
  change ChatInterface.hnswMarker1
    with (lit "Cannot return the results in a contigious 2D array").
  change ChatInterface.hnswMarker2 with (lit "insufficient data in the index").
  set (text := match e with ErrorObject m => m | OtherValue r => r end).
  split.
  - intros [H|H]; apply includes_iff in H; rewrite H; [|rewrite orb_true_r];
      reflexivity.
  - intros H.
    destruct (includes text (lit "Cannot return the results in a contigious 2D array"))
      eqn:E1.
    { contradiction H. left. apply includes_iff, E1. }
    destruct (includes text (lit "insufficient data in the index")) eqn:E2.
    { contradiction H. right. apply includes_iff, E2. }
    reflexivity.
Qed.

(** A send that is not blocked does one round trip.  Whatever the backend
    answers, the handler returns normally; it issues one request, carrying
    the input as typed (not trimmed) and the document filter of the
    selection; the input box is emptied and the loading flag is down.  The
    conversation loses its typing indicators and gains two messages: the
    message of the user, with the input as typed and the scope of the
    search, and one message of the assistant.  That message is the answer
    of the backend, with its text, its sources when there are any and its
    timing, when the reply was read; the generic error notice when the
    response was not OK; and, when the request or the reading of the body
    failed, the notice about the search index if the message of the failure
    contains one of the two texts of the index failure, and the generic
    notice if it contains neither. *)
Theorem handleSendMessage_sends_once
        (files : list FileData) (en : ChatInterface.Entropy)
        (reply : ChatInterface.FetchOutcome) (s : ChatInterface.State) :
  ChatInterface.sendBlocked files s = false ->
  snd (ChatInterface.handleSendMessage files en reply s) = Returns tt /\
  ChatInterface.requests (fst (ChatInterface.handleSendMessage files en reply s))
  = ChatInterface.requests s
    ++ [ChatInterface.mkChatRequest (ChatInterface.inputValue s)
                                    (ChatInterface.documentIds files s)] /\
  ChatInterface.inputValue (fst (ChatInterface.handleSendMessage files en reply s)) = [] /\
  ChatInterface.isLoading (fst (ChatInterface.handleSendMessage files en reply s)) = false /\
  exists shown,
    ChatInterface.messages (fst (ChatInterface.handleSendMessage files en reply s))
    = filter ChatInterface.notTyping (ChatInterface.messages s)
      ++ [ mkChatMessage (ChatInterface.userId en) user (ChatInterface.inputValue s)
             (ChatInterface.userTime en) None None
             (Some (match ChatInterface.searchScope s, ChatInterface.selectedFiles s with
                    | selected, _ :: _ =>
                        mkMetadata (Some selected)
                                   (Some (length (ChatInterface.selectedFiles s)))
                    | _, _ => mkMetadata (Some all) None
                    end))
             None;
           shown ] /\
    match reply with
    | ChatInterface.HttpOk result =>
        shown = mkChatMessage (ChatInterface.replyId en) assistant
                  (ChatInterface.res_message result) (ChatInterface.replyTime en)
                  (match ChatInterface.res_sources result with
                   | Some (x :: l) => Some (x :: l)
                   | _ => None
                   end)
                  None None (ChatInterface.res_timing result)
    | ChatInterface.HttpError _ =>
        shown = mkChatMessage (ChatInterface.replyId en) assistant
                  (lit "Sorry, I encountered an error while processing your request. Please try again.")
                  (ChatInterface.replyTime en) None None None None
    | ChatInterface.FetchRejects e | ChatInterface.BodyRejects e =>
        exists notice,
          shown = mkChatMessage (ChatInterface.replyId en) assistant notice
                    (ChatInterface.replyTime en) None None None None /\
          ((contains (match e with ErrorObject m => m | OtherValue r => r end)
                     (lit "Cannot return the results in a contigious 2D array") \/
            contains (match e with ErrorObject m => m | OtherValue r => r end)
                     (lit "insufficient data in the index")) ->
           notice = lit "The search index needs to be rebuilt. This can happen when there are too few documents or the index becomes corrupted. You can try uploading more documents or contact support to reset the index.") /\
          (~ (contains (match e with ErrorObject m => m | OtherValue r => r end)
                       (lit "Cannot return the results in a contigious 2D array") \/
              contains (match e with ErrorObject m => m | OtherValue r => r end)
                       (lit "insufficient data in the index")) ->
           notice = lit "Sorry, I encountered an error while processing your request. Please try again.")
    end.
Proof.
  intros Hgo. unfold ChatInterface.handleSendMessage. rewrite Hgo.
  pose proof (filter_notTyping_sent en s (ChatInterface.messages s)) as Hf.
  assert (Hsent : ChatInterface.userMessageOf en s
                  = mkChatMessage (ChatInterface.userId en) user
                      (ChatInterface.inputValue s) (ChatInterface.userTime en) None None
                      (Some (match ChatInterface.searchScope s,
                                   ChatInterface.selectedFiles s with
                             | selected, _ :: _ =>
                                 mkMetadata (Some selected)
                                            (Some (length (ChatInterface.selectedFiles s)))
                             | _, _ => mkMetadata (Some all) None
                             end))
                      None).
  { unfold ChatInterface.userMessageOf.
    destruct (ChatInterface.searchScope s), (ChatInterface.selectedFiles s);
      reflexivity. }
  rewrite <- Hsent.
  destruct reply as [e | st | e | result];
    unfold ChatInterface.sendMessageToBackend, ChatInterface.sendBody,
      ChatInterface.sendCatch, tryFinally, tryCatch, bind, modify, gets, throw, ret;
    cbn -[filter ChatInterface.userMessageOf ChatInterface.typingMessage
          ChatInterface.notTyping ChatInterface.documentIds
          ChatInterface.errorMessageObj ChatInterface.assistantMessage
          ChatInterface.isNewSession ChatInterface.httpErrorMessage].
  4: destruct (ChatInterface.isNewSession (ChatInterface.res_session_id result)
                 (ChatInterface.activeSessionId s));
       cbn -[filter ChatInterface.userMessageOf ChatInterface.typingMessage
             ChatInterface.notTyping ChatInterface.documentIds
             ChatInterface.errorMessageObj ChatInterface.assistantMessage
             ChatInterface.httpErrorMessage].
  all: rewrite Hf, <- app_assoc.
  all: split; [reflexivity|]; split; [reflexivity|]; split; [reflexivity|];
       split; [reflexivity|].
  all: eexists; split; [reflexivity|].
  - exists (ChatInterface.displayMessage e). split; [reflexivity|].
    apply displayMessage_cases.
  - unfold ChatInterface.errorMessageObj.
    rewrite http_error_shows_generic_notice. reflexivity.
  - exists (ChatInterface.displayMessage e). split; [reflexivity|].
    apply displayMessage_cases.
  - reflexivity.
  - reflexivity.
Qed.

Lemma handleSendMessage_sends_once_witness :
  ChatInterface.sendBlocked [Sample.report] Sample.idle = false /\
  ChatInterface.requests
    (fst (ChatInterface.handleSendMessage [Sample.report] Sample.en
            Sample.hnswFailure Sample.idle))
  = [ChatInterface.mkChatRequest (lit "What is in the report?") None].
Proof.
  split; [vm_compute; reflexivity|].
  apply (handleSendMessage_sends_once [Sample.report] Sample.en Sample.hnswFailure
           Sample.idle).
  vm_compute. reflexivity.
Defined.

(** The chat adopts the session the backend names, and no other.  After a
    send that was answered with a session id other than 0, that id is the
    active session, and [onSessionUpdate] has been called once if the id
    was not the active one already and not at all if it was.  After any
    other send (a failure, an answer without a session id, an answer with
    the id 0) the active session is what it was and [onSessionUpdate] has
    not been called. *)
Theorem sendMessageToBackend_adopts_session
        (files : list FileData) (en : ChatInterface.Entropy) (userMessage : jsstring)
        (reply : ChatInterface.FetchOutcome) (s : ChatInterface.State) :
  let s' := fst (ChatInterface.sendMessageToBackend files en userMessage reply s) in
  (forall result n,
      reply = ChatInterface.HttpOk result ->
      ChatInterface.res_session_id result = Some n -> n <> 0%N ->
      ChatInterface.activeSessionId s' = Some n /\
      (ChatInterface.activeSessionId s = Some n ->
       ChatInterface.sessionUpdates s' = ChatInterface.sessionUpdates s) /\
      (ChatInterface.activeSessionId s <> Some n ->
       ChatInterface.sessionUpdates s' = S (ChatInterface.sessionUpdates s))) /\
  ((forall result n,
       reply = ChatInterface.HttpOk result ->
       ChatInterface.res_session_id result = Some n -> n = 0%N) ->
   ChatInterface.activeSessionId s' = ChatInterface.activeSessionId s /\
   ChatInterface.sessionUpdates s' = ChatInterface.sessionUpdates s).
Proof.
  destruct s as [msgs inp load sel sc act upd reqs].
  destruct reply as [e | st | e | result];
    unfold ChatInterface.sendMessageToBackend, ChatInterface.sendBody,
      ChatInterface.sendCatch, tryFinally, tryCatch, bind, modify, gets, throw, ret;
    cbn -[filter ChatInterface.isNewSession].
  1-3: split; [intros ? ? H; discriminate H | intros _; split; reflexivity].
  unfold ChatInterface.isNewSession.
  destruct (ChatInterface.res_session_id result) as [m|] eqn:Em.
  - destruct (m =? 0)%N eqn:Ez; cbn -[filter].
    + apply N.eqb_eq in Ez. subst m. split.
      * intros r n H Hn Hz. injection H as <-. congruence.
      * intros _. split; reflexivity.
    + apply N.eqb_neq in Ez.
      destruct act as [a|].
      * destruct (m =? a)%N eqn:Eq; cbn -[filter].
        -- apply N.eqb_eq in Eq. subst a. split.
           ++ intros r n H Hn _. injection H as <-. rewrite Em in Hn.
              injection Hn as <-. split; [reflexivity|].
              split; [reflexivity | intros H; contradiction H; reflexivity].
           ++ intros H. exfalso. apply Ez. apply (H result m eq_refl Em).
        -- apply N.eqb_neq in Eq. split.
           ++ intros r n H Hn _. injection H as <-. rewrite Em in Hn.
              injection Hn as <-. split; [reflexivity|].
              split; [intros H; injection H as H; congruence | reflexivity].
           ++ intros H. exfalso. apply Ez. apply (H result m eq_refl Em).
      * cbn -[filter]. split.
        -- intros r n H Hn _. injection H as <-. rewrite Em in Hn.
           injection Hn as <-. split; [reflexivity|].
           split; [discriminate | reflexivity].
        -- intros H. exfalso. apply Ez. apply (H result m eq_refl Em).
  - cbn -[filter]. split.
    + intros r n H Hn. injection H as <-. congruence.
    + intros _. split; reflexivity.
Qed.

(* ------------------------------------------------------------------------- *)
(** ** The main file list, the sessions and the panels *)
(* ------------------------------------------------------------------------- *)

Lemma handleFileUpdate_ids i u (l : list FileData) :
  p_id u = None -> map id (App.handleFileUpdate i u l) = map id l.
Proof. apply map_update_ids. Qed.

Lemma applyUpdates_ids updates (l : list FileData) :
  Forall (fun ju => p_id (snd ju) = None) updates ->
  map id (applyUpdates updates l) = map id l.
Proof.
  unfold applyUpdates. revert l.
  induction updates as [|[j u] updates IH]; intros l H; simpl; [reflexivity|].
  inversion H as [|x y Hu Hrest]; subst. simpl in Hu.
  rewrite (IH _ Hrest). apply handleFileUpdate_ids, Hu.
Qed.

(** Updates never bring a deleted file back.  The updates the components
    send to the main list carry no id; whatever their number and whatever
    files they are addressed to, the list keeps the ids it had after the
    deletion, in their order, so no entry with the deleted id appears. *)
Theorem updates_never_resurrect
        (fileId : jsstring) (updates : list (jsstring * PartialFileData))
        (l : list FileData) :
  Forall (fun ju => p_id (snd ju) = None) updates ->
  map id (applyUpdates updates (App.handleFileDelete fileId l))
  = map id (App.handleFileDelete fileId l) /\
  ~ In fileId (map id (applyUpdates updates (App.handleFileDelete fileId l))).
Proof.
  intros H. rewrite (applyUpdates_ids _ _ H). split; [reflexivity|].
  unfold App.handleFileDelete. intros Hin. apply in_map_iff in Hin.
  destruct Hin as [f [Hid Hf]]. apply filter_In in Hf. destruct Hf as [_ Hf].
  apply negb_true_iff, eqb_neq in Hf. contradiction.
Qed.

Lemma updates_never_resurrect_witness :
  Forall (fun ju => p_id (snd ju) = None)
         [(lit "f1", FileUpload.statusUpdate ready);
          (lit "f1", FileUpload.progressUpdate (inject_Z 100))] /\
  map id (applyUpdates
            [(lit "f1", FileUpload.statusUpdate ready);
             (lit "f1", FileUpload.progressUpdate (inject_Z 100))]
            (App.handleFileDelete (lit "f1") [Sample.report; UploadSample.picked]))
  = [lit "k3x9q0a1z"].
Proof.
  assert (H : Forall (fun ju => p_id (snd ju) = None)
                     [(lit "f1", FileUpload.statusUpdate ready);
                      (lit "f1", FileUpload.progressUpdate (inject_Z 100))]).
  { repeat constructor. }
  split; [exact H|].
  apply (updates_never_resurrect (lit "f1") _ [Sample.report; UploadSample.picked] H).
Defined.

Lemma map_rename_ids sessionId newTitle (l : list Sessions.ChatSession) :
  map Sessions.session_id
      (map (fun session =>
              if (Sessions.session_id session =? sessionId)%N
              then Sessions.mkChatSession (Sessions.session_id session) newTitle
                     (Sessions.created_at session) (Sessions.updated_at session)
              else session) l)
  = map Sessions.session_id l.
Proof.
  rewrite map_map. apply map_ext. intros x.
  destruct (Sessions.session_id x =? sessionId)%N; reflexivity.
Qed.

(** The session shown as active is always one of the listed ones, as long
    as sessions are created, deleted, renamed and cleared through the
    handlers of [App]: each of the four keeps this, whatever the backend
    replies and whichever session is addressed, and none of them throws.
    In particular deleting the active session leaves no session active. *)
Theorem session_handlers_keep_active_listed
        (s : Sessions.State) (sessionId : N) (newTitle : jsstring)
        (created : Sessions.Reply Sessions.ChatSession)
        (reply : Sessions.Reply unit) (confirmed mounted : bool) :
  activeListed s ->
  (activeListed (fst (Sessions.createNewSession created s)) /\
   snd (Sessions.createNewSession created s) = Returns tt) /\
  (activeListed (fst (Sessions.deleteSession sessionId reply s)) /\
   snd (Sessions.deleteSession sessionId reply s) = Returns tt /\
   (responseOk reply = true ->
    ~ In sessionId (map Sessions.session_id
                      (Sessions.chatSessions
                         (fst (Sessions.deleteSession sessionId reply s)))))) /\
  (activeListed (fst (Sessions.updateSessionTitle sessionId newTitle reply s)) /\
   snd (Sessions.updateSessionTitle sessionId newTitle reply s) = Returns tt) /\
  (activeListed (fst (Sessions.clearAllSessions confirmed mounted reply s)) /\
   snd (Sessions.clearAllSessions confirmed mounted reply s) = Returns tt).
Proof.
  intros H. unfold activeListed in *. destruct s as [l active cur flag al cm errs].
  simpl in H.
  assert (Hgone : ~ In sessionId
                      (map Sessions.session_id
                         (filter (fun session =>
                                    negb (Sessions.session_id session =? sessionId)%N) l))).
  { intros Hin. apply in_map_iff in Hin. destruct Hin as [x [Hx Hf]].
    apply filter_In in Hf. destruct Hf as [_ Hf].
    apply negb_true_iff, N.eqb_neq in Hf. contradiction. }
  split; [|split; [|split]].
  - destruct created as [e | st | e | newSession]; simpl; split; try reflexivity;
      try exact H.
    left. reflexivity.
  - destruct reply as [e | st | e | []]; simpl.
    1-2: split; [exact H | split; [reflexivity | discriminate]].
    all: unfold Sessions.deleteSession, tryCatch, bind, modify, gets; simpl.
    all: destruct active as [a|]; simpl.
    all: try (destruct (a =? sessionId)%N eqn:E; simpl).
    all: split; [|split; [reflexivity | intros _; exact Hgone]].
    all: try exact I.
    all: apply N.eqb_neq in E.
    all: apply in_map_iff in H; destruct H as [x [Hx Hin]].
    all: apply in_map_iff; exists x; split; [exact Hx|].
    all: apply filter_In; split; [exact Hin|].
    all: apply negb_true_iff, N.eqb_neq; congruence.
  - destruct reply as [e | st | e | []]; simpl; split; try reflexivity; try exact H.
    all: destruct active as [a|]; [|exact I].
    all: rewrite map_rename_ids; exact H.
  - destruct confirmed; simpl; [|split; [exact H | reflexivity]].
    destruct reply as [e | st | e | []], mounted; simpl; split; try reflexivity;
      try exact H; exact I.
Qed.

Lemma session_handlers_keep_active_listed_witness :
  activeListed SessionSample.open /\
  Sessions.activeSessionId
    (fst (Sessions.deleteSession 9 (Sessions.Ok tt) SessionSample.open)) = None /\
  activeListed (fst (Sessions.deleteSession 9 (Sessions.Ok tt) SessionSample.open)).
Proof.
  assert (H : activeListed SessionSample.open).
  { right. left. reflexivity. }
  split; [exact H|]. split; [reflexivity|].
  apply (session_handlers_keep_active_listed SessionSample.open 9
           (lit "Minutes of May") (Sessions.Ok SessionSample.wednesday)
           (Sessions.Ok tt) true true H).
Defined.

(** Clearing the history tells the user what happened, once.  If the
    dialog is declined nothing changes and nothing is shown.  Otherwise
    exactly one alert is shown: the success alert, with the sessions, the
    active session and the current session all cleared and the clear flag
    raised by one, when the backend answered OK; the error alert, with the
    sessions and the active session as they were, in every other case. *)
Theorem clearAllSessions_alerts_once
        (confirmed mounted : bool) (reply : Sessions.Reply unit) (s : Sessions.State) :
  let s' := fst (Sessions.clearAllSessions confirmed mounted reply s) in
  if negb confirmed then s' = s
  else if responseOk reply
       then Sessions.alerts s'
            = Sessions.alerts s ++ [lit "All chat history cleared successfully!"] /\
            Sessions.chatSessions s' = [] /\
            Sessions.activeSessionId s' = None /\
            Sessions.currentSession s' = None /\
            Sessions.clearChatFlag s' = S (Sessions.clearChatFlag s) /\
            Sessions.clearMessagesCalls s'
            = (if mounted then 1 else 0) + Sessions.clearMessagesCalls s
       else Sessions.alerts s'
            = Sessions.alerts s ++ [lit "Error clearing chat history"] /\
            Sessions.chatSessions s' = Sessions.chatSessions s /\
            Sessions.activeSessionId s' = Sessions.activeSessionId s /\
            Sessions.currentSession s' = Sessions.currentSession s /\
            Sessions.clearChatFlag s' = Sessions.clearChatFlag s /\
            Sessions.clearMessagesCalls s' = Sessions.clearMessagesCalls s.
Proof.
  destruct confirmed; simpl; [|reflexivity].
  destruct reply as [e | st | e | []], mounted; simpl; repeat split; reflexivity.
Qed.

Lemma trimStart_split (s : jsstring) :
  exists ws, s = ws ++ trimStart s /\ forallb isWhiteSpace ws = true.
Proof.
  induction s as [|c s [ws [Hs Hws]]]; simpl.
  - exists []. split; reflexivity.
  - destruct (isWhiteSpace c) eqn:E.
    + exists (c :: ws). simpl. rewrite E, Hws. split; [congruence | reflexivity].
    + exists []. split; reflexivity.
Qed.

Lemma trimStart_fixed (c : code_unit) (r : jsstring) :
  isWhiteSpace c = false -> trimStart (c :: r) = c :: r.
Proof. intros H. simpl. rewrite H. reflexivity. Qed.

Lemma last_snoc {A} (l : list A) (x d : A) : last (l ++ [x]) d = x.
Proof.
  induction l as [|y l IH]; [reflexivity|].
  simpl. destruct (l ++ [x]) eqn:E; [destruct l; discriminate E | exact IH].
Qed.

(** What [trim] returns has no white space at either end. *)
Lemma trim_trimmed (s : jsstring) : trimmed (trim s).
Proof.
  unfold trim, trimEnd.
  destruct (trimStart (rev (trimStart s))) as [|c r] eqn:Eu; [exact I|].
  pose proof (trimStart_head _ _ _ Eu) as Hc.
  destruct (trimStart_split (rev (trimStart s))) as [ws [Hsplit _]].
  rewrite Eu in Hsplit.
  assert (Ht : trimStart s = rev (c :: r) ++ rev ws).
  { rewrite <- rev_app_distr, <- Hsplit, rev_involutive. reflexivity. }
  unfold trimmed.
  destruct (rev (c :: r)) as [|h t] eqn:Er.
  - exact I.
  - split.
    + rewrite <- app_comm_cons in Ht. exact (trimStart_head _ _ _ Ht).
    + rewrite <- Er. simpl. rewrite last_snoc. exact Hc.
Qed.

(** A string with no white space at either end is what [trim] makes of
    it. *)
Lemma trimmed_trim (s : jsstring) : trimmed s -> trim s = s.
Proof.
  destruct s as [|c r]; [reflexivity|].
  intros [Hh Hl]. unfold trim, trimEnd. rewrite (trimStart_fixed c r Hh).
  destruct (rev (c :: r)) as [|x t] eqn:Er.
  - apply (f_equal (@rev _)) in Er. rewrite rev_involutive in Er. discriminate Er.
  - assert (Hx : x = last (c :: r) c).
    { apply (f_equal (@rev _)) in Er. rewrite rev_involutive in Er.
      rewrite Er. simpl. rewrite last_snoc. reflexivity. }
    rewrite <- Hx in Hl. rewrite (trimStart_fixed x t Hl), <- Er.
    apply rev_involutive.
Qed.

(** A title is saved only trimmed and never blank.  Either the save hands
    one title to [onUpdateSessionTitle], for the session being edited, whose
    id is not 0, and the title handed over is non-empty, has no white
    space at either end and is left as it is by another [trim], and the
    editing is closed; or nothing changes at all (the editing stays open),
    which happens exactly when no session is being edited, the session has
    the id 0, or the title is blank. *)
Theorem handleEditSave_passes_trimmed_titles (s : ChatHistory.State) :
  (exists i t,
      ChatHistory.editingSessionId s = Some i /\ i <> 0%N /\
      t = trim (ChatHistory.editingTitle s) /\
      t <> [] /\ trimmed t /\ trim t = t /\
      ChatHistory.handleEditSave s
      = ChatHistory.mkState None [] (ChatHistory.titleUpdates s ++ [(i, t)]))
  \/
  (ChatHistory.handleEditSave s = s /\
   (ChatHistory.editingSessionId s = None \/
    ChatHistory.editingSessionId s = Some 0%N \/
    whitespaceOnly (ChatHistory.editingTitle s))).
Proof.
  unfold ChatHistory.handleEditSave, ChatHistory.savable.
  destruct (ChatHistory.editingSessionId s) as [i|] eqn:Ei; [|right; auto].
  destruct (i =? 0)%N eqn:Ez; simpl.
  - right. apply N.eqb_eq in Ez. subst i. auto.
  - destruct (trim (ChatHistory.editingTitle s)) as [|c r] eqn:Et; simpl.
    + right. split; [reflexivity|]. right. right.
      apply whitespaceOnly_forallb, trim_nil_iff, Et.
    + left. exists i, (c :: r). apply N.eqb_neq in Ez.
      pose proof (trim_trimmed (ChatHistory.editingTitle s)) as Htr.
      rewrite Et in Htr.
      repeat split; try reflexivity; try discriminate; try assumption;
        try apply Htr.
      apply trimmed_trim, Htr.
Qed.

Lemma filterIndex_length {A} (n k : nat) (l : list A) :
  length (SearchPanel.filterIndex (fun index => index <? n) k l) = Nat.min (length l) (n - k).
Proof.
  revert k. induction l as [|x l IH]; intros k; simpl; [reflexivity|].
  destruct (k <? n) eqn:E.
  - apply Nat.ltb_lt in E. simpl. rewrite IH.
    replace (n - k) with (S (n - S k)) by lia. reflexivity.
  - apply Nat.ltb_ge in E. rewrite IH.
    replace (n - S k) with 0 by lia. replace (n - k) with 0 by lia.
    rewrite Nat.min_0_r. reflexivity.
Qed.

(** A search with a blank query does nothing.  Any other search waits a
    second and a half once and ends with the searching flag down and with
    as many results as there are files, two at most; the result at each
    position belongs to the file at that position, whose id and name it
    carries when they are not empty. *)
Theorem handleSearch_results (files : list FileData) (s : SearchPanel.State) :
  (whitespaceOnly (SearchPanel.searchQuery s) -> SearchPanel.handleSearch files s = s) /\
  (~ whitespaceOnly (SearchPanel.searchQuery s) ->
   SearchPanel.isSearching (SearchPanel.handleSearch files s) = false /\
   SearchPanel.waits (SearchPanel.handleSearch files s) = SearchPanel.waits s ++ [1500%N] /\
   length (SearchPanel.searchResults (SearchPanel.handleSearch files s))
   = Nat.min 2 (length files) /\
   forall k r,
     nth_error (SearchPanel.searchResults (SearchPanel.handleSearch files s)) k = Some r ->
     exists f, nth_error files k = Some f /\
               (id f <> [] -> SearchPanel.fileId r = id f) /\
               (name f <> [] -> SearchPanel.fileName r = name f)).
Proof.
  unfold SearchPanel.handleSearch.
  destruct (trim (SearchPanel.searchQuery s)) as [|c t] eqn:Et; simpl.
  - split; [reflexivity|]. intros H. exfalso. apply H.
    apply whitespaceOnly_forallb, trim_nil_iff, Et.
  - split.
    { intros H. apply whitespaceOnly_forallb, trim_nil_iff in H.
      rewrite H in Et. discriminate Et. }
    intros _. split; [reflexivity|]. split; [reflexivity|]. split.
    + unfold SearchPanel.mockResults. rewrite filterIndex_length.
      simpl length. rewrite Nat.sub_0_r. reflexivity.
    + intros k r. unfold SearchPanel.mockResults, SearchPanel.idOr, SearchPanel.nameOr,
        SearchPanel.orElse.
      destruct files as [|f0 [|f1 files]]; simpl.
      * destruct k; discriminate.
      * destruct k as [|[|k]]; simpl; try discriminate.
        intros H. injection H as <-. exists f0. simpl.
        split; [reflexivity|].
        split; intros Hne; [destruct (id f0) | destruct (name f0)];
          try reflexivity; contradiction Hne; reflexivity.
      * destruct k as [|[|[|k]]]; simpl; try discriminate.
        -- intros H. injection H as <-. exists f0. simpl.
           split; [reflexivity|].
           split; intros Hne; [destruct (id f0) | destruct (name f0)];
             try reflexivity; contradiction Hne; reflexivity.
        -- intros H. injection H as <-. exists f1. simpl.
           split; [reflexivity|].
           split; intros Hne; [destruct (id f1) | destruct (name f1)];
             try reflexivity; contradiction Hne; reflexivity.
Qed.

(** Clicking a file type in the search panel flips whether it is among
    the selected types and changes the selection of no other type; a
    selection without repetitions stays so. *)
Theorem toggleFileType_flips (ty : jsstring) (s : SearchPanel.State) :
  NoDup (SearchPanel.selectedFileTypes s) ->
  NoDup (SearchPanel.selectedFileTypes (SearchPanel.toggleFileType ty s)) /\
  forall j,
    In j (SearchPanel.selectedFileTypes (SearchPanel.toggleFileType ty s)) <->
    (j = ty /\ ~ In ty (SearchPanel.selectedFileTypes s)) \/
    (j <> ty /\ In j (SearchPanel.selectedFileTypes s)).
Proof.
  intros Hnd. destruct (toggled_spec ty (SearchPanel.selectedFileTypes s)) as [H1 H2].
  split; [exact (H1 Hnd) | exact H2].
Qed.

Lemma toggleFileType_flips_witness :
  NoDup (SearchPanel.selectedFileTypes
           (SearchPanel.toggleFileType (lit "pdf") PanelSample.searching)) /\
  forall j,
    In j (SearchPanel.selectedFileTypes
            (SearchPanel.toggleFileType (lit "pdf") PanelSample.searching)) <->
    (j = lit "pdf" /\ ~ In (lit "pdf") (SearchPanel.selectedFileTypes PanelSample.searching)) \/
    (j <> lit "pdf" /\ In j (SearchPanel.selectedFileTypes PanelSample.searching)).
Proof.
  apply (toggleFileType_flips (lit "pdf") PanelSample.searching).
  constructor.
Defined.

(** The counters of the file manager add up.  Every file is counted in
    exactly one of the four statistics (documents, images, audio, video),
    and in exactly one of the five type filters, so both families of
    counts sum to the number of files, which is the count shown for 'All
    Files'. *)
Theorem fileStats_partition (files : list FileData) :
  sum (FileManager.fileStats files) = length files /\
  hd 0 (FileManager.fileTypes files) = length files /\
  sum (tl (FileManager.fileTypes files)) = length files.
Proof.
  unfold FileManager.fileStats, FileManager.fileTypes, FileManager.countType, sum.
  simpl hd. simpl tl. simpl fold_right.
  split; [|split; [reflexivity|]].
  - induction files as [|f files IH]; [reflexivity|].
    simpl. unfold FileManager.isType in *.
    destruct (type f); simpl; lia.
  - induction files as [|f files IH]; [reflexivity|].
    simpl. unfold FileManager.isType in *.
    destruct (type f); simpl; lia.
Qed.

Lemma lit_neq (a b : string) : JS.eqb (lit a) (lit b) = false -> lit a <> lit b.
Proof. intros H E. apply eqb_eq in E. congruence. Qed.

Lemma entryIf_In (k v k' v' : jsstring) :
  In (k, v) (LogViewer.entryIf k' v') <-> k = k' /\ v = v' /\ v <> [].
Proof.
  unfold LogViewer.entryIf. destruct v' as [|c r]; simpl; split.
  - intros [].
  - intros [_ [-> H]]. contradiction H. reflexivity.
  - intros [H|[]]. injection H as <- <-. repeat split. discriminate.
  - intros [-> [-> _]]. left. reflexivity.
Qed.

(** Fetching the log.  With no log file selected nothing is requested and
    nothing changes.  Otherwise the handler makes one request for the
    selected file, never throws, and leaves the loading flag down whatever
    the reply; the entries shown are replaced when the reply is read and
    otherwise stay.  The request carries, under [lines], the text
    [toString()] gives for the number of lines, whatever that text is, and
    carries a level, a start time and an end time exactly when the
    corresponding filter is not empty. *)
Theorem fetchLogs_requests_once
        (toString : PrimFloat.float -> jsstring)
        (reply : Sessions.Reply (list LogViewer.LogEntry)) (s : LogViewer.State) :
  (LogViewer.selectedLogFile s = [] ->
   LogViewer.fetchLogs toString reply s = (s, Returns tt)) /\
  (LogViewer.selectedLogFile s <> [] ->
   snd (LogViewer.fetchLogs toString reply s) = Returns tt /\
   LogViewer.loading (fst (LogViewer.fetchLogs toString reply s)) = false /\
   LogViewer.logRequests (fst (LogViewer.fetchLogs toString reply s))
   = LogViewer.logRequests s
     ++ [LogViewer.mkLogRequest (LogViewer.selectedLogFile s)
                                (LogViewer.logParams toString s)] /\
   LogViewer.logs (fst (LogViewer.fetchLogs toString reply s))
   = match reply with
     | Sessions.Ok entries => entries
     | _ => LogViewer.logs s
     end) /\
  (forall v, In (lit "lines", v) (LogViewer.logParams toString s) <->
             v = toString (LogViewer.lines s)) /\
  (forall v, In (lit "level", v) (LogViewer.logParams toString s) <->
             v = LogViewer.levelFilter s /\ v <> []) /\
  (forall v, In (lit "start_time", v) (LogViewer.logParams toString s) <->
             v = LogViewer.startTime s /\ v <> []) /\
  (forall v, In (lit "end_time", v) (LogViewer.logParams toString s) <->
             v = LogViewer.endTime s /\ v <> []).
Proof.
  split; [|split].
  - intros H. unfold LogViewer.fetchLogs. rewrite H. reflexivity.
  - intros H. unfold LogViewer.fetchLogs.
    destruct (LogViewer.selectedLogFile s) as [|c r] eqn:E; [contradiction|].
    simpl negb. cbv iota.
    destruct reply as [e | st | e | entries];
      unfold tryFinally, tryCatch, bind, modify, throw, ret; simpl;
      rewrite ?E; repeat split; reflexivity.
  - assert (K1 := lit_neq "lines" "level" eq_refl).
    assert (K2 := lit_neq "lines" "start_time" eq_refl).
    assert (K3 := lit_neq "lines" "end_time" eq_refl).
    assert (K4 := lit_neq "level" "start_time" eq_refl).
    assert (K5 := lit_neq "level" "end_time" eq_refl).
    assert (K6 := lit_neq "start_time" "end_time" eq_refl).
    unfold LogViewer.logParams.
    split; [|split; [|split]]; intros v; rewrite !in_app_iff, !entryIf_In; simpl In;
      intuition congruence.
Qed.

(** Listing the log files never takes the selection away.  The handler
    never throws; the list shown is replaced when the reply is read and
    otherwise stays; a file that is selected stays selected, and the
    selection changes only from none to the first file of the list
    read. *)
Theorem fetchLogFiles_keeps_selection
        (reply : Sessions.Reply (list jsstring)) (s : LogViewer.State) :
  snd (LogViewer.fetchLogFiles reply s) = Returns tt /\
  LogViewer.logFiles (fst (LogViewer.fetchLogFiles reply s))
  = match reply with
    | Sessions.Ok files => files
    | _ => LogViewer.logFiles s
    end /\
  (LogViewer.selectedLogFile s <> [] ->
   LogViewer.selectedLogFile (fst (LogViewer.fetchLogFiles reply s))
   = LogViewer.selectedLogFile s) /\
  (LogViewer.selectedLogFile (fst (LogViewer.fetchLogFiles reply s))
   <> LogViewer.selectedLogFile s ->
   LogViewer.selectedLogFile s = [] /\
   exists rest,
     reply = Sessions.Ok
               (LogViewer.selectedLogFile (fst (LogViewer.fetchLogFiles reply s)) :: rest)).
Proof.
  unfold LogViewer.fetchLogFiles.
  destruct reply as [e | st | e | [|first rest]];
    unfold tryCatch, bind, modify, throw, ret; simpl.
  1-4: split; [reflexivity|]; split; [reflexivity|];
       split; [reflexivity | intros H; contradiction H; reflexivity].
  destruct (LogViewer.selectedLogFile s) as [|c r] eqn:E; simpl; rewrite ?E.
  - split; [reflexivity|]. split; [reflexivity|]. split.
    + intros H. contradiction H. reflexivity.
    + intros _. split; [reflexivity|]. exists rest. reflexivity.
  - split; [reflexivity|]. split; [reflexivity|].
    split; [reflexivity | intros H; contradiction H; reflexivity].
Qed.
